(** * BLE advertising-data codec: [net/nimble/host/src/ble_hs_adv.c]

    A shallow embedding of the advertising field writer
    ([ble_hs_adv_set_hdr], [ble_hs_adv_set_flat], [ble_hs_adv_set_array16],
    [ble_hs_adv_set_array32], [ble_hs_adv_set_fields]) and of the parser
    ([ble_hs_adv_parse_uuids16], [ble_hs_adv_parse_uuids32],
    [ble_hs_adv_parse_one_field], [ble_hs_adv_parse_fields]).

    Conventions of the embedding.
    - C integers are [Z]; every conversion to [uint8_t] that the C code
      performs (assignment to a [uint8_t] object, passing an argument to a
      [uint8_t] parameter, a byte store) is written out as [u8].
    - A C pointer to bytes is modelled by the memory visible from it:
      [Some l] is a pointer whose pointee and the bytes after it are [l],
      [None] is [NULL].
    - An [int] status is an [rc]: [None] is [0], [Some e] a nonzero code.
    - Out parameters and the objects the code mutates are explicit state. *)

From Stdlib Require Import ZArith List Bool Lia.
Import ListNotations.
Open Scope Z_scope.

(** ** Integer conversions *)

(** Conversion to [uint8_t]. *)
Definition u8 (x : Z) : Z := x mod 256.

(** Conversion of a byte to [int8_t] (two's complement). *)
Definition s8 (x : Z) : Z := if u8 x <? 128 then u8 x else u8 x - 256.

Definition is_u8 (x : Z) : Prop := 0 <= x < 256.

(** ** Status codes *)

Inductive ble_hs_err : Type :=
| BLE_HS_EMSGSIZE
| BLE_HS_EBADDATA
| BLE_HS_ENOTSUP
| BLE_HS_EOTHER (code : Z). (* a nonzero status of the HCI tx-power query *)

Definition rc : Type := option ble_hs_err.

(** ** What [host/ble_hs_adv.h] and the build configuration provide

    The header declaring the length constants is not among the sources, and
    neither its values nor the build option nor the controller are fixed by
    the functions under study: they are parameters of the embedding.  The
    lengths are positive in any sensible header; nothing below relies on
    it unless it says so. *)

Record hs_config : Type := {
  (* [NIMBLE_OPT(ADVERTISE)] *)
  NIMBLE_OPT_ADVERTISE : bool;
  BLE_HS_ADV_MAX_FIELD_SZ : Z;
  BLE_HS_ADV_TX_PWR_LVL_AUTO : Z;
  BLE_HS_ADV_DEVICE_CLASS_LEN : Z;
  BLE_HS_ADV_SLAVE_ITVL_RANGE_LEN : Z;
  BLE_HS_ADV_SVC_DATA_UUID16_MIN_LEN : Z;
  BLE_HS_ADV_PUBLIC_TGT_ADDR_ENTRY_LEN : Z;
  BLE_HS_ADV_LE_ADDR_LEN : Z;
  BLE_HS_ADV_SVC_DATA_UUID32_MIN_LEN : Z;
  BLE_HS_ADV_SVC_DATA_UUID128_MIN_LEN : Z;
  (* outcome of [ble_hs_hci_util_read_adv_tx_pwr(&tx_pwr_lvl)]: a nonzero
     status, or the level stored through the pointer *)
  ble_hs_hci_util_read_adv_tx_pwr : ble_hs_err + Z
}.

(** The values of the NimBLE host header, with advertising compiled in and
    a controller reporting 0 dBm; used to run the code on concrete input. *)
Definition nimble : hs_config := {|
  NIMBLE_OPT_ADVERTISE := true;
  BLE_HS_ADV_MAX_FIELD_SZ := 29;
  BLE_HS_ADV_TX_PWR_LVL_AUTO := -128;
  BLE_HS_ADV_DEVICE_CLASS_LEN := 3;
  BLE_HS_ADV_SLAVE_ITVL_RANGE_LEN := 4;
  BLE_HS_ADV_SVC_DATA_UUID16_MIN_LEN := 2;
  BLE_HS_ADV_PUBLIC_TGT_ADDR_ENTRY_LEN := 6;
  BLE_HS_ADV_LE_ADDR_LEN := 7;
  BLE_HS_ADV_SVC_DATA_UUID32_MIN_LEN := 4;
  BLE_HS_ADV_SVC_DATA_UUID128_MIN_LEN := 16;
  ble_hs_hci_util_read_adv_tx_pwr := inr 0
|}.

(** Modelled from the spec: the type codes of the wire-format table (the
    header defining the [BLE_HS_ADV_TYPE_*] macros is not among the sources;
    the section comments of [ble_hs_adv_set_fields] give the same codes). *)
Definition BLE_HS_ADV_TYPE_FLAGS : Z := 0x01.
Definition BLE_HS_ADV_TYPE_INCOMP_UUIDS16 : Z := 0x02.
Definition BLE_HS_ADV_TYPE_COMP_UUIDS16 : Z := 0x03.
Definition BLE_HS_ADV_TYPE_INCOMP_UUIDS32 : Z := 0x04.
Definition BLE_HS_ADV_TYPE_COMP_UUIDS32 : Z := 0x05.
Definition BLE_HS_ADV_TYPE_INCOMP_UUIDS128 : Z := 0x06.
Definition BLE_HS_ADV_TYPE_COMP_UUIDS128 : Z := 0x07.
Definition BLE_HS_ADV_TYPE_INCOMP_NAME : Z := 0x08.
Definition BLE_HS_ADV_TYPE_COMP_NAME : Z := 0x09.
Definition BLE_HS_ADV_TYPE_TX_PWR_LVL : Z := 0x0a.
Definition BLE_HS_ADV_TYPE_DEVICE_CLASS : Z := 0x0d.
Definition BLE_HS_ADV_TYPE_SLAVE_ITVL_RANGE : Z := 0x12.
Definition BLE_HS_ADV_TYPE_SVC_DATA_UUID16 : Z := 0x16.
Definition BLE_HS_ADV_TYPE_PUBLIC_TGT_ADDR : Z := 0x17.
Definition BLE_HS_ADV_TYPE_APPEARANCE : Z := 0x19.
Definition BLE_HS_ADV_TYPE_ADV_ITVL : Z := 0x1a.
Definition BLE_HS_ADV_TYPE_LE_ADDR : Z := 0x1b.
Definition BLE_HS_ADV_TYPE_LE_ROLE : Z := 0x1c.
Definition BLE_HS_ADV_TYPE_SVC_DATA_UUID32 : Z := 0x20.
Definition BLE_HS_ADV_TYPE_SVC_DATA_UUID128 : Z := 0x21.
Definition BLE_HS_ADV_TYPE_URI : Z := 0x24.
Definition BLE_HS_ADV_TYPE_MFG_DATA : Z := 0xff.

(** Modelled from the spec: the lengths the wire-format table fixes
    ("exactly 1", "exactly 2"); their macros are in the missing header. *)
Definition BLE_HS_ADV_FLAGS_LEN : Z := 1.
Definition BLE_HS_ADV_TX_PWR_LVL_LEN : Z := 1.
Definition BLE_HS_ADV_APPEARANCE_LEN : Z := 2.
Definition BLE_HS_ADV_ADV_ITVL_LEN : Z := 2.
Definition BLE_HS_ADV_LE_ROLE_LEN : Z := 1.

(** The type codes the parser's [switch] has a [case] for. *)
Definition known_types : list Z :=
  [ BLE_HS_ADV_TYPE_FLAGS; BLE_HS_ADV_TYPE_INCOMP_UUIDS16;
    BLE_HS_ADV_TYPE_COMP_UUIDS16; BLE_HS_ADV_TYPE_INCOMP_UUIDS32;
    BLE_HS_ADV_TYPE_COMP_UUIDS32; BLE_HS_ADV_TYPE_INCOMP_UUIDS128;
    BLE_HS_ADV_TYPE_COMP_UUIDS128; BLE_HS_ADV_TYPE_INCOMP_NAME;
    BLE_HS_ADV_TYPE_COMP_NAME; BLE_HS_ADV_TYPE_TX_PWR_LVL;
    BLE_HS_ADV_TYPE_DEVICE_CLASS; BLE_HS_ADV_TYPE_SLAVE_ITVL_RANGE;
    BLE_HS_ADV_TYPE_SVC_DATA_UUID16; BLE_HS_ADV_TYPE_PUBLIC_TGT_ADDR;
    BLE_HS_ADV_TYPE_APPEARANCE; BLE_HS_ADV_TYPE_ADV_ITVL;
    BLE_HS_ADV_TYPE_LE_ADDR; BLE_HS_ADV_TYPE_LE_ROLE;
    BLE_HS_ADV_TYPE_SVC_DATA_UUID32; BLE_HS_ADV_TYPE_SVC_DATA_UUID128;
    BLE_HS_ADV_TYPE_URI; BLE_HS_ADV_TYPE_MFG_DATA ].

Definition known_type (t : Z) : bool := existsb (Z.eqb t) known_types.

(** ** [struct ble_hs_adv_fields]

    Modelled from the spec: the structure is declared in the missing header;
    its members are those the functions access, in the order the builder
    visits them.  One-bit members are [bool], [tx_pwr_lvl] is a signed
    byte, counts and lengths are bytes, [appearance] and [adv_itvl] are
    16-bit. *)

Definition ptr : Type := option (list Z).

Record ble_hs_adv_fields : Type := Build_fields {
  flags : Z;
  flags_is_present : bool;
  uuids16 : ptr;
  num_uuids16 : Z;
  uuids16_is_complete : bool;
  uuids32 : ptr;
  num_uuids32 : Z;
  uuids32_is_complete : bool;
  uuids128 : ptr;
  num_uuids128 : Z;
  uuids128_is_complete : bool;
  name : ptr;
  name_len : Z;
  name_is_complete : bool;
  tx_pwr_lvl : Z;
  tx_pwr_lvl_is_present : bool;
  device_class : ptr;
  slave_itvl_range : ptr;
  svc_data_uuid16 : ptr;
  svc_data_uuid16_len : Z;
  public_tgt_addr : ptr;
  num_public_tgt_addrs : Z;
  appearance : Z;
  appearance_is_present : bool;
  adv_itvl : Z;
  adv_itvl_is_present : bool;
  le_addr : ptr;
  le_role : Z;
  le_role_is_present : bool;
  svc_data_uuid32 : ptr;
  svc_data_uuid32_len : Z;
  svc_data_uuid128 : ptr;
  svc_data_uuid128_len : Z;
  uri : ptr;
  uri_len : Z;
  mfg_data : ptr;
  mfg_data_len : Z
}.

Definition set_flags (v : Z) (f : ble_hs_adv_fields) : ble_hs_adv_fields :=
  Build_fields v (flags_is_present f) (uuids16 f) (num_uuids16 f)
    (uuids16_is_complete f) (uuids32 f) (num_uuids32 f)
    (uuids32_is_complete f) (uuids128 f) (num_uuids128 f)
    (uuids128_is_complete f) (name f) (name_len f) (name_is_complete f)
    (tx_pwr_lvl f) (tx_pwr_lvl_is_present f) (device_class f)
    (slave_itvl_range f) (svc_data_uuid16 f) (svc_data_uuid16_len f)
    (public_tgt_addr f) (num_public_tgt_addrs f) (appearance f)
    (appearance_is_present f) (adv_itvl f) (adv_itvl_is_present f)
    (le_addr f) (le_role f) (le_role_is_present f) (svc_data_uuid32 f)
    (svc_data_uuid32_len f) (svc_data_uuid128 f) (svc_data_uuid128_len f)
    (uri f) (uri_len f) (mfg_data f) (mfg_data_len f).

Definition set_flags_is_present (v : bool) (f : ble_hs_adv_fields) : ble_hs_adv_fields :=
  Build_fields (flags f) v (uuids16 f) (num_uuids16 f)
    (uuids16_is_complete f) (uuids32 f) (num_uuids32 f)
    (uuids32_is_complete f) (uuids128 f) (num_uuids128 f)
    (uuids128_is_complete f) (name f) (name_len f) (name_is_complete f)
    (tx_pwr_lvl f) (tx_pwr_lvl_is_present f) (device_class f)
    (slave_itvl_range f) (svc_data_uuid16 f) (svc_data_uuid16_len f)
    (public_tgt_addr f) (num_public_tgt_addrs f) (appearance f)
    (appearance_is_present f) (adv_itvl f) (adv_itvl_is_present f)
    (le_addr f) (le_role f) (le_role_is_present f) (svc_data_uuid32 f)
    (svc_data_uuid32_len f) (svc_data_uuid128 f) (svc_data_uuid128_len f)
    (uri f) (uri_len f) (mfg_data f) (mfg_data_len f).

Definition set_uuids16 (v : ptr) (f : ble_hs_adv_fields) : ble_hs_adv_fields :=
  Build_fields (flags f) (flags_is_present f) v (num_uuids16 f)
    (uuids16_is_complete f) (uuids32 f) (num_uuids32 f)
    (uuids32_is_complete f) (uuids128 f) (num_uuids128 f)
    (uuids128_is_complete f) (name f) (name_len f) (name_is_complete f)
    (tx_pwr_lvl f) (tx_pwr_lvl_is_present f) (device_class f)
    (slave_itvl_range f) (svc_data_uuid16 f) (svc_data_uuid16_len f)
    (public_tgt_addr f) (num_public_tgt_addrs f) (appearance f)
    (appearance_is_present f) (adv_itvl f) (adv_itvl_is_present f)
    (le_addr f) (le_role f) (le_role_is_present f) (svc_data_uuid32 f)
    (svc_data_uuid32_len f) (svc_data_uuid128 f) (svc_data_uuid128_len f)
    (uri f) (uri_len f) (mfg_data f) (mfg_data_len f).

Definition set_num_uuids16 (v : Z) (f : ble_hs_adv_fields) : ble_hs_adv_fields :=
  Build_fields (flags f) (flags_is_present f) (uuids16 f) v
    (uuids16_is_complete f) (uuids32 f) (num_uuids32 f)
    (uuids32_is_complete f) (uuids128 f) (num_uuids128 f)
    (uuids128_is_complete f) (name f) (name_len f) (name_is_complete f)
    (tx_pwr_lvl f) (tx_pwr_lvl_is_present f) (device_class f)
    (slave_itvl_range f) (svc_data_uuid16 f) (svc_data_uuid16_len f)
    (public_tgt_addr f) (num_public_tgt_addrs f) (appearance f)
    (appearance_is_present f) (adv_itvl f) (adv_itvl_is_present f)
    (le_addr f) (le_role f) (le_role_is_present f) (svc_data_uuid32 f)
    (svc_data_uuid32_len f) (svc_data_uuid128 f) (svc_data_uuid128_len f)
    (uri f) (uri_len f) (mfg_data f) (mfg_data_len f).

Definition set_uuids16_is_complete (v : bool) (f : ble_hs_adv_fields) : ble_hs_adv_fields :=
  Build_fields (flags f) (flags_is_present f) (uuids16 f) (num_uuids16 f) v
    (uuids32 f) (num_uuids32 f) (uuids32_is_complete f) (uuids128 f)
    (num_uuids128 f) (uuids128_is_complete f) (name f) (name_len f)
    (name_is_complete f) (tx_pwr_lvl f) (tx_pwr_lvl_is_present f)
    (device_class f) (slave_itvl_range f) (svc_data_uuid16 f)
    (svc_data_uuid16_len f) (public_tgt_addr f) (num_public_tgt_addrs f)
    (appearance f) (appearance_is_present f) (adv_itvl f)
    (adv_itvl_is_present f) (le_addr f) (le_role f) (le_role_is_present f)
    (svc_data_uuid32 f) (svc_data_uuid32_len f) (svc_data_uuid128 f)
    (svc_data_uuid128_len f) (uri f) (uri_len f) (mfg_data f)
    (mfg_data_len f).

Definition set_uuids32 (v : ptr) (f : ble_hs_adv_fields) : ble_hs_adv_fields :=
  Build_fields (flags f) (flags_is_present f) (uuids16 f) (num_uuids16 f)
    (uuids16_is_complete f) v (num_uuids32 f) (uuids32_is_complete f)
    (uuids128 f) (num_uuids128 f) (uuids128_is_complete f) (name f)
    (name_len f) (name_is_complete f) (tx_pwr_lvl f)
    (tx_pwr_lvl_is_present f) (device_class f) (slave_itvl_range f)
    (svc_data_uuid16 f) (svc_data_uuid16_len f) (public_tgt_addr f)
    (num_public_tgt_addrs f) (appearance f) (appearance_is_present f)
    (adv_itvl f) (adv_itvl_is_present f) (le_addr f) (le_role f)
    (le_role_is_present f) (svc_data_uuid32 f) (svc_data_uuid32_len f)
    (svc_data_uuid128 f) (svc_data_uuid128_len f) (uri f) (uri_len f)
    (mfg_data f) (mfg_data_len f).

Definition set_num_uuids32 (v : Z) (f : ble_hs_adv_fields) : ble_hs_adv_fields :=
  Build_fields (flags f) (flags_is_present f) (uuids16 f) (num_uuids16 f)
    (uuids16_is_complete f) (uuids32 f) v (uuids32_is_complete f)
    (uuids128 f) (num_uuids128 f) (uuids128_is_complete f) (name f)
    (name_len f) (name_is_complete f) (tx_pwr_lvl f)
    (tx_pwr_lvl_is_present f) (device_class f) (slave_itvl_range f)
    (svc_data_uuid16 f) (svc_data_uuid16_len f) (public_tgt_addr f)
    (num_public_tgt_addrs f) (appearance f) (appearance_is_present f)
    (adv_itvl f) (adv_itvl_is_present f) (le_addr f) (le_role f)
    (le_role_is_present f) (svc_data_uuid32 f) (svc_data_uuid32_len f)
    (svc_data_uuid128 f) (svc_data_uuid128_len f) (uri f) (uri_len f)
    (mfg_data f) (mfg_data_len f).

Definition set_uuids32_is_complete (v : bool) (f : ble_hs_adv_fields) : ble_hs_adv_fields :=
  Build_fields (flags f) (flags_is_present f) (uuids16 f) (num_uuids16 f)
    (uuids16_is_complete f) (uuids32 f) (num_uuids32 f) v (uuids128 f)
    (num_uuids128 f) (uuids128_is_complete f) (name f) (name_len f)
    (name_is_complete f) (tx_pwr_lvl f) (tx_pwr_lvl_is_present f)
    (device_class f) (slave_itvl_range f) (svc_data_uuid16 f)
    (svc_data_uuid16_len f) (public_tgt_addr f) (num_public_tgt_addrs f)
    (appearance f) (appearance_is_present f) (adv_itvl f)
    (adv_itvl_is_present f) (le_addr f) (le_role f) (le_role_is_present f)
    (svc_data_uuid32 f) (svc_data_uuid32_len f) (svc_data_uuid128 f)
    (svc_data_uuid128_len f) (uri f) (uri_len f) (mfg_data f)
    (mfg_data_len f).

Definition set_uuids128 (v : ptr) (f : ble_hs_adv_fields) : ble_hs_adv_fields :=
  Build_fields (flags f) (flags_is_present f) (uuids16 f) (num_uuids16 f)
    (uuids16_is_complete f) (uuids32 f) (num_uuids32 f)
    (uuids32_is_complete f) v (num_uuids128 f) (uuids128_is_complete f)
    (name f) (name_len f) (name_is_complete f) (tx_pwr_lvl f)
    (tx_pwr_lvl_is_present f) (device_class f) (slave_itvl_range f)
    (svc_data_uuid16 f) (svc_data_uuid16_len f) (public_tgt_addr f)
    (num_public_tgt_addrs f) (appearance f) (appearance_is_present f)
    (adv_itvl f) (adv_itvl_is_present f) (le_addr f) (le_role f)
    (le_role_is_present f) (svc_data_uuid32 f) (svc_data_uuid32_len f)
    (svc_data_uuid128 f) (svc_data_uuid128_len f) (uri f) (uri_len f)
    (mfg_data f) (mfg_data_len f).

Definition set_num_uuids128 (v : Z) (f : ble_hs_adv_fields) : ble_hs_adv_fields :=
  Build_fields (flags f) (flags_is_present f) (uuids16 f) (num_uuids16 f)
    (uuids16_is_complete f) (uuids32 f) (num_uuids32 f)
    (uuids32_is_complete f) (uuids128 f) v (uuids128_is_complete f) (name f)
    (name_len f) (name_is_complete f) (tx_pwr_lvl f)
    (tx_pwr_lvl_is_present f) (device_class f) (slave_itvl_range f)
    (svc_data_uuid16 f) (svc_data_uuid16_len f) (public_tgt_addr f)
    (num_public_tgt_addrs f) (appearance f) (appearance_is_present f)
    (adv_itvl f) (adv_itvl_is_present f) (le_addr f) (le_role f)
    (le_role_is_present f) (svc_data_uuid32 f) (svc_data_uuid32_len f)
    (svc_data_uuid128 f) (svc_data_uuid128_len f) (uri f) (uri_len f)
    (mfg_data f) (mfg_data_len f).

Definition set_uuids128_is_complete (v : bool) (f : ble_hs_adv_fields) : ble_hs_adv_fields :=
  Build_fields (flags f) (flags_is_present f) (uuids16 f) (num_uuids16 f)
    (uuids16_is_complete f) (uuids32 f) (num_uuids32 f)
    (uuids32_is_complete f) (uuids128 f) (num_uuids128 f) v (name f)
    (name_len f) (name_is_complete f) (tx_pwr_lvl f)
    (tx_pwr_lvl_is_present f) (device_class f) (slave_itvl_range f)
    (svc_data_uuid16 f) (svc_data_uuid16_len f) (public_tgt_addr f)
    (num_public_tgt_addrs f) (appearance f) (appearance_is_present f)
    (adv_itvl f) (adv_itvl_is_present f) (le_addr f) (le_role f)
    (le_role_is_present f) (svc_data_uuid32 f) (svc_data_uuid32_len f)
    (svc_data_uuid128 f) (svc_data_uuid128_len f) (uri f) (uri_len f)
    (mfg_data f) (mfg_data_len f).

Definition set_name (v : ptr) (f : ble_hs_adv_fields) : ble_hs_adv_fields :=
  Build_fields (flags f) (flags_is_present f) (uuids16 f) (num_uuids16 f)
    (uuids16_is_complete f) (uuids32 f) (num_uuids32 f)
    (uuids32_is_complete f) (uuids128 f) (num_uuids128 f)
    (uuids128_is_complete f) v (name_len f) (name_is_complete f)
    (tx_pwr_lvl f) (tx_pwr_lvl_is_present f) (device_class f)
    (slave_itvl_range f) (svc_data_uuid16 f) (svc_data_uuid16_len f)
    (public_tgt_addr f) (num_public_tgt_addrs f) (appearance f)
    (appearance_is_present f) (adv_itvl f) (adv_itvl_is_present f)
    (le_addr f) (le_role f) (le_role_is_present f) (svc_data_uuid32 f)
    (svc_data_uuid32_len f) (svc_data_uuid128 f) (svc_data_uuid128_len f)
    (uri f) (uri_len f) (mfg_data f) (mfg_data_len f).

Definition set_name_len (v : Z) (f : ble_hs_adv_fields) : ble_hs_adv_fields :=
  Build_fields (flags f) (flags_is_present f) (uuids16 f) (num_uuids16 f)
    (uuids16_is_complete f) (uuids32 f) (num_uuids32 f)
    (uuids32_is_complete f) (uuids128 f) (num_uuids128 f)
    (uuids128_is_complete f) (name f) v (name_is_complete f) (tx_pwr_lvl f)
    (tx_pwr_lvl_is_present f) (device_class f) (slave_itvl_range f)
    (svc_data_uuid16 f) (svc_data_uuid16_len f) (public_tgt_addr f)
    (num_public_tgt_addrs f) (appearance f) (appearance_is_present f)
    (adv_itvl f) (adv_itvl_is_present f) (le_addr f) (le_role f)
    (le_role_is_present f) (svc_data_uuid32 f) (svc_data_uuid32_len f)
    (svc_data_uuid128 f) (svc_data_uuid128_len f) (uri f) (uri_len f)
    (mfg_data f) (mfg_data_len f).

Definition set_name_is_complete (v : bool) (f : ble_hs_adv_fields) : ble_hs_adv_fields :=
  Build_fields (flags f) (flags_is_present f) (uuids16 f) (num_uuids16 f)
    (uuids16_is_complete f) (uuids32 f) (num_uuids32 f)
    (uuids32_is_complete f) (uuids128 f) (num_uuids128 f)
    (uuids128_is_complete f) (name f) (name_len f) v (tx_pwr_lvl f)
    (tx_pwr_lvl_is_present f) (device_class f) (slave_itvl_range f)
    (svc_data_uuid16 f) (svc_data_uuid16_len f) (public_tgt_addr f)
    (num_public_tgt_addrs f) (appearance f) (appearance_is_present f)
    (adv_itvl f) (adv_itvl_is_present f) (le_addr f) (le_role f)
    (le_role_is_present f) (svc_data_uuid32 f) (svc_data_uuid32_len f)
    (svc_data_uuid128 f) (svc_data_uuid128_len f) (uri f) (uri_len f)
    (mfg_data f) (mfg_data_len f).

Definition set_tx_pwr_lvl (v : Z) (f : ble_hs_adv_fields) : ble_hs_adv_fields :=
  Build_fields (flags f) (flags_is_present f) (uuids16 f) (num_uuids16 f)
    (uuids16_is_complete f) (uuids32 f) (num_uuids32 f)
    (uuids32_is_complete f) (uuids128 f) (num_uuids128 f)
    (uuids128_is_complete f) (name f) (name_len f) (name_is_complete f) v
    (tx_pwr_lvl_is_present f) (device_class f) (slave_itvl_range f)
    (svc_data_uuid16 f) (svc_data_uuid16_len f) (public_tgt_addr f)
    (num_public_tgt_addrs f) (appearance f) (appearance_is_present f)
    (adv_itvl f) (adv_itvl_is_present f) (le_addr f) (le_role f)
    (le_role_is_present f) (svc_data_uuid32 f) (svc_data_uuid32_len f)
    (svc_data_uuid128 f) (svc_data_uuid128_len f) (uri f) (uri_len f)
    (mfg_data f) (mfg_data_len f).

Definition set_tx_pwr_lvl_is_present (v : bool) (f : ble_hs_adv_fields) : ble_hs_adv_fields :=
  Build_fields (flags f) (flags_is_present f) (uuids16 f) (num_uuids16 f)
    (uuids16_is_complete f) (uuids32 f) (num_uuids32 f)
    (uuids32_is_complete f) (uuids128 f) (num_uuids128 f)
    (uuids128_is_complete f) (name f) (name_len f) (name_is_complete f)
    (tx_pwr_lvl f) v (device_class f) (slave_itvl_range f)
    (svc_data_uuid16 f) (svc_data_uuid16_len f) (public_tgt_addr f)
    (num_public_tgt_addrs f) (appearance f) (appearance_is_present f)
    (adv_itvl f) (adv_itvl_is_present f) (le_addr f) (le_role f)
    (le_role_is_present f) (svc_data_uuid32 f) (svc_data_uuid32_len f)
    (svc_data_uuid128 f) (svc_data_uuid128_len f) (uri f) (uri_len f)
    (mfg_data f) (mfg_data_len f).

Definition set_device_class (v : ptr) (f : ble_hs_adv_fields) : ble_hs_adv_fields :=
  Build_fields (flags f) (flags_is_present f) (uuids16 f) (num_uuids16 f)
    (uuids16_is_complete f) (uuids32 f) (num_uuids32 f)
    (uuids32_is_complete f) (uuids128 f) (num_uuids128 f)
    (uuids128_is_complete f) (name f) (name_len f) (name_is_complete f)
    (tx_pwr_lvl f) (tx_pwr_lvl_is_present f) v (slave_itvl_range f)
    (svc_data_uuid16 f) (svc_data_uuid16_len f) (public_tgt_addr f)
    (num_public_tgt_addrs f) (appearance f) (appearance_is_present f)
    (adv_itvl f) (adv_itvl_is_present f) (le_addr f) (le_role f)
    (le_role_is_present f) (svc_data_uuid32 f) (svc_data_uuid32_len f)
    (svc_data_uuid128 f) (svc_data_uuid128_len f) (uri f) (uri_len f)
    (mfg_data f) (mfg_data_len f).

Definition set_slave_itvl_range (v : ptr) (f : ble_hs_adv_fields) : ble_hs_adv_fields :=
  Build_fields (flags f) (flags_is_present f) (uuids16 f) (num_uuids16 f)
    (uuids16_is_complete f) (uuids32 f) (num_uuids32 f)
    (uuids32_is_complete f) (uuids128 f) (num_uuids128 f)
    (uuids128_is_complete f) (name f) (name_len f) (name_is_complete f)
    (tx_pwr_lvl f) (tx_pwr_lvl_is_present f) (device_class f) v
    (svc_data_uuid16 f) (svc_data_uuid16_len f) (public_tgt_addr f)
    (num_public_tgt_addrs f) (appearance f) (appearance_is_present f)
    (adv_itvl f) (adv_itvl_is_present f) (le_addr f) (le_role f)
    (le_role_is_present f) (svc_data_uuid32 f) (svc_data_uuid32_len f)
    (svc_data_uuid128 f) (svc_data_uuid128_len f) (uri f) (uri_len f)
    (mfg_data f) (mfg_data_len f).

Definition set_svc_data_uuid16 (v : ptr) (f : ble_hs_adv_fields) : ble_hs_adv_fields :=
  Build_fields (flags f) (flags_is_present f) (uuids16 f) (num_uuids16 f)
    (uuids16_is_complete f) (uuids32 f) (num_uuids32 f)
    (uuids32_is_complete f) (uuids128 f) (num_uuids128 f)
    (uuids128_is_complete f) (name f) (name_len f) (name_is_complete f)
    (tx_pwr_lvl f) (tx_pwr_lvl_is_present f) (device_class f)
    (slave_itvl_range f) v (svc_data_uuid16_len f) (public_tgt_addr f)
    (num_public_tgt_addrs f) (appearance f) (appearance_is_present f)
    (adv_itvl f) (adv_itvl_is_present f) (le_addr f) (le_role f)
    (le_role_is_present f) (svc_data_uuid32 f) (svc_data_uuid32_len f)
    (svc_data_uuid128 f) (svc_data_uuid128_len f) (uri f) (uri_len f)
    (mfg_data f) (mfg_data_len f).

Definition set_svc_data_uuid16_len (v : Z) (f : ble_hs_adv_fields) : ble_hs_adv_fields :=
  Build_fields (flags f) (flags_is_present f) (uuids16 f) (num_uuids16 f)
    (uuids16_is_complete f) (uuids32 f) (num_uuids32 f)
    (uuids32_is_complete f) (uuids128 f) (num_uuids128 f)
    (uuids128_is_complete f) (name f) (name_len f) (name_is_complete f)
    (tx_pwr_lvl f) (tx_pwr_lvl_is_present f) (device_class f)
    (slave_itvl_range f) (svc_data_uuid16 f) v (public_tgt_addr f)
    (num_public_tgt_addrs f) (appearance f) (appearance_is_present f)
    (adv_itvl f) (adv_itvl_is_present f) (le_addr f) (le_role f)
    (le_role_is_present f) (svc_data_uuid32 f) (svc_data_uuid32_len f)
    (svc_data_uuid128 f) (svc_data_uuid128_len f) (uri f) (uri_len f)
    (mfg_data f) (mfg_data_len f).

Definition set_public_tgt_addr (v : ptr) (f : ble_hs_adv_fields) : ble_hs_adv_fields :=
  Build_fields (flags f) (flags_is_present f) (uuids16 f) (num_uuids16 f)
    (uuids16_is_complete f) (uuids32 f) (num_uuids32 f)
    (uuids32_is_complete f) (uuids128 f) (num_uuids128 f)
    (uuids128_is_complete f) (name f) (name_len f) (name_is_complete f)
    (tx_pwr_lvl f) (tx_pwr_lvl_is_present f) (device_class f)
    (slave_itvl_range f) (svc_data_uuid16 f) (svc_data_uuid16_len f) v
    (num_public_tgt_addrs f) (appearance f) (appearance_is_present f)
    (adv_itvl f) (adv_itvl_is_present f) (le_addr f) (le_role f)
    (le_role_is_present f) (svc_data_uuid32 f) (svc_data_uuid32_len f)
    (svc_data_uuid128 f) (svc_data_uuid128_len f) (uri f) (uri_len f)
    (mfg_data f) (mfg_data_len f).

Definition set_num_public_tgt_addrs (v : Z) (f : ble_hs_adv_fields) : ble_hs_adv_fields :=
  Build_fields (flags f) (flags_is_present f) (uuids16 f) (num_uuids16 f)
    (uuids16_is_complete f) (uuids32 f) (num_uuids32 f)
    (uuids32_is_complete f) (uuids128 f) (num_uuids128 f)
    (uuids128_is_complete f) (name f) (name_len f) (name_is_complete f)
    (tx_pwr_lvl f) (tx_pwr_lvl_is_present f) (device_class f)
    (slave_itvl_range f) (svc_data_uuid16 f) (svc_data_uuid16_len f)
    (public_tgt_addr f) v (appearance f) (appearance_is_present f)
    (adv_itvl f) (adv_itvl_is_present f) (le_addr f) (le_role f)
    (le_role_is_present f) (svc_data_uuid32 f) (svc_data_uuid32_len f)
    (svc_data_uuid128 f) (svc_data_uuid128_len f) (uri f) (uri_len f)
    (mfg_data f) (mfg_data_len f).

Definition set_appearance (v : Z) (f : ble_hs_adv_fields) : ble_hs_adv_fields :=
  Build_fields (flags f) (flags_is_present f) (uuids16 f) (num_uuids16 f)
    (uuids16_is_complete f) (uuids32 f) (num_uuids32 f)
    (uuids32_is_complete f) (uuids128 f) (num_uuids128 f)
    (uuids128_is_complete f) (name f) (name_len f) (name_is_complete f)
    (tx_pwr_lvl f) (tx_pwr_lvl_is_present f) (device_class f)
    (slave_itvl_range f) (svc_data_uuid16 f) (svc_data_uuid16_len f)
    (public_tgt_addr f) (num_public_tgt_addrs f) v (appearance_is_present f)
    (adv_itvl f) (adv_itvl_is_present f) (le_addr f) (le_role f)
    (le_role_is_present f) (svc_data_uuid32 f) (svc_data_uuid32_len f)
    (svc_data_uuid128 f) (svc_data_uuid128_len f) (uri f) (uri_len f)
    (mfg_data f) (mfg_data_len f).

Definition set_appearance_is_present (v : bool) (f : ble_hs_adv_fields) : ble_hs_adv_fields :=
  Build_fields (flags f) (flags_is_present f) (uuids16 f) (num_uuids16 f)
    (uuids16_is_complete f) (uuids32 f) (num_uuids32 f)
    (uuids32_is_complete f) (uuids128 f) (num_uuids128 f)
    (uuids128_is_complete f) (name f) (name_len f) (name_is_complete f)
    (tx_pwr_lvl f) (tx_pwr_lvl_is_present f) (device_class f)
    (slave_itvl_range f) (svc_data_uuid16 f) (svc_data_uuid16_len f)
    (public_tgt_addr f) (num_public_tgt_addrs f) (appearance f) v
    (adv_itvl f) (adv_itvl_is_present f) (le_addr f) (le_role f)
    (le_role_is_present f) (svc_data_uuid32 f) (svc_data_uuid32_len f)
    (svc_data_uuid128 f) (svc_data_uuid128_len f) (uri f) (uri_len f)
    (mfg_data f) (mfg_data_len f).

Definition set_adv_itvl (v : Z) (f : ble_hs_adv_fields) : ble_hs_adv_fields :=
  Build_fields (flags f) (flags_is_present f) (uuids16 f) (num_uuids16 f)
    (uuids16_is_complete f) (uuids32 f) (num_uuids32 f)
    (uuids32_is_complete f) (uuids128 f) (num_uuids128 f)
    (uuids128_is_complete f) (name f) (name_len f) (name_is_complete f)
    (tx_pwr_lvl f) (tx_pwr_lvl_is_present f) (device_class f)
    (slave_itvl_range f) (svc_data_uuid16 f) (svc_data_uuid16_len f)
    (public_tgt_addr f) (num_public_tgt_addrs f) (appearance f)
    (appearance_is_present f) v (adv_itvl_is_present f) (le_addr f)
    (le_role f) (le_role_is_present f) (svc_data_uuid32 f)
    (svc_data_uuid32_len f) (svc_data_uuid128 f) (svc_data_uuid128_len f)
    (uri f) (uri_len f) (mfg_data f) (mfg_data_len f).

Definition set_adv_itvl_is_present (v : bool) (f : ble_hs_adv_fields) : ble_hs_adv_fields :=
  Build_fields (flags f) (flags_is_present f) (uuids16 f) (num_uuids16 f)
    (uuids16_is_complete f) (uuids32 f) (num_uuids32 f)
    (uuids32_is_complete f) (uuids128 f) (num_uuids128 f)
    (uuids128_is_complete f) (name f) (name_len f) (name_is_complete f)
    (tx_pwr_lvl f) (tx_pwr_lvl_is_present f) (device_class f)
    (slave_itvl_range f) (svc_data_uuid16 f) (svc_data_uuid16_len f)
    (public_tgt_addr f) (num_public_tgt_addrs f) (appearance f)
    (appearance_is_present f) (adv_itvl f) v (le_addr f) (le_role f)
    (le_role_is_present f) (svc_data_uuid32 f) (svc_data_uuid32_len f)
    (svc_data_uuid128 f) (svc_data_uuid128_len f) (uri f) (uri_len f)
    (mfg_data f) (mfg_data_len f).

Definition set_le_addr (v : ptr) (f : ble_hs_adv_fields) : ble_hs_adv_fields :=
  Build_fields (flags f) (flags_is_present f) (uuids16 f) (num_uuids16 f)
    (uuids16_is_complete f) (uuids32 f) (num_uuids32 f)
    (uuids32_is_complete f) (uuids128 f) (num_uuids128 f)
    (uuids128_is_complete f) (name f) (name_len f) (name_is_complete f)
    (tx_pwr_lvl f) (tx_pwr_lvl_is_present f) (device_class f)
    (slave_itvl_range f) (svc_data_uuid16 f) (svc_data_uuid16_len f)
    (public_tgt_addr f) (num_public_tgt_addrs f) (appearance f)
    (appearance_is_present f) (adv_itvl f) (adv_itvl_is_present f) v
    (le_role f) (le_role_is_present f) (svc_data_uuid32 f)
    (svc_data_uuid32_len f) (svc_data_uuid128 f) (svc_data_uuid128_len f)
    (uri f) (uri_len f) (mfg_data f) (mfg_data_len f).

Definition set_le_role (v : Z) (f : ble_hs_adv_fields) : ble_hs_adv_fields :=
  Build_fields (flags f) (flags_is_present f) (uuids16 f) (num_uuids16 f)
    (uuids16_is_complete f) (uuids32 f) (num_uuids32 f)
    (uuids32_is_complete f) (uuids128 f) (num_uuids128 f)
    (uuids128_is_complete f) (name f) (name_len f) (name_is_complete f)
    (tx_pwr_lvl f) (tx_pwr_lvl_is_present f) (device_class f)
    (slave_itvl_range f) (svc_data_uuid16 f) (svc_data_uuid16_len f)
    (public_tgt_addr f) (num_public_tgt_addrs f) (appearance f)
    (appearance_is_present f) (adv_itvl f) (adv_itvl_is_present f)
    (le_addr f) v (le_role_is_present f) (svc_data_uuid32 f)
    (svc_data_uuid32_len f) (svc_data_uuid128 f) (svc_data_uuid128_len f)
    (uri f) (uri_len f) (mfg_data f) (mfg_data_len f).

Definition set_le_role_is_present (v : bool) (f : ble_hs_adv_fields) : ble_hs_adv_fields :=
  Build_fields (flags f) (flags_is_present f) (uuids16 f) (num_uuids16 f)
    (uuids16_is_complete f) (uuids32 f) (num_uuids32 f)
    (uuids32_is_complete f) (uuids128 f) (num_uuids128 f)
    (uuids128_is_complete f) (name f) (name_len f) (name_is_complete f)
    (tx_pwr_lvl f) (tx_pwr_lvl_is_present f) (device_class f)
    (slave_itvl_range f) (svc_data_uuid16 f) (svc_data_uuid16_len f)
    (public_tgt_addr f) (num_public_tgt_addrs f) (appearance f)
    (appearance_is_present f) (adv_itvl f) (adv_itvl_is_present f)
    (le_addr f) (le_role f) v (svc_data_uuid32 f) (svc_data_uuid32_len f)
    (svc_data_uuid128 f) (svc_data_uuid128_len f) (uri f) (uri_len f)
    (mfg_data f) (mfg_data_len f).

Definition set_svc_data_uuid32 (v : ptr) (f : ble_hs_adv_fields) : ble_hs_adv_fields :=
  Build_fields (flags f) (flags_is_present f) (uuids16 f) (num_uuids16 f)
    (uuids16_is_complete f) (uuids32 f) (num_uuids32 f)
    (uuids32_is_complete f) (uuids128 f) (num_uuids128 f)
    (uuids128_is_complete f) (name f) (name_len f) (name_is_complete f)
    (tx_pwr_lvl f) (tx_pwr_lvl_is_present f) (device_class f)
    (slave_itvl_range f) (svc_data_uuid16 f) (svc_data_uuid16_len f)
    (public_tgt_addr f) (num_public_tgt_addrs f) (appearance f)
    (appearance_is_present f) (adv_itvl f) (adv_itvl_is_present f)
    (le_addr f) (le_role f) (le_role_is_present f) v (svc_data_uuid32_len f)
    (svc_data_uuid128 f) (svc_data_uuid128_len f) (uri f) (uri_len f)
    (mfg_data f) (mfg_data_len f).

Definition set_svc_data_uuid32_len (v : Z) (f : ble_hs_adv_fields) : ble_hs_adv_fields :=
  Build_fields (flags f) (flags_is_present f) (uuids16 f) (num_uuids16 f)
    (uuids16_is_complete f) (uuids32 f) (num_uuids32 f)
    (uuids32_is_complete f) (uuids128 f) (num_uuids128 f)
    (uuids128_is_complete f) (name f) (name_len f) (name_is_complete f)
    (tx_pwr_lvl f) (tx_pwr_lvl_is_present f) (device_class f)
    (slave_itvl_range f) (svc_data_uuid16 f) (svc_data_uuid16_len f)
    (public_tgt_addr f) (num_public_tgt_addrs f) (appearance f)
    (appearance_is_present f) (adv_itvl f) (adv_itvl_is_present f)
    (le_addr f) (le_role f) (le_role_is_present f) (svc_data_uuid32 f) v
    (svc_data_uuid128 f) (svc_data_uuid128_len f) (uri f) (uri_len f)
    (mfg_data f) (mfg_data_len f).

Definition set_svc_data_uuid128 (v : ptr) (f : ble_hs_adv_fields) : ble_hs_adv_fields :=
  Build_fields (flags f) (flags_is_present f) (uuids16 f) (num_uuids16 f)
    (uuids16_is_complete f) (uuids32 f) (num_uuids32 f)
    (uuids32_is_complete f) (uuids128 f) (num_uuids128 f)
    (uuids128_is_complete f) (name f) (name_len f) (name_is_complete f)
    (tx_pwr_lvl f) (tx_pwr_lvl_is_present f) (device_class f)
    (slave_itvl_range f) (svc_data_uuid16 f) (svc_data_uuid16_len f)
    (public_tgt_addr f) (num_public_tgt_addrs f) (appearance f)
    (appearance_is_present f) (adv_itvl f) (adv_itvl_is_present f)
    (le_addr f) (le_role f) (le_role_is_present f) (svc_data_uuid32 f)
    (svc_data_uuid32_len f) v (svc_data_uuid128_len f) (uri f) (uri_len f)
    (mfg_data f) (mfg_data_len f).

Definition set_svc_data_uuid128_len (v : Z) (f : ble_hs_adv_fields) : ble_hs_adv_fields :=
  Build_fields (flags f) (flags_is_present f) (uuids16 f) (num_uuids16 f)
    (uuids16_is_complete f) (uuids32 f) (num_uuids32 f)
    (uuids32_is_complete f) (uuids128 f) (num_uuids128 f)
    (uuids128_is_complete f) (name f) (name_len f) (name_is_complete f)
    (tx_pwr_lvl f) (tx_pwr_lvl_is_present f) (device_class f)
    (slave_itvl_range f) (svc_data_uuid16 f) (svc_data_uuid16_len f)
    (public_tgt_addr f) (num_public_tgt_addrs f) (appearance f)
    (appearance_is_present f) (adv_itvl f) (adv_itvl_is_present f)
    (le_addr f) (le_role f) (le_role_is_present f) (svc_data_uuid32 f)
    (svc_data_uuid32_len f) (svc_data_uuid128 f) v (uri f) (uri_len f)
    (mfg_data f) (mfg_data_len f).

Definition set_uri (v : ptr) (f : ble_hs_adv_fields) : ble_hs_adv_fields :=
  Build_fields (flags f) (flags_is_present f) (uuids16 f) (num_uuids16 f)
    (uuids16_is_complete f) (uuids32 f) (num_uuids32 f)
    (uuids32_is_complete f) (uuids128 f) (num_uuids128 f)
    (uuids128_is_complete f) (name f) (name_len f) (name_is_complete f)
    (tx_pwr_lvl f) (tx_pwr_lvl_is_present f) (device_class f)
    (slave_itvl_range f) (svc_data_uuid16 f) (svc_data_uuid16_len f)
    (public_tgt_addr f) (num_public_tgt_addrs f) (appearance f)
    (appearance_is_present f) (adv_itvl f) (adv_itvl_is_present f)
    (le_addr f) (le_role f) (le_role_is_present f) (svc_data_uuid32 f)
    (svc_data_uuid32_len f) (svc_data_uuid128 f) (svc_data_uuid128_len f) v
    (uri_len f) (mfg_data f) (mfg_data_len f).

Definition set_uri_len (v : Z) (f : ble_hs_adv_fields) : ble_hs_adv_fields :=
  Build_fields (flags f) (flags_is_present f) (uuids16 f) (num_uuids16 f)
    (uuids16_is_complete f) (uuids32 f) (num_uuids32 f)
    (uuids32_is_complete f) (uuids128 f) (num_uuids128 f)
    (uuids128_is_complete f) (name f) (name_len f) (name_is_complete f)
    (tx_pwr_lvl f) (tx_pwr_lvl_is_present f) (device_class f)
    (slave_itvl_range f) (svc_data_uuid16 f) (svc_data_uuid16_len f)
    (public_tgt_addr f) (num_public_tgt_addrs f) (appearance f)
    (appearance_is_present f) (adv_itvl f) (adv_itvl_is_present f)
    (le_addr f) (le_role f) (le_role_is_present f) (svc_data_uuid32 f)
    (svc_data_uuid32_len f) (svc_data_uuid128 f) (svc_data_uuid128_len f)
    (uri f) v (mfg_data f) (mfg_data_len f).

Definition set_mfg_data (v : ptr) (f : ble_hs_adv_fields) : ble_hs_adv_fields :=
  Build_fields (flags f) (flags_is_present f) (uuids16 f) (num_uuids16 f)
    (uuids16_is_complete f) (uuids32 f) (num_uuids32 f)
    (uuids32_is_complete f) (uuids128 f) (num_uuids128 f)
    (uuids128_is_complete f) (name f) (name_len f) (name_is_complete f)
    (tx_pwr_lvl f) (tx_pwr_lvl_is_present f) (device_class f)
    (slave_itvl_range f) (svc_data_uuid16 f) (svc_data_uuid16_len f)
    (public_tgt_addr f) (num_public_tgt_addrs f) (appearance f)
    (appearance_is_present f) (adv_itvl f) (adv_itvl_is_present f)
    (le_addr f) (le_role f) (le_role_is_present f) (svc_data_uuid32 f)
    (svc_data_uuid32_len f) (svc_data_uuid128 f) (svc_data_uuid128_len f)
    (uri f) (uri_len f) v (mfg_data_len f).

Definition set_mfg_data_len (v : Z) (f : ble_hs_adv_fields) : ble_hs_adv_fields :=
  Build_fields (flags f) (flags_is_present f) (uuids16 f) (num_uuids16 f)
    (uuids16_is_complete f) (uuids32 f) (num_uuids32 f)
    (uuids32_is_complete f) (uuids128 f) (num_uuids128 f)
    (uuids128_is_complete f) (name f) (name_len f) (name_is_complete f)
    (tx_pwr_lvl f) (tx_pwr_lvl_is_present f) (device_class f)
    (slave_itvl_range f) (svc_data_uuid16 f) (svc_data_uuid16_len f)
    (public_tgt_addr f) (num_public_tgt_addrs f) (appearance f)
    (appearance_is_present f) (adv_itvl f) (adv_itvl_is_present f)
    (le_addr f) (le_role f) (le_role_is_present f) (svc_data_uuid32 f)
    (svc_data_uuid32_len f) (svc_data_uuid128 f) (svc_data_uuid128_len f)
    (uri f) (uri_len f) (mfg_data f) v.

(** [memset(adv_fields, 0, sizeof *adv_fields)]. *)
Definition fields_zero : ble_hs_adv_fields :=
  Build_fields 0 false None 0 false None 0 false None 0 false None 0 false
    0 false None None None 0 None 0 0 false 0 false None 0 false None 0
    None 0 None 0 None 0.

(** ** The destination of the builder

    [dst] records every byte store made through the [dst] pointer, as
    (index, byte) with the latest store first; [dst_len] is the cell
    [*dst_len]; [dbg_assert_ok] stays [true] as long as every
    [BLE_HS_DBG_ASSERT] met so far held (execution goes on after a failed
    one, as in a build without debug assertions). *)

Record adv_dst : Type := {
  dst : list (Z * Z);
  dst_len : Z;
  dbg_assert_ok : bool
}.

(** [dst[i] = v]: the value is converted to a byte. *)
Definition store (i v : Z) (st : adv_dst) : adv_dst :=
  {| dst := (i, u8 v) :: dst st;
     dst_len := dst_len st;
     dbg_assert_ok := dbg_assert_ok st |}.

(** [*dst_len = n]: the cell is a [uint8_t]. *)
Definition set_dst_len (n : Z) (st : adv_dst) : adv_dst :=
  {| dst := dst st; dst_len := u8 n; dbg_assert_ok := dbg_assert_ok st |}.

Definition BLE_HS_DBG_ASSERT (b : bool) (st : adv_dst) : adv_dst :=
  {| dst := dst st;
     dst_len := dst_len st;
     dbg_assert_ok := dbg_assert_ok st && b |}.

(** The byte last stored at index [i], if any. *)
Fixpoint load (l : list (Z * Z)) (i : Z) : option Z :=
  match l with
  | [] => None
  | (j, v) :: l' => if j =? i then Some v else load l' i
  end.

(** The first [n] bytes of the destination, when all were stored. *)
Fixpoint dst_bytes_from (l : list (Z * Z)) (i : Z) (n : nat) : option (list Z) :=
  match n with
  | O => Some []
  | S n' =>
      match load l i, dst_bytes_from l (i + 1) n' with
      | Some v, Some r => Some (v :: r)
      | _, _ => None
      end
  end.

Definition dst_bytes (st : adv_dst) (n : Z) : option (list Z) :=
  dst_bytes_from (dst st) 0 (Z.to_nat n).

(** [memcpy(dst + off, data, n)]. *)
Definition memcpy (off : Z) (data : list Z) (n : Z) (st : adv_dst) : adv_dst :=
  fold_left
    (fun s i => store (off + Z.of_nat i) (nth i data 0) s)
    (seq 0 (Z.to_nat n)) st.

(** Modelled from the spec: [htole16] and [htole32] (defined outside the
    sources) emit the element in little-endian byte order. *)
Definition htole16 (off x : Z) (st : adv_dst) : adv_dst :=
  store (off + 1) (Z.shiftr x 8) (store off x st).

Definition htole32 (off x : Z) (st : adv_dst) : adv_dst :=
  store (off + 3) (Z.shiftr x 24)
    (store (off + 2) (Z.shiftr x 16)
       (store (off + 1) (Z.shiftr x 8) (store off x st))).

(** ** The writers *)

Definition writer : Type := adv_dst -> rc * adv_dst.

(** [rc = m; if (rc != 0) return rc; k]. *)
Definition seq_w (m k : writer) : writer :=
  fun st =>
    match m st with
    | (None, st') => k st'
    | (Some e, st') => (Some e, st')
    end.

(** [rc = m;] with no test of [rc] before the next statement. *)
Definition unchecked (m : writer) : writer :=
  fun st => (None, snd (m st)).

Definition skip : writer := fun st => (None, st).

Declare Scope writer_scope.
Delimit Scope writer_scope with writer.
Notation "m ;; k" := (seq_w m k)
  (at level 61, right associativity) : writer_scope.

Definition ble_hs_adv_set_hdr (type data_len max_len : Z) : writer :=
  fun st =>
    if dst_len st + 2 + data_len >? max_len then (Some BLE_HS_EMSGSIZE, st)
    else
      let st := store (dst_len st) (data_len + 1) st in
      let st := store (dst_len st + 1) type st in
      let st := set_dst_len (dst_len st + 2) st in
      (None, st).

Section Builder.

Variable K : hs_config.

Definition ble_hs_adv_set_flat (type data_len : Z) (data : list Z)
    (max_len : Z) : writer :=
  fun st =>
    if negb (NIMBLE_OPT_ADVERTISE K) then (Some BLE_HS_ENOTSUP, st)
    else
      let st := BLE_HS_DBG_ASSERT (0 <? data_len) st in
      match ble_hs_adv_set_hdr type (u8 data_len) max_len st with
      | (Some e, st) => (Some e, st)
      | (None, st) =>
          let st := memcpy (dst_len st) data data_len st in
          let st := set_dst_len (dst_len st + data_len) st in
          (None, st)
      end.

(** The [for] loops of the array writers: one element per iteration, the
    cursor advanced after each. *)
Fixpoint set_elems16 (elems : list Z) (i : nat) (n : nat) (st : adv_dst)
    : adv_dst :=
  match n with
  | O => st
  | S n' =>
      let st := htole16 (dst_len st) (nth i elems 0) st in
      let st := set_dst_len (dst_len st + 2) st in
      set_elems16 elems (S i) n' st
  end.

Fixpoint set_elems32 (elems : list Z) (i : nat) (n : nat) (st : adv_dst)
    : adv_dst :=
  match n with
  | O => st
  | S n' =>
      let st := htole32 (dst_len st) (nth i elems 0) st in
      let st := set_dst_len (dst_len st + 4) st in
      set_elems32 elems (S i) n' st
  end.

Definition ble_hs_adv_set_array16 (type num_elems : Z) (elems : list Z)
    (max_len : Z) : writer :=
  fun st =>
    match ble_hs_adv_set_hdr type (u8 (num_elems * 2)) max_len st with
    | (Some e, st) => (Some e, st)
    | (None, st) => (None, set_elems16 elems 0 (Z.to_nat num_elems) st)
    end.

Definition ble_hs_adv_set_array32 (type num_elems : Z) (elems : list Z)
    (max_len : Z) : writer :=
  fun st =>
    match ble_hs_adv_set_hdr type (u8 (num_elems * 4)) max_len st with
    | (Some e, st) => (Some e, st)
    | (None, st) => (None, set_elems32 elems 0 (Z.to_nat num_elems) st)
    end.

(** The object representation of a 16-bit member on the (little-endian)
    targets of the repository, as [memcpy] reads it through [&member]. *)
Definition bytes_of_u16 (x : Z) : list Z := [u8 x; u8 (Z.shiftr x 8)].

Section SetFields.

Variable f : ble_hs_adv_fields.
Variable max_len : Z.

Local Open Scope writer_scope.

Definition set_flags_field : writer :=
  if flags_is_present f && negb (flags f =? 0) then
    unchecked (ble_hs_adv_set_flat BLE_HS_ADV_TYPE_FLAGS 1 [flags f] max_len)
  else skip.

Definition set_uuids16_field : writer :=
  match uuids16 f with
  | Some elems =>
      if negb (num_uuids16 f =? 0) then
        let type := if uuids16_is_complete f
                    then BLE_HS_ADV_TYPE_COMP_UUIDS16
                    else BLE_HS_ADV_TYPE_INCOMP_UUIDS16 in
        ble_hs_adv_set_array16 type (u8 (num_uuids16 f)) elems max_len
      else skip
  | None => skip
  end.

Definition set_uuids32_field : writer :=
  match uuids32 f with
  | Some elems =>
      if negb (num_uuids32 f =? 0) then
        let type := if uuids32_is_complete f
                    then BLE_HS_ADV_TYPE_COMP_UUIDS32
                    else BLE_HS_ADV_TYPE_INCOMP_UUIDS32 in
        ble_hs_adv_set_array32 type (u8 (num_uuids32 f)) elems max_len
      else skip
  | None => skip
  end.

Definition set_uuids128_field : writer :=
  match uuids128 f with
  | Some data =>
      if num_uuids128 f >? 0 then
        let type := if uuids128_is_complete f
                    then BLE_HS_ADV_TYPE_COMP_UUIDS128
                    else BLE_HS_ADV_TYPE_INCOMP_UUIDS128 in
        ble_hs_adv_set_flat type (num_uuids128 f * 16) data max_len
      else skip
  | None => skip
  end.

Definition set_name_field : writer :=
  match name f with
  | Some data =>
      if name_len f >? 0 then
        let type := if name_is_complete f
                    then BLE_HS_ADV_TYPE_COMP_NAME
                    else BLE_HS_ADV_TYPE_INCOMP_NAME in
        ble_hs_adv_set_flat type (name_len f) data max_len
      else skip
  | None => skip
  end.

Definition set_tx_pwr_lvl_field : writer :=
  if tx_pwr_lvl_is_present f then
    if tx_pwr_lvl f =? BLE_HS_ADV_TX_PWR_LVL_AUTO K then
      match ble_hs_hci_util_read_adv_tx_pwr K with
      | inl e => fun st => (Some e, st)
      | inr tx_pwr_lvl =>
          ble_hs_adv_set_flat BLE_HS_ADV_TYPE_TX_PWR_LVL 1 [tx_pwr_lvl]
            max_len
      end
    else
      ble_hs_adv_set_flat BLE_HS_ADV_TYPE_TX_PWR_LVL 1 [tx_pwr_lvl f]
        max_len
  else skip.

(** [if (p != NULL) { rc = ble_hs_adv_set_flat(type, len, p, ...); ... }] *)
Definition set_blob_field (type : Z) (p : ptr) (len : Z) : writer :=
  match p with
  | Some data => ble_hs_adv_set_flat type len data max_len
  | None => skip
  end.

Definition set_public_tgt_addr_field : writer :=
  match public_tgt_addr f with
  | Some data =>
      if negb (num_public_tgt_addrs f =? 0) then
        ble_hs_adv_set_flat BLE_HS_ADV_TYPE_PUBLIC_TGT_ADDR
          (BLE_HS_ADV_PUBLIC_TGT_ADDR_ENTRY_LEN K * num_public_tgt_addrs f)
          data max_len
      else skip
  | None => skip
  end.

Definition set_appearance_field : writer :=
  if appearance_is_present f then
    ble_hs_adv_set_flat BLE_HS_ADV_TYPE_APPEARANCE BLE_HS_ADV_APPEARANCE_LEN
      (bytes_of_u16 (appearance f)) max_len
  else skip.

Definition set_adv_itvl_field : writer :=
  if adv_itvl_is_present f then
    ble_hs_adv_set_array16 BLE_HS_ADV_TYPE_ADV_ITVL 1 [adv_itvl f] max_len
  else skip.

Definition set_le_role_field : writer :=
  if le_role_is_present f then
    ble_hs_adv_set_flat BLE_HS_ADV_TYPE_LE_ROLE BLE_HS_ADV_LE_ROLE_LEN
      [le_role f] max_len
  else skip.

(** The fields after the flags, each followed by
    [if (rc != 0) return rc;]. *)
Definition set_fields_after_flags : writer :=
  set_uuids16_field ;;
  set_uuids32_field ;;
  set_uuids128_field ;;
  set_name_field ;;
  set_tx_pwr_lvl_field ;;
  set_blob_field BLE_HS_ADV_TYPE_DEVICE_CLASS (device_class f)
    (BLE_HS_ADV_DEVICE_CLASS_LEN K) ;;
  set_blob_field BLE_HS_ADV_TYPE_SLAVE_ITVL_RANGE (slave_itvl_range f)
    (BLE_HS_ADV_SLAVE_ITVL_RANGE_LEN K) ;;
  set_blob_field BLE_HS_ADV_TYPE_SVC_DATA_UUID16 (svc_data_uuid16 f)
    (svc_data_uuid16_len f) ;;
  set_public_tgt_addr_field ;;
  set_appearance_field ;;
  set_adv_itvl_field ;;
  set_blob_field BLE_HS_ADV_TYPE_LE_ADDR (le_addr f)
    (BLE_HS_ADV_LE_ADDR_LEN K) ;;
  set_le_role_field ;;
  set_blob_field BLE_HS_ADV_TYPE_SVC_DATA_UUID32 (svc_data_uuid32 f)
    (svc_data_uuid32_len f) ;;
  set_blob_field BLE_HS_ADV_TYPE_SVC_DATA_UUID128 (svc_data_uuid128 f)
    (svc_data_uuid128_len f) ;;
  set_blob_field BLE_HS_ADV_TYPE_URI (uri f) (uri_len f) ;;
  set_blob_field BLE_HS_ADV_TYPE_MFG_DATA (mfg_data f) (mfg_data_len f).

Definition ble_hs_adv_set_fields : writer :=
  fun st =>
    if negb (NIMBLE_OPT_ADVERTISE K) then (Some BLE_HS_ENOTSUP, st)
    else
      let st := set_dst_len 0 st in
      (set_flags_field ;; set_fields_after_flags) st.

End SetFields.

End Builder.

(** ** The state of the parser

    [adv_fields] is the structure written through the [adv_fields] pointer,
    [total_len] the cell written through [total_len] (the local [field_len]
    of [ble_hs_adv_parse_fields]), [ble_hs_adv_uuids16] and
    [ble_hs_adv_uuids32] the two file-scope arrays, and [src_reads] the
    indices, relative to the source pointer given to
    [ble_hs_adv_parse_fields], of every byte read so far (latest first). *)

Record parse_st : Type := {
  adv_fields : ble_hs_adv_fields;
  total_len : Z;
  ble_hs_adv_uuids16 : list Z;
  ble_hs_adv_uuids32 : list Z;
  src_reads : list Z
}.

Definition upd_fields (g : ble_hs_adv_fields -> ble_hs_adv_fields)
    (st : parse_st) : parse_st :=
  {| adv_fields := g (adv_fields st);
     total_len := total_len st;
     ble_hs_adv_uuids16 := ble_hs_adv_uuids16 st;
     ble_hs_adv_uuids32 := ble_hs_adv_uuids32 st;
     src_reads := src_reads st |}.

(** [*total_len = n]: the cell is a [uint8_t]. *)
Definition set_total_len (n : Z) (st : parse_st) : parse_st :=
  {| adv_fields := adv_fields st;
     total_len := u8 n;
     ble_hs_adv_uuids16 := ble_hs_adv_uuids16 st;
     ble_hs_adv_uuids32 := ble_hs_adv_uuids32 st;
     src_reads := src_reads st |}.

Definition log_read (i : Z) (st : parse_st) : parse_st :=
  {| adv_fields := adv_fields st;
     total_len := total_len st;
     ble_hs_adv_uuids16 := ble_hs_adv_uuids16 st;
     ble_hs_adv_uuids32 := ble_hs_adv_uuids32 st;
     src_reads := i :: src_reads st |}.

(** [a[i] = v] on a list; an index outside the list stores nothing. *)
Fixpoint list_set (l : list Z) (i : nat) (v : Z) : list Z :=
  match l, i with
  | [], _ => []
  | _ :: l', O => v :: l'
  | x :: l', S i' => x :: list_set l' i' v
  end.

(** [adv_fields->uuids16[i] = v]: the member points at the file-scope
    array, so the store changes the array and what the member shows. *)
Definition store_uuids16 (i : nat) (v : Z) (st : parse_st) : parse_st :=
  let a := list_set (ble_hs_adv_uuids16 st) i v in
  {| adv_fields := set_uuids16 (Some a) (adv_fields st);
     total_len := total_len st;
     ble_hs_adv_uuids16 := a;
     ble_hs_adv_uuids32 := ble_hs_adv_uuids32 st;
     src_reads := src_reads st |}.

Definition store_uuids32 (i : nat) (v : Z) (st : parse_st) : parse_st :=
  let a := list_set (ble_hs_adv_uuids32 st) i v in
  {| adv_fields := set_uuids32 (Some a) (adv_fields st);
     total_len := total_len st;
     ble_hs_adv_uuids16 := ble_hs_adv_uuids16 st;
     ble_hs_adv_uuids32 := a;
     src_reads := src_reads st |}.

Section Parser.

Variable K : hs_config.

(** The memory visible from the source pointer given to
    [ble_hs_adv_parse_fields]; a position in it is an offset. *)
Variable mem : list Z.

(** Reading the byte at offset [i]. *)
Definition rd (i : Z) (st : parse_st) : Z * parse_st :=
  (nth (Z.to_nat i) mem 0, log_read i st).

(** A pointer into the source, as a member of the structure keeps it. *)
Definition view (i : Z) : ptr := Some (skipn (Z.to_nat i) mem).

(** Modelled from the spec: [le16toh] and [le32toh] (defined outside the
    sources) decode little-endian elements. *)
Definition le16toh (i : Z) (st : parse_st) : Z * parse_st :=
  let '(b0, st) := rd i st in
  let '(b1, st) := rd (i + 1) st in
  (Z.lor b0 (Z.shiftl b1 8), st).

Definition le32toh (i : Z) (st : parse_st) : Z * parse_st :=
  let '(b0, st) := rd i st in
  let '(b1, st) := rd (i + 1) st in
  let '(b2, st) := rd (i + 2) st in
  let '(b3, st) := rd (i + 3) st in
  (Z.lor (Z.lor b0 (Z.shiftl b1 8))
     (Z.lor (Z.shiftl b2 16) (Z.shiftl b3 24)), st).

Fixpoint parse_elems16 (data : Z) (i n : nat) (st : parse_st) : parse_st :=
  match n with
  | O => st
  | S n' =>
      let '(v, st) := le16toh (data + Z.of_nat i * 2) st in
      parse_elems16 data (S i) n' (store_uuids16 i v st)
  end.

Fixpoint parse_elems32 (data : Z) (i n : nat) (st : parse_st) : parse_st :=
  match n with
  | O => st
  | S n' =>
      let '(v, st) := le32toh (data + Z.of_nat i * 4) st in
      parse_elems32 data (S i) n' (store_uuids32 i v st)
  end.

Definition ble_hs_adv_parse_uuids16 (data data_len : Z) (st : parse_st)
    : rc * parse_st :=
  if negb (data_len mod 2 =? 0) then (Some BLE_HS_EBADDATA, st)
  else
    let st :=
      upd_fields (set_uuids16 (Some (ble_hs_adv_uuids16 st))) st in
    let st := upd_fields (set_num_uuids16 (u8 (data_len / 2))) st in
    (None,
     parse_elems16 data 0 (Z.to_nat (num_uuids16 (adv_fields st))) st).

Definition ble_hs_adv_parse_uuids32 (data data_len : Z) (st : parse_st)
    : rc * parse_st :=
  if negb (data_len mod 4 =? 0) then (Some BLE_HS_EBADDATA, st)
  else
    let st :=
      upd_fields (set_uuids32 (Some (ble_hs_adv_uuids32 st))) st in
    let st := upd_fields (set_num_uuids32 (u8 (data_len / 4))) st in
    (None,
     parse_elems32 data 0 (Z.to_nat (num_uuids32 (adv_fields st))) st).

(** [rc = m; if (rc != 0) return rc; <assignment>; break;] *)
Definition and_then (r : rc * parse_st)
    (g : ble_hs_adv_fields -> ble_hs_adv_fields) : rc * parse_st :=
  match r with
  | (Some e, st) => (Some e, st)
  | (None, st) => (None, upd_fields g st)
  end.

Definition bad_data (st : parse_st) : rc * parse_st :=
  (Some BLE_HS_EBADDATA, st).

(** The [switch (type)] of [ble_hs_adv_parse_one_field]. *)
Definition parse_switch (type data data_len : Z) (st : parse_st)
    : rc * parse_st :=
  if type =? BLE_HS_ADV_TYPE_FLAGS then
    if negb (data_len =? BLE_HS_ADV_FLAGS_LEN) then bad_data st
    else
      let '(v, st) := rd data st in
      (None,
       upd_fields (set_flags_is_present true)
         (upd_fields (set_flags v) st))
  else if type =? BLE_HS_ADV_TYPE_INCOMP_UUIDS16 then
    and_then (ble_hs_adv_parse_uuids16 data data_len st)
      (set_uuids16_is_complete false)
  else if type =? BLE_HS_ADV_TYPE_COMP_UUIDS16 then
    and_then (ble_hs_adv_parse_uuids16 data data_len st)
      (set_uuids16_is_complete true)
  else if type =? BLE_HS_ADV_TYPE_INCOMP_UUIDS32 then
    and_then (ble_hs_adv_parse_uuids32 data data_len st)
      (set_uuids16_is_complete false)
  else if type =? BLE_HS_ADV_TYPE_COMP_UUIDS32 then
    and_then (ble_hs_adv_parse_uuids32 data data_len st)
      (set_uuids16_is_complete true)
  else if type =? BLE_HS_ADV_TYPE_INCOMP_UUIDS128 then
    if negb (data_len mod 16 =? 0) then bad_data st
    else
      (None,
       upd_fields (set_uuids128_is_complete false)
         (upd_fields (set_num_uuids128 (u8 (data_len / 16)))
            (upd_fields (set_uuids128 (view data)) st)))
  else if type =? BLE_HS_ADV_TYPE_COMP_UUIDS128 then
    if negb (data_len mod 16 =? 0) then bad_data st
    else
      (None,
       upd_fields (set_uuids128_is_complete true)
         (upd_fields (set_num_uuids128 (u8 (data_len / 16)))
            (upd_fields (set_uuids128 (view data)) st)))
  else if type =? BLE_HS_ADV_TYPE_INCOMP_NAME then
    (None,
     upd_fields (set_name_is_complete false)
       (upd_fields (set_name_len data_len)
          (upd_fields (set_name (view data)) st)))
  else if type =? BLE_HS_ADV_TYPE_COMP_NAME then
    (None,
     upd_fields (set_name_is_complete true)
       (upd_fields (set_name_len data_len)
          (upd_fields (set_name (view data)) st)))
  else if type =? BLE_HS_ADV_TYPE_TX_PWR_LVL then
    if negb (data_len =? BLE_HS_ADV_TX_PWR_LVL_LEN) then bad_data st
    else
      let '(v, st) := rd data st in
      (None,
       upd_fields (set_tx_pwr_lvl_is_present true)
         (upd_fields (set_tx_pwr_lvl (s8 v)) st))
  else if type =? BLE_HS_ADV_TYPE_DEVICE_CLASS then
    if negb (data_len =? BLE_HS_ADV_DEVICE_CLASS_LEN K) then bad_data st
    else (None, upd_fields (set_device_class (view data)) st)
  else if type =? BLE_HS_ADV_TYPE_SLAVE_ITVL_RANGE then
    if negb (data_len =? BLE_HS_ADV_SLAVE_ITVL_RANGE_LEN K) then bad_data st
    else (None, upd_fields (set_slave_itvl_range (view data)) st)
  else if type =? BLE_HS_ADV_TYPE_SVC_DATA_UUID16 then
    if data_len <? BLE_HS_ADV_SVC_DATA_UUID16_MIN_LEN K then bad_data st
    else
      (None,
       upd_fields (set_svc_data_uuid16_len data_len)
         (upd_fields (set_svc_data_uuid16 (view data)) st))
  else if type =? BLE_HS_ADV_TYPE_PUBLIC_TGT_ADDR then
    if negb (data_len mod BLE_HS_ADV_PUBLIC_TGT_ADDR_ENTRY_LEN K =? 0)
    then bad_data st
    else
      (None,
       upd_fields
         (set_num_public_tgt_addrs
            (u8 (data_len / BLE_HS_ADV_PUBLIC_TGT_ADDR_ENTRY_LEN K)))
         (upd_fields (set_public_tgt_addr (view data)) st))
  else if type =? BLE_HS_ADV_TYPE_APPEARANCE then
    if negb (data_len =? BLE_HS_ADV_APPEARANCE_LEN) then bad_data st
    else
      let '(v, st) := le16toh data st in
      (None,
       upd_fields (set_appearance_is_present true)
         (upd_fields (set_appearance v) st))
  else if type =? BLE_HS_ADV_TYPE_ADV_ITVL then
    if negb (data_len =? BLE_HS_ADV_ADV_ITVL_LEN) then bad_data st
    else
      let '(v, st) := le16toh data st in
      (None,
       upd_fields (set_adv_itvl_is_present true)
         (upd_fields (set_adv_itvl v) st))
  else if type =? BLE_HS_ADV_TYPE_LE_ADDR then
    if negb (data_len =? BLE_HS_ADV_LE_ADDR_LEN K) then bad_data st
    else (None, upd_fields (set_le_addr (view data)) st)
  else if type =? BLE_HS_ADV_TYPE_LE_ROLE then
    if negb (data_len =? BLE_HS_ADV_LE_ROLE_LEN) then bad_data st
    else
      let '(v, st) := rd data st in
      (None,
       upd_fields (set_le_role_is_present true)
         (upd_fields (set_le_role v) st))
  else if type =? BLE_HS_ADV_TYPE_SVC_DATA_UUID32 then
    if data_len <? BLE_HS_ADV_SVC_DATA_UUID32_MIN_LEN K then bad_data st
    else
      (None,
       upd_fields (set_svc_data_uuid32_len data_len)
         (upd_fields (set_svc_data_uuid32 (view data)) st))
  else if type =? BLE_HS_ADV_TYPE_SVC_DATA_UUID128 then
    if data_len <? BLE_HS_ADV_SVC_DATA_UUID128_MIN_LEN K then bad_data st
    else
      (None,
       upd_fields (set_svc_data_uuid128_len data_len)
         (upd_fields (set_svc_data_uuid128 (view data)) st))
  else if type =? BLE_HS_ADV_TYPE_URI then
    (None,
     upd_fields (set_uri_len data_len)
       (upd_fields (set_uri (view data)) st))
  else if type =? BLE_HS_ADV_TYPE_MFG_DATA then
    (None,
     upd_fields (set_mfg_data_len data_len)
       (upd_fields (set_mfg_data (view data)) st))
  else (None, st).

Definition ble_hs_adv_parse_one_field (src src_len : Z) (st : parse_st)
    : rc * parse_st :=
  if src_len <? 1 then (Some BLE_HS_EMSGSIZE, st)
  else
    let '(len_byte, st) := rd src st in
    let st := set_total_len (len_byte + 1) st in
    if src_len <? total_len st then (Some BLE_HS_EMSGSIZE, st)
    else
      let '(type, st) := rd (src + 1) st in
      let data := src + 2 in
      let data_len := u8 (total_len st - 2) in
      if data_len >? BLE_HS_ADV_MAX_FIELD_SZ K then
        (Some BLE_HS_EBADDATA, st)
      else parse_switch type data data_len st.

(** The [while (src_len > 0)] loop of [ble_hs_adv_parse_fields], [src]
    being the offset the source pointer has advanced to.  [None] is
    returned when [fuel] iterations did not finish the loop. *)
Fixpoint parse_loop (fuel : nat) (src src_len : Z) (st : parse_st)
    : option (rc * parse_st) :=
  match fuel with
  | O => None
  | S fuel' =>
      if src_len >? 0 then
        match ble_hs_adv_parse_one_field src src_len st with
        | (Some e, st') => Some (Some e, st')
        | (None, st') =>
            parse_loop fuel' (src + total_len st')
              (u8 (src_len - total_len st')) st'
        end
      else Some (None, st)
  end.

Definition ble_hs_adv_parse_fields (fuel : nat) (src_len : Z)
    (st : parse_st) : option (rc * parse_st) :=
  parse_loop fuel 0 src_len (upd_fields (fun _ => fields_zero) st).

End Parser.

(** A parser state before any call: the file-scope arrays zeroed and of
    their declared sizes, nothing read yet. *)
Definition parse_st_init (K : hs_config) : parse_st :=
  {| adv_fields := fields_zero;
     total_len := 0;
     ble_hs_adv_uuids16 :=
       repeat 0 (Z.to_nat (BLE_HS_ADV_MAX_FIELD_SZ K / 2));
     ble_hs_adv_uuids32 :=
       repeat 0 (Z.to_nat (BLE_HS_ADV_MAX_FIELD_SZ K / 4));
     src_reads := [] |}.

(** A destination before any call. *)
Definition adv_dst_init : adv_dst :=
  {| dst := []; dst_len := 0; dbg_assert_ok := true |}.

(** ** Field sets and predicates used in the statements *)

(** Flags 0x06 and the complete name "Foo". *)
Definition fields_flags_foo : ble_hs_adv_fields :=
  set_name_is_complete true
    (set_name_len 3
       (set_name (Some [0x46; 0x6F; 0x6F])
          (set_flags_is_present true (set_flags 0x06 fields_zero)))).

(** Flags 0x06 and nothing else. *)
Definition fields_flags_only : ble_hs_adv_fields :=
  set_flags_is_present true (set_flags 0x06 fields_zero).

(** One 32-bit UUID, the list marked complete. *)
Definition fields_uuid32_complete : ble_hs_adv_fields :=
  set_uuids32_is_complete true
    (set_num_uuids32 1 (set_uuids32 (Some [0x12345678]) fields_zero)).

(** One 32-bit UUID, the list marked incomplete. *)
Definition fields_uuid32_incomplete : ble_hs_adv_fields :=
  set_num_uuids32 1 (set_uuids32 (Some [0x12345678]) fields_zero).

(** 128 16-bit UUIDs. *)
Definition fields_128_uuids16 : ble_hs_adv_fields :=
  set_num_uuids16 128 (set_uuids16 (Some (repeat 0x1234 128)) fields_zero).

(** A URI pointer that is not null, with [uri_len = 0]. *)
Definition fields_empty_uri : ble_hs_adv_fields :=
  set_uri (Some []) fields_zero.

(** Flags 0x06, two 16-bit UUIDs and one 32-bit UUID in incomplete
    lists, the complete name "Foo", tx power -4 dBm, appearance 0x0340 and
    two bytes of manufacturer data: 31 bytes once encoded. *)
Definition fields_mixed : ble_hs_adv_fields :=
  set_mfg_data_len 2
    (set_mfg_data (Some [0xFF; 0x01])
       (set_appearance_is_present true
          (set_appearance 0x0340
             (set_tx_pwr_lvl_is_present true
                (set_tx_pwr_lvl (-4)
                   (set_num_uuids32 1
                      (set_uuids32 (Some [0x12345678])
                         (set_num_uuids16 2
                            (set_uuids16 (Some [0x180D; 0x180F])
                               fields_flags_foo))))))))).

(** The values of [nimble] with a controller whose tx-power query fails
    with [e]. *)
Definition nimble_tx_fails (e : ble_hs_err) : hs_config := {|
  NIMBLE_OPT_ADVERTISE := NIMBLE_OPT_ADVERTISE nimble;
  BLE_HS_ADV_MAX_FIELD_SZ := BLE_HS_ADV_MAX_FIELD_SZ nimble;
  BLE_HS_ADV_TX_PWR_LVL_AUTO := BLE_HS_ADV_TX_PWR_LVL_AUTO nimble;
  BLE_HS_ADV_DEVICE_CLASS_LEN := BLE_HS_ADV_DEVICE_CLASS_LEN nimble;
  BLE_HS_ADV_SLAVE_ITVL_RANGE_LEN := BLE_HS_ADV_SLAVE_ITVL_RANGE_LEN nimble;
  BLE_HS_ADV_SVC_DATA_UUID16_MIN_LEN :=
    BLE_HS_ADV_SVC_DATA_UUID16_MIN_LEN nimble;
  BLE_HS_ADV_PUBLIC_TGT_ADDR_ENTRY_LEN :=
    BLE_HS_ADV_PUBLIC_TGT_ADDR_ENTRY_LEN nimble;
  BLE_HS_ADV_LE_ADDR_LEN := BLE_HS_ADV_LE_ADDR_LEN nimble;
  BLE_HS_ADV_SVC_DATA_UUID32_MIN_LEN :=
    BLE_HS_ADV_SVC_DATA_UUID32_MIN_LEN nimble;
  BLE_HS_ADV_SVC_DATA_UUID128_MIN_LEN :=
    BLE_HS_ADV_SVC_DATA_UUID128_MIN_LEN nimble;
  ble_hs_hci_util_read_adv_tx_pwr := inl e
|}.

(** Flags 0x06, the name "Foo" and a tx-power level left to the
    controller. *)
Definition fields_tx_auto : ble_hs_adv_fields :=
  set_tx_pwr_lvl_is_present true
    (set_tx_pwr_lvl (BLE_HS_ADV_TX_PWR_LVL_AUTO nimble) fields_flags_foo).

(** A source holding one record of the unrecognized type 0xAA with a
    30-byte payload: 32 bytes in all. *)
Definition src_unknown_long : list Z := 0x1F :: 0xAA :: repeat 0 30.

(** [keeps st st']: from [st] to [st'] the cell [*total_len] and the member
    [uuids32_is_complete] did not change and no logged read was lost. *)
Definition keeps (st st' : parse_st) : Prop :=
  total_len st' = total_len st /\
  uuids32_is_complete (adv_fields st') = uuids32_is_complete (adv_fields st) /\
  incl (src_reads st) (src_reads st').

(** [record_skipped K mem src src_len st]: the step at offset [src] returns
    0, changes neither the structure nor the UUID arrays, and the loop goes
    on right after the record, [length byte + 1] bytes further. *)
Definition record_skipped (K : hs_config) (mem : list Z) (src src_len : Z)
    (st : parse_st) : Prop :=
  let len_byte := nth (Z.to_nat src) mem 0 in
  let r := ble_hs_adv_parse_one_field K mem src src_len st in
  fst r = None /\
  adv_fields (snd r) = adv_fields st /\
  ble_hs_adv_uuids16 (snd r) = ble_hs_adv_uuids16 st /\
  ble_hs_adv_uuids32 (snd r) = ble_hs_adv_uuids32 st /\
  total_len (snd r) = len_byte + 1 /\
  forall fuel,
    parse_loop K mem (S fuel) src src_len st
    = parse_loop K mem fuel (src + (len_byte + 1))
        (src_len - (len_byte + 1)) (snd r).

(** The writers a chain runs in turn, stopping at the first failure. *)
Fixpoint chain (ws : list writer) : writer :=
  match ws with
  | [] => skip
  | [w] => w
  | w :: ws' => seq_w w (chain ws')
  end.

(** The writers of [set_fields_after_flags], in order. *)
Definition field_writers (K : hs_config) (f : ble_hs_adv_fields)
    (max_len : Z) : list writer :=
  [ set_uuids16_field f max_len;
    set_uuids32_field f max_len;
    set_uuids128_field K f max_len;
    set_name_field K f max_len;
    set_tx_pwr_lvl_field K f max_len;
    set_blob_field K max_len BLE_HS_ADV_TYPE_DEVICE_CLASS (device_class f)
      (BLE_HS_ADV_DEVICE_CLASS_LEN K);
    set_blob_field K max_len BLE_HS_ADV_TYPE_SLAVE_ITVL_RANGE
      (slave_itvl_range f) (BLE_HS_ADV_SLAVE_ITVL_RANGE_LEN K);
    set_blob_field K max_len BLE_HS_ADV_TYPE_SVC_DATA_UUID16
      (svc_data_uuid16 f) (svc_data_uuid16_len f);
    set_public_tgt_addr_field K f max_len;
    set_appearance_field K f max_len;
    set_adv_itvl_field f max_len;
    set_blob_field K max_len BLE_HS_ADV_TYPE_LE_ADDR (le_addr f)
      (BLE_HS_ADV_LE_ADDR_LEN K);
    set_le_role_field K f max_len;
    set_blob_field K max_len BLE_HS_ADV_TYPE_SVC_DATA_UUID32
      (svc_data_uuid32 f) (svc_data_uuid32_len f);
    set_blob_field K max_len BLE_HS_ADV_TYPE_SVC_DATA_UUID128
      (svc_data_uuid128 f) (svc_data_uuid128_len f);
    set_blob_field K max_len BLE_HS_ADV_TYPE_URI (uri f) (uri_len f);
    set_blob_field K max_len BLE_HS_ADV_TYPE_MFG_DATA (mfg_data f)
      (mfg_data_len f) ].

(** The state after the writers [ws] all succeeded, if they did. *)
Fixpoint run_all (ws : list writer) (st : adv_dst) : option adv_dst :=
  match ws with
  | [] => Some st
  | w :: ws' =>
      match w st with
      | (None, st') => run_all ws' st'
      | (Some _, _) => None
      end
  end.

Definition present (p : ptr) : bool :=
  match p with Some _ => true | None => false end.

(** The encoded size of a record: nothing when the field is not emitted,
    the 2-byte header and the value otherwise. *)
Definition record_size (emitted : bool) (len : Z) : Z :=
  if emitted then 2 + len else 0.

Definition flags_size (f : ble_hs_adv_fields) : Z :=
  record_size (flags_is_present f && negb (flags f =? 0)) 1.

(** The sizes of the records of [field_writers], in the same order. *)
Definition field_sizes (K : hs_config) (f : ble_hs_adv_fields) : list Z :=
  [ record_size (present (uuids16 f) && negb (num_uuids16 f =? 0))
      (num_uuids16 f * 2);
    record_size (present (uuids32 f) && negb (num_uuids32 f =? 0))
      (num_uuids32 f * 4);
    record_size (present (uuids128 f) && (num_uuids128 f >? 0))
      (num_uuids128 f * 16);
    record_size (present (name f) && (name_len f >? 0)) (name_len f);
    record_size (tx_pwr_lvl_is_present f) 1;
    record_size (present (device_class f)) (BLE_HS_ADV_DEVICE_CLASS_LEN K);
    record_size (present (slave_itvl_range f))
      (BLE_HS_ADV_SLAVE_ITVL_RANGE_LEN K);
    record_size (present (svc_data_uuid16 f)) (svc_data_uuid16_len f);
    record_size
      (present (public_tgt_addr f) && negb (num_public_tgt_addrs f =? 0))
      (BLE_HS_ADV_PUBLIC_TGT_ADDR_ENTRY_LEN K * num_public_tgt_addrs f);
    record_size (appearance_is_present f) BLE_HS_ADV_APPEARANCE_LEN;
    record_size (adv_itvl_is_present f) 2;
    record_size (present (le_addr f)) (BLE_HS_ADV_LE_ADDR_LEN K);
    record_size (le_role_is_present f) BLE_HS_ADV_LE_ROLE_LEN;
    record_size (present (svc_data_uuid32 f)) (svc_data_uuid32_len f);
    record_size (present (svc_data_uuid128 f)) (svc_data_uuid128_len f);
    record_size (present (uri f)) (uri_len f);
    record_size (present (mfg_data f)) (mfg_data_len f) ].

Definition sum_sizes (ns : list Z) : Z := fold_right Z.add 0 ns.

Definition encoded_size (K : hs_config) (f : ble_hs_adv_fields) : Z :=
  flags_size f + sum_sizes (field_sizes K f).

(** Every payload length of the field set is a byte: no conversion to
    [uint8_t] on the way to [ble_hs_adv_set_hdr] changes it. *)
Definition lengths_fit (K : hs_config) (f : ble_hs_adv_fields) : Prop :=
  Forall (fun len => 0 <= len < 256)
    [ num_uuids16 f * 2; num_uuids32 f * 4; num_uuids128 f * 16;
      name_len f;
      BLE_HS_ADV_DEVICE_CLASS_LEN K; BLE_HS_ADV_SLAVE_ITVL_RANGE_LEN K;
      svc_data_uuid16_len f;
      BLE_HS_ADV_PUBLIC_TGT_ADDR_ENTRY_LEN K * num_public_tgt_addrs f;
      BLE_HS_ADV_LE_ADDR_LEN K;
      svc_data_uuid32_len f; svc_data_uuid128_len f;
      uri_len f; mfg_data_len f ].

(** The tx-power level is explicit, or the controller reports one. *)
Definition tx_pwr_known (K : hs_config) (f : ble_hs_adv_fields) : Prop :=
  tx_pwr_lvl_is_present f = true ->
  tx_pwr_lvl f = BLE_HS_ADV_TX_PWR_LVL_AUTO K ->
  exists lvl, ble_hs_hci_util_read_adv_tx_pwr K = inr lvl.

(** [wrote lo hi st st']: from [st] to [st'] bytes were stored only at
    indices from [lo] up to, not including, [hi]. *)
Definition wrote (lo hi : Z) (st st' : adv_dst) : Prop :=
  exists new,
    dst st' = new ++ dst st /\ Forall (fun p => lo <= fst p < hi) new.

(** [record_writer max_len n w]: started with the cursor within
    [max_len], [w] either returns 0 having stored [n] bytes at the cursor,
    all below [max_len], and moved the cursor past them, or fails having
    stored nothing and left the cursor. *)
Definition record_writer (max_len n : Z) (w : writer) : Prop :=
  forall st,
    0 <= dst_len st <= max_len ->
    (fst (w st) = None /\
     dst_len (snd (w st)) = dst_len st + n /\
     dst_len st + n <= max_len /\
     wrote (dst_len st) (dst_len st + n) st (snd (w st)))
    \/
    (fst (w st) <> None /\
     dst_len (snd (w st)) = dst_len st /\
     dst (snd (w st)) = dst st).

(** [fitting_writer max_len n w]: [w] returns 0 whenever [n] more bytes
    fit. *)
Definition fitting_writer (max_len n : Z) (w : writer) : Prop :=
  forall st,
    0 <= dst_len st -> dst_len st + n <= max_len -> fst (w st) = None.

(** What is shown of each writer of [field_writers]: it is a record
    writer of its size, and it succeeds whenever its record fits, provided
    the tx-power level is known. *)
Definition field_writer_ok (K : hs_config) (f : ble_hs_adv_fields)
    (max_len n : Z) (w : writer) : Prop :=
  record_writer max_len n w /\
  (tx_pwr_known K f -> fitting_writer max_len n w).

(** ** Predicates on the outcome of the builder and of the parser *)



(** The statuses the parser can return: 0, [BLE_HS_EMSGSIZE] or
    [BLE_HS_EBADDATA]. *)
Definition parser_status (r : rc) : Prop :=
  match r with
  | None => True
  | Some e => e = BLE_HS_EMSGSIZE \/ e = BLE_HS_EBADDATA
  end.

(** [same_output st st']: the structure and the two UUID arrays are the
    same in [st'] as in [st]. *)
Definition same_output (st st' : parse_st) : Prop :=
  adv_fields st' = adv_fields st /\
  ble_hs_adv_uuids16 st' = ble_hs_adv_uuids16 st /\
  ble_hs_adv_uuids32 st' = ble_hs_adv_uuids32 st.

(** A failure of the [switch] is [BLE_HS_EBADDATA] and changes nothing. *)
Definition fails_clean (st : parse_st) (r : rc * parse_st) : Prop :=
  match r with
  | (Some e, st') => e = BLE_HS_EBADDATA /\ st' = st
  | (None, _) => True
  end.

(** [read_in lo hi st st']: from [st] to [st'] the source was read only at
    offsets from [lo] up to, not including, [hi]. *)
Definition read_in (lo hi : Z) (st st' : parse_st) : Prop :=
  exists new,
    src_reads st' = new ++ src_reads st /\
    Forall (fun i => lo <= i < hi) new.

(** The lengths the [switch] of [ble_hs_adv_parse_one_field] accepts for
    each type code; a type without a [case] accepts any length. *)
Definition length_rule (K : hs_config) (type data_len : Z) : bool :=
  if type =? BLE_HS_ADV_TYPE_FLAGS then data_len =? BLE_HS_ADV_FLAGS_LEN
  else if (type =? BLE_HS_ADV_TYPE_INCOMP_UUIDS16)
          || (type =? BLE_HS_ADV_TYPE_COMP_UUIDS16)
  then data_len mod 2 =? 0
  else if (type =? BLE_HS_ADV_TYPE_INCOMP_UUIDS32)
          || (type =? BLE_HS_ADV_TYPE_COMP_UUIDS32)
  then data_len mod 4 =? 0
  else if (type =? BLE_HS_ADV_TYPE_INCOMP_UUIDS128)
          || (type =? BLE_HS_ADV_TYPE_COMP_UUIDS128)
  then data_len mod 16 =? 0
  else if type =? BLE_HS_ADV_TYPE_TX_PWR_LVL
  then data_len =? BLE_HS_ADV_TX_PWR_LVL_LEN
  else if type =? BLE_HS_ADV_TYPE_DEVICE_CLASS
  then data_len =? BLE_HS_ADV_DEVICE_CLASS_LEN K
  else if type =? BLE_HS_ADV_TYPE_SLAVE_ITVL_RANGE
  then data_len =? BLE_HS_ADV_SLAVE_ITVL_RANGE_LEN K
  else if type =? BLE_HS_ADV_TYPE_SVC_DATA_UUID16
  then BLE_HS_ADV_SVC_DATA_UUID16_MIN_LEN K <=? data_len
  else if type =? BLE_HS_ADV_TYPE_PUBLIC_TGT_ADDR
  then data_len mod BLE_HS_ADV_PUBLIC_TGT_ADDR_ENTRY_LEN K =? 0
  else if (type =? BLE_HS_ADV_TYPE_APPEARANCE)
          || (type =? BLE_HS_ADV_TYPE_ADV_ITVL)
  then data_len =? 2
  else if type =? BLE_HS_ADV_TYPE_LE_ADDR
  then data_len =? BLE_HS_ADV_LE_ADDR_LEN K
  else if type =? BLE_HS_ADV_TYPE_LE_ROLE
  then data_len =? BLE_HS_ADV_LE_ROLE_LEN
  else if type =? BLE_HS_ADV_TYPE_SVC_DATA_UUID32
  then BLE_HS_ADV_SVC_DATA_UUID32_MIN_LEN K <=? data_len
  else if type =? BLE_HS_ADV_TYPE_SVC_DATA_UUID128
  then BLE_HS_ADV_SVC_DATA_UUID128_MIN_LEN K <=? data_len
  else true.

(** ** The bytes of a field set

    A description of the packed format against which the builder and the
    parser are compared: the records of the present fields, in the order
    the builder visits them. *)

(** [len] bytes read at a pointer, as [memcpy] stores them. *)
Definition payload_bytes (data : list Z) (len : Z) : list Z :=
  map (fun i => u8 (nth i data 0)) (seq 0 (Z.to_nat len)).

Definition le16_bytes (x : Z) : list Z := [u8 x; u8 (Z.shiftr x 8)].

Definition le32_bytes (x : Z) : list Z :=
  [u8 x; u8 (Z.shiftr x 8); u8 (Z.shiftr x 16); u8 (Z.shiftr x 24)].

Definition flat_record (type len : Z) (data : list Z) : list Z :=
  (len + 1) :: u8 type :: payload_bytes data len.

Definition array16_record (type num : Z) (elems : list Z) : list Z :=
  (num * 2 + 1) :: u8 type
  :: flat_map (fun i => le16_bytes (nth i elems 0)) (seq 0 (Z.to_nat num)).

Definition array32_record (type num : Z) (elems : list Z) : list Z :=
  (num * 4 + 1) :: u8 type
  :: flat_map (fun i => le32_bytes (nth i elems 0)) (seq 0 (Z.to_nat num)).

Definition emitted (b : bool) (r : list Z) : list Z := if b then r else [].

Definition with_ptr (p : ptr) (r : list Z -> list Z) : list Z :=
  match p with Some d => r d | None => [] end.

(** The level the tx-power record carries. *)
Definition tx_pwr_value (K : hs_config) (f : ble_hs_adv_fields) : Z :=
  if tx_pwr_lvl f =? BLE_HS_ADV_TX_PWR_LVL_AUTO K then
    match ble_hs_hci_util_read_adv_tx_pwr K with
    | inr lvl => lvl
    | inl _ => 0
    end
  else tx_pwr_lvl f.

Definition flags_record (f : ble_hs_adv_fields) : list Z :=
  emitted (flags_is_present f && negb (flags f =? 0))
    (flat_record BLE_HS_ADV_TYPE_FLAGS 1 [flags f]).

(** The records of [field_writers], in the same order. *)
Definition field_records (K : hs_config) (f : ble_hs_adv_fields)
    : list (list Z) :=
  [ with_ptr (uuids16 f) (fun d =>
      emitted (negb (num_uuids16 f =? 0))
        (array16_record
           (if uuids16_is_complete f then BLE_HS_ADV_TYPE_COMP_UUIDS16
            else BLE_HS_ADV_TYPE_INCOMP_UUIDS16) (num_uuids16 f) d));
    with_ptr (uuids32 f) (fun d =>
      emitted (negb (num_uuids32 f =? 0))
        (array32_record
           (if uuids32_is_complete f then BLE_HS_ADV_TYPE_COMP_UUIDS32
            else BLE_HS_ADV_TYPE_INCOMP_UUIDS32) (num_uuids32 f) d));
    with_ptr (uuids128 f) (fun d =>
      emitted (num_uuids128 f >? 0)
        (flat_record
           (if uuids128_is_complete f then BLE_HS_ADV_TYPE_COMP_UUIDS128
            else BLE_HS_ADV_TYPE_INCOMP_UUIDS128) (num_uuids128 f * 16) d));
    with_ptr (name f) (fun d =>
      emitted (name_len f >? 0)
        (flat_record
           (if name_is_complete f then BLE_HS_ADV_TYPE_COMP_NAME
            else BLE_HS_ADV_TYPE_INCOMP_NAME) (name_len f) d));
    emitted (tx_pwr_lvl_is_present f)
      (flat_record BLE_HS_ADV_TYPE_TX_PWR_LVL 1 [tx_pwr_value K f]);
    with_ptr (device_class f)
      (flat_record BLE_HS_ADV_TYPE_DEVICE_CLASS
         (BLE_HS_ADV_DEVICE_CLASS_LEN K));
    with_ptr (slave_itvl_range f)
      (flat_record BLE_HS_ADV_TYPE_SLAVE_ITVL_RANGE
         (BLE_HS_ADV_SLAVE_ITVL_RANGE_LEN K));
    with_ptr (svc_data_uuid16 f)
      (flat_record BLE_HS_ADV_TYPE_SVC_DATA_UUID16 (svc_data_uuid16_len f));
    with_ptr (public_tgt_addr f) (fun d =>
      emitted (negb (num_public_tgt_addrs f =? 0))
        (flat_record BLE_HS_ADV_TYPE_PUBLIC_TGT_ADDR
           (BLE_HS_ADV_PUBLIC_TGT_ADDR_ENTRY_LEN K * num_public_tgt_addrs f)
           d));
    emitted (appearance_is_present f)
      (flat_record BLE_HS_ADV_TYPE_APPEARANCE BLE_HS_ADV_APPEARANCE_LEN
         (bytes_of_u16 (appearance f)));
    emitted (adv_itvl_is_present f)
      (array16_record BLE_HS_ADV_TYPE_ADV_ITVL 1 [adv_itvl f]);
    with_ptr (le_addr f)
      (flat_record BLE_HS_ADV_TYPE_LE_ADDR (BLE_HS_ADV_LE_ADDR_LEN K));
    emitted (le_role_is_present f)
      (flat_record BLE_HS_ADV_TYPE_LE_ROLE BLE_HS_ADV_LE_ROLE_LEN
         [le_role f]);
    with_ptr (svc_data_uuid32 f)
      (flat_record BLE_HS_ADV_TYPE_SVC_DATA_UUID32 (svc_data_uuid32_len f));
    with_ptr (svc_data_uuid128 f)
      (flat_record BLE_HS_ADV_TYPE_SVC_DATA_UUID128
         (svc_data_uuid128_len f));
    with_ptr (uri f) (flat_record BLE_HS_ADV_TYPE_URI (uri_len f));
    with_ptr (mfg_data f)
      (flat_record BLE_HS_ADV_TYPE_MFG_DATA (mfg_data_len f)) ].

Definition encode (K : hs_config) (f : ble_hs_adv_fields) : list Z :=
  flags_record f ++ concat (field_records K f).

(** The stores that put the bytes [bs] at consecutive indices from
    [off], on top of the stores [l]. *)
Fixpoint append_log (off : Z) (bs : list Z) (l : list (Z * Z))
    : list (Z * Z) :=
  match bs with
  | [] => l
  | b :: bs' => append_log (off + 1) bs' ((off, b) :: l)
  end.

(** [emits max_len bs w]: whenever the bytes [bs] fit, [w] returns 0 having
    stored exactly [bs] at the cursor and moved the cursor past them. *)
Definition emits (max_len : Z) (bs : list Z) (w : writer) : Prop :=
  forall st,
    0 <= dst_len st ->
    dst_len st + Z.of_nat (length bs) <= max_len ->
    fst (w st) = None /\
    dst_len (snd (w st)) = dst_len st + Z.of_nat (length bs) /\
    dst (snd (w st)) = append_log (dst_len st) bs (dst st).


(** [overflows max_len bs w]: whenever the bytes [bs] do not fit after the
    cursor, [w] returns [BLE_HS_EMSGSIZE] having stored nothing and left
    the cursor. *)
Definition overflows (max_len : Z) (bs : list Z) (w : writer) : Prop :=
  forall st,
    0 <= dst_len st <= max_len ->
    max_len < dst_len st + Z.of_nat (length bs) ->
    fst (w st) = Some BLE_HS_EMSGSIZE /\
    dst_len (snd (w st)) = dst_len st /\
    dst (snd (w st)) = dst st.

(** [keeps_assert w]: no [BLE_HS_DBG_ASSERT] fails while [w] runs. *)
Definition keeps_assert (w : writer) : Prop :=
  forall st, dbg_assert_ok (snd (w st)) = dbg_assert_ok st.

(** The fields written without a test of their length ([device_class] to
    [mfg_data], gated on the pointer alone, and the target addresses, gated
    on the count) have a positive length when they are written. *)
Definition blobs_nonempty (K : hs_config) (f : ble_hs_adv_fields) : Prop :=
  Forall (fun bl => fst bl = true -> 0 < snd bl)
    [ (present (device_class f), BLE_HS_ADV_DEVICE_CLASS_LEN K);
      (present (slave_itvl_range f), BLE_HS_ADV_SLAVE_ITVL_RANGE_LEN K);
      (present (svc_data_uuid16 f), svc_data_uuid16_len f);
      (present (public_tgt_addr f) && negb (num_public_tgt_addrs f =? 0),
       BLE_HS_ADV_PUBLIC_TGT_ADDR_ENTRY_LEN K * num_public_tgt_addrs f);
      (present (le_addr f), BLE_HS_ADV_LE_ADDR_LEN K);
      (present (svc_data_uuid32 f), svc_data_uuid32_len f);
      (present (svc_data_uuid128 f), svc_data_uuid128_len f);
      (present (uri f), uri_len f);
      (present (mfg_data f), mfg_data_len f) ].
(** ** What a parse leaves, and the effect of one record on it *)

(** The structure and the two UUID arrays: what the caller of the parser
    can observe afterwards. *)
Record parse_out : Type := {
  out_fields : ble_hs_adv_fields;
  out_uuids16 : list Z;
  out_uuids32 : list Z
}.

Definition output (st : parse_st) : parse_out :=
  {| out_fields := adv_fields st;
     out_uuids16 := ble_hs_adv_uuids16 st;
     out_uuids32 := ble_hs_adv_uuids32 st |}.

Definition on_fields (g : ble_hs_adv_fields -> ble_hs_adv_fields)
    (o : parse_out) : parse_out :=
  {| out_fields := g (out_fields o);
     out_uuids16 := out_uuids16 o;
     out_uuids32 := out_uuids32 o |}.

(** The little-endian value of two and of four bytes. *)
Definition le16_of (b0 b1 : Z) : Z := Z.lor b0 (Z.shiftl b1 8).

Definition le32_of (b0 b1 b2 b3 : Z) : Z :=
  Z.lor (Z.lor b0 (Z.shiftl b1 8)) (Z.lor (Z.shiftl b2 16) (Z.shiftl b3 24)).

(** The array [a] after elements [i], [i+1], ... ([n] of them) were
    decoded from the payload into it. *)
Fixpoint decode16 (payload : list Z) (i n : nat) (a : list Z) : list Z :=
  match n with
  | O => a
  | S n' =>
      decode16 payload (S i) n'
        (list_set a i
           (le16_of (nth (2 * i) payload 0) (nth (2 * i + 1) payload 0)))
  end.

Fixpoint decode32 (payload : list Z) (i n : nat) (a : list Z) : list Z :=
  match n with
  | O => a
  | S n' =>
      decode32 payload (S i) n'
        (list_set a i
           (le32_of (nth (4 * i) payload 0) (nth (4 * i + 1) payload 0)
              (nth (4 * i + 2) payload 0) (nth (4 * i + 3) payload 0)))
  end.

(** The effect of a record on the output, given the bytes [post] that
    follow the record in the source. *)
Definition effect : Type := list Z -> parse_out -> parse_out.

Definition eff_if (b : bool) (e : effect) : effect :=
  fun post o => if b then e post o else o.

Definition payload_len (payload : list Z) : Z := Z.of_nat (length payload).

Definition eff_flags (payload : list Z) : effect :=
  fun _ =>
    on_fields
      (fun f => set_flags_is_present true (set_flags (nth 0 payload 0) f)).

Definition eff_uuids16 (c : bool) (payload : list Z) : effect :=
  fun _ o =>
    let a := decode16 payload 0 (Z.to_nat (payload_len payload / 2))
               (out_uuids16 o) in
    {| out_fields :=
         set_uuids16_is_complete c
           (set_num_uuids16 (payload_len payload / 2)
              (set_uuids16 (Some a) (out_fields o)));
       out_uuids16 := a;
       out_uuids32 := out_uuids32 o |}.

(** The UUID32 cases assign [uuids16_is_complete]. *)
Definition eff_uuids32 (c : bool) (payload : list Z) : effect :=
  fun _ o =>
    let a := decode32 payload 0 (Z.to_nat (payload_len payload / 4))
               (out_uuids32 o) in
    {| out_fields :=
         set_uuids16_is_complete c
           (set_num_uuids32 (payload_len payload / 4)
              (set_uuids32 (Some a) (out_fields o)));
       out_uuids16 := out_uuids16 o;
       out_uuids32 := a |}.

Definition eff_uuids128 (c : bool) (payload : list Z) : effect :=
  fun post =>
    on_fields
      (fun f =>
         set_uuids128_is_complete c
           (set_num_uuids128 (payload_len payload / 16)
              (set_uuids128 (Some (payload ++ post)) f))).

Definition eff_name (c : bool) (payload : list Z) : effect :=
  fun post =>
    on_fields
      (fun f =>
         set_name_is_complete c
           (set_name_len (payload_len payload)
              (set_name (Some (payload ++ post)) f))).

Definition eff_tx_pwr_lvl (payload : list Z) : effect :=
  fun _ =>
    on_fields
      (fun f =>
         set_tx_pwr_lvl_is_present true
           (set_tx_pwr_lvl (s8 (nth 0 payload 0)) f)).

Definition eff_device_class (payload : list Z) : effect :=
  fun post => on_fields (set_device_class (Some (payload ++ post))).

Definition eff_slave_itvl_range (payload : list Z) : effect :=
  fun post => on_fields (set_slave_itvl_range (Some (payload ++ post))).

Definition eff_svc_data_uuid16 (payload : list Z) : effect :=
  fun post =>
    on_fields
      (fun f =>
         set_svc_data_uuid16_len (payload_len payload)
           (set_svc_data_uuid16 (Some (payload ++ post)) f)).

Definition eff_public_tgt_addr (K : hs_config) (payload : list Z)
    : effect :=
  fun post =>
    on_fields
      (fun f =>
         set_num_public_tgt_addrs
           (payload_len payload / BLE_HS_ADV_PUBLIC_TGT_ADDR_ENTRY_LEN K)
           (set_public_tgt_addr (Some (payload ++ post)) f)).

Definition eff_appearance (payload : list Z) : effect :=
  fun _ =>
    on_fields
      (fun f =>
         set_appearance_is_present true
           (set_appearance
              (le16_of (nth 0 payload 0) (nth 1 payload 0)) f)).

Definition eff_adv_itvl (payload : list Z) : effect :=
  fun _ =>
    on_fields
      (fun f =>
         set_adv_itvl_is_present true
           (set_adv_itvl (le16_of (nth 0 payload 0) (nth 1 payload 0)) f)).

Definition eff_le_addr (payload : list Z) : effect :=
  fun post => on_fields (set_le_addr (Some (payload ++ post))).

Definition eff_le_role (payload : list Z) : effect :=
  fun _ =>
    on_fields
      (fun f => set_le_role_is_present true (set_le_role (nth 0 payload 0) f)).

Definition eff_svc_data_uuid32 (payload : list Z) : effect :=
  fun post =>
    on_fields
      (fun f =>
         set_svc_data_uuid32_len (payload_len payload)
           (set_svc_data_uuid32 (Some (payload ++ post)) f)).

Definition eff_svc_data_uuid128 (payload : list Z) : effect :=
  fun post =>
    on_fields
      (fun f =>
         set_svc_data_uuid128_len (payload_len payload)
           (set_svc_data_uuid128 (Some (payload ++ post)) f)).

Definition eff_uri (payload : list Z) : effect :=
  fun post =>
    on_fields
      (fun f =>
         set_uri_len (payload_len payload)
           (set_uri (Some (payload ++ post)) f)).

Definition eff_mfg_data (payload : list Z) : effect :=
  fun post =>
    on_fields
      (fun f =>
         set_mfg_data_len (payload_len payload)
           (set_mfg_data (Some (payload ++ post)) f)).

(** [decodes K bs e]: wherever the record [bs] lies in a source, with at
    least its length remaining, the step of the parser at the record
    returns 0, sets [*total_len] to the length of the record and changes
    the output as [e] says. *)
Definition decodes (K : hs_config) (bs : list Z) (e : effect) : Prop :=
  (2 <= length bs)%nat /\
  forall (pre post : list Z) (rem : Z) (st : parse_st),
    Z.of_nat (length bs) <= rem < 256 ->
    exists st',
      ble_hs_adv_parse_one_field K (pre ++ bs ++ post)
        (Z.of_nat (length pre)) rem st = (None, st') /\
      total_len st' = Z.of_nat (length bs) /\
      output st' = e post (output st).

(** A record that may be absent: no bytes and no effect then. *)
Definition decodes_opt (K : hs_config) (it : list Z * effect) : Prop :=
  (fst it = [] /\ forall post o, snd it post o = o) \/
  decodes K (fst it) (snd it).

(** The output after the effects of the records of [items], in order. *)
Fixpoint run_effects (items : list (list Z * effect)) (o : parse_out)
    : parse_out :=
  match items with
  | [] => o
  | (bs, e) :: tl => run_effects tl (e (concat (map fst tl)) o)
  end.

(** The same when the bytes [post] follow the records in the source. *)
Fixpoint run_effects_in (post : list Z) (items : list (list Z * effect))
    (o : parse_out) : parse_out :=
  match items with
  | [] => o
  | (bs, e) :: tl =>
      run_effects_in post tl (e (concat (map fst tl) ++ post) o)
  end.

Definition ptr_data (p : ptr) : list Z :=
  match p with Some d => d | None => [] end.

(** The effects of the records of [flags_record f :: field_records K f],
    in the same order. *)
Definition field_effects (K : hs_config) (f : ble_hs_adv_fields)
    : list effect :=
  [ eff_if (flags_is_present f && negb (flags f =? 0))
      (eff_flags (payload_bytes [flags f] 1));
    eff_if (present (uuids16 f) && negb (num_uuids16 f =? 0))
      (eff_uuids16 (uuids16_is_complete f)
         (flat_map (fun i => le16_bytes (nth i (ptr_data (uuids16 f)) 0))
            (seq 0 (Z.to_nat (num_uuids16 f)))));
    eff_if (present (uuids32 f) && negb (num_uuids32 f =? 0))
      (eff_uuids32 (uuids32_is_complete f)
         (flat_map (fun i => le32_bytes (nth i (ptr_data (uuids32 f)) 0))
            (seq 0 (Z.to_nat (num_uuids32 f)))));
    eff_if (present (uuids128 f) && (num_uuids128 f >? 0))
      (eff_uuids128 (uuids128_is_complete f)
         (payload_bytes (ptr_data (uuids128 f)) (num_uuids128 f * 16)));
    eff_if (present (name f) && (name_len f >? 0))
      (eff_name (name_is_complete f)
         (payload_bytes (ptr_data (name f)) (name_len f)));
    eff_if (tx_pwr_lvl_is_present f)
      (eff_tx_pwr_lvl (payload_bytes [tx_pwr_value K f] 1));
    eff_if (present (device_class f))
      (eff_device_class
         (payload_bytes (ptr_data (device_class f))
            (BLE_HS_ADV_DEVICE_CLASS_LEN K)));
    eff_if (present (slave_itvl_range f))
      (eff_slave_itvl_range
         (payload_bytes (ptr_data (slave_itvl_range f))
            (BLE_HS_ADV_SLAVE_ITVL_RANGE_LEN K)));
    eff_if (present (svc_data_uuid16 f))
      (eff_svc_data_uuid16
         (payload_bytes (ptr_data (svc_data_uuid16 f))
            (svc_data_uuid16_len f)));
    eff_if (present (public_tgt_addr f) && negb (num_public_tgt_addrs f =? 0))
      (eff_public_tgt_addr K
         (payload_bytes (ptr_data (public_tgt_addr f))
            (BLE_HS_ADV_PUBLIC_TGT_ADDR_ENTRY_LEN K
             * num_public_tgt_addrs f)));
    eff_if (appearance_is_present f)
      (eff_appearance
         (payload_bytes (bytes_of_u16 (appearance f))
            BLE_HS_ADV_APPEARANCE_LEN));
    eff_if (adv_itvl_is_present f) (eff_adv_itvl (le16_bytes (adv_itvl f)));
    eff_if (present (le_addr f))
      (eff_le_addr
         (payload_bytes (ptr_data (le_addr f)) (BLE_HS_ADV_LE_ADDR_LEN K)));
    eff_if (le_role_is_present f)
      (eff_le_role (payload_bytes [le_role f] BLE_HS_ADV_LE_ROLE_LEN));
    eff_if (present (svc_data_uuid32 f))
      (eff_svc_data_uuid32
         (payload_bytes (ptr_data (svc_data_uuid32 f))
            (svc_data_uuid32_len f)));
    eff_if (present (svc_data_uuid128 f))
      (eff_svc_data_uuid128
         (payload_bytes (ptr_data (svc_data_uuid128 f))
            (svc_data_uuid128_len f)));
    eff_if (present (uri f))
      (eff_uri (payload_bytes (ptr_data (uri f)) (uri_len f)));
    eff_if (present (mfg_data f))
      (eff_mfg_data (payload_bytes (ptr_data (mfg_data f)) (mfg_data_len f)))
  ].

Definition parse_items (K : hs_config) (f : ble_hs_adv_fields)
    : list (list Z * effect) :=
  combine (flags_record f :: field_records K f) (field_effects K f).

(** ** Field sets that survive the round trip *)

(** The first [len] cells at [d] exist and hold values below [bound]. *)
Definition cells_ok (bound len : Z) (d : list Z) : Prop :=
  (Z.to_nat len <= length d)%nat /\
  Forall (fun x => 0 <= x < bound) (firstn (Z.to_nat len) d).

(** Two pointers are both null, or show the same first [len] cells. *)
Definition blob_eq (len : Z) (p q : ptr) : Prop :=
  match p, q with
  | None, None => True
  | Some d, Some d' => firstn (Z.to_nat len) d' = firstn (Z.to_nat len) d
  | _, _ => False
  end.

(** [representable K f]: every present field of [f] is nonempty, holds
    values of its width and has a length the parser accepts; every absent
    field is all zero, as [memset] leaves it; the flags are not the
    placeholder 0 and the tx-power level is not the auto sentinel.  The
    last two conditions are those under which the parser, which never
    assigns [uuids32_is_complete] and assigns [uuids16_is_complete] in the
    UUID32 cases, still gives the flags of [f] back. *)
Record representable (K : hs_config) (f : ble_hs_adv_fields) : Prop := {
  rep_max : 2 <= BLE_HS_ADV_MAX_FIELD_SZ K;
  rep_flags :
    if flags_is_present f then 0 < flags f < 256 else flags f = 0;
  rep_uuids16 :
    match uuids16 f with
    | Some d =>
        0 < num_uuids16 f /\
        num_uuids16 f * 2 <= BLE_HS_ADV_MAX_FIELD_SZ K /\
        cells_ok 65536 (num_uuids16 f) d
    | None => num_uuids16 f = 0 /\ uuids16_is_complete f = false
    end;
  rep_uuids32 :
    match uuids32 f with
    | Some d =>
        0 < num_uuids32 f /\
        num_uuids32 f * 4 <= BLE_HS_ADV_MAX_FIELD_SZ K /\
        cells_ok 4294967296 (num_uuids32 f) d
    | None => num_uuids32 f = 0
    end;
  rep_uuids128 :
    match uuids128 f with
    | Some d =>
        0 < num_uuids128 f /\
        num_uuids128 f * 16 <= BLE_HS_ADV_MAX_FIELD_SZ K /\
        cells_ok 256 (num_uuids128 f * 16) d
    | None => num_uuids128 f = 0 /\ uuids128_is_complete f = false
    end;
  rep_name :
    match name f with
    | Some d =>
        0 < name_len f <= BLE_HS_ADV_MAX_FIELD_SZ K /\
        cells_ok 256 (name_len f) d
    | None => name_len f = 0 /\ name_is_complete f = false
    end;
  rep_tx_pwr_lvl :
    if tx_pwr_lvl_is_present f
    then -128 <= tx_pwr_lvl f < 128 /\
         tx_pwr_lvl f <> BLE_HS_ADV_TX_PWR_LVL_AUTO K
    else tx_pwr_lvl f = 0;
  rep_device_class :
    match device_class f with
    | Some d =>
        0 < BLE_HS_ADV_DEVICE_CLASS_LEN K <= BLE_HS_ADV_MAX_FIELD_SZ K /\
        cells_ok 256 (BLE_HS_ADV_DEVICE_CLASS_LEN K) d
    | None => True
    end;
  rep_slave_itvl_range :
    match slave_itvl_range f with
    | Some d =>
        0 < BLE_HS_ADV_SLAVE_ITVL_RANGE_LEN K <= BLE_HS_ADV_MAX_FIELD_SZ K /\
        cells_ok 256 (BLE_HS_ADV_SLAVE_ITVL_RANGE_LEN K) d
    | None => True
    end;
  rep_svc_data_uuid16 :
    match svc_data_uuid16 f with
    | Some d =>
        0 < svc_data_uuid16_len f <= BLE_HS_ADV_MAX_FIELD_SZ K /\
        BLE_HS_ADV_SVC_DATA_UUID16_MIN_LEN K <= svc_data_uuid16_len f /\
        cells_ok 256 (svc_data_uuid16_len f) d
    | None => svc_data_uuid16_len f = 0
    end;
  rep_public_tgt_addr :
    match public_tgt_addr f with
    | Some d =>
        0 < num_public_tgt_addrs f /\
        0 < BLE_HS_ADV_PUBLIC_TGT_ADDR_ENTRY_LEN K /\
        BLE_HS_ADV_PUBLIC_TGT_ADDR_ENTRY_LEN K * num_public_tgt_addrs f
        <= BLE_HS_ADV_MAX_FIELD_SZ K /\
        cells_ok 256
          (BLE_HS_ADV_PUBLIC_TGT_ADDR_ENTRY_LEN K * num_public_tgt_addrs f)
          d
    | None => num_public_tgt_addrs f = 0
    end;
  rep_appearance :
    if appearance_is_present f then 0 <= appearance f < 65536
    else appearance f = 0;
  rep_adv_itvl :
    if adv_itvl_is_present f then 0 <= adv_itvl f < 65536
    else adv_itvl f = 0;
  rep_le_addr :
    match le_addr f with
    | Some d =>
        0 < BLE_HS_ADV_LE_ADDR_LEN K <= BLE_HS_ADV_MAX_FIELD_SZ K /\
        cells_ok 256 (BLE_HS_ADV_LE_ADDR_LEN K) d
    | None => True
    end;
  rep_le_role :
    if le_role_is_present f then 0 <= le_role f < 256 else le_role f = 0;
  rep_svc_data_uuid32 :
    match svc_data_uuid32 f with
    | Some d =>
        0 < svc_data_uuid32_len f <= BLE_HS_ADV_MAX_FIELD_SZ K /\
        BLE_HS_ADV_SVC_DATA_UUID32_MIN_LEN K <= svc_data_uuid32_len f /\
        cells_ok 256 (svc_data_uuid32_len f) d
    | None => svc_data_uuid32_len f = 0
    end;
  rep_svc_data_uuid128 :
    match svc_data_uuid128 f with
    | Some d =>
        0 < svc_data_uuid128_len f <= BLE_HS_ADV_MAX_FIELD_SZ K /\
        BLE_HS_ADV_SVC_DATA_UUID128_MIN_LEN K <= svc_data_uuid128_len f /\
        cells_ok 256 (svc_data_uuid128_len f) d
    | None => svc_data_uuid128_len f = 0
    end;
  rep_uri :
    match uri f with
    | Some d =>
        0 < uri_len f <= BLE_HS_ADV_MAX_FIELD_SZ K /\
        cells_ok 256 (uri_len f) d
    | None => uri_len f = 0
    end;
  rep_mfg_data :
    match mfg_data f with
    | Some d =>
        0 < mfg_data_len f <= BLE_HS_ADV_MAX_FIELD_SZ K /\
        cells_ok 256 (mfg_data_len f) d
    | None => mfg_data_len f = 0
    end;
  rep_uuids32_is_complete : uuids32_is_complete f = false;
  rep_uuids16_is_complete :
    present (uuids32 f) = true -> uuids16_is_complete f = false
}.

(** [fields_equiv K f f']: [f'] has the scalars, lengths, counts and
    flags of [f], and each pointer of [f'] is null when that of [f] is and
    shows the same cells otherwise. *)
Record fields_equiv (K : hs_config) (f f' : ble_hs_adv_fields) : Prop := {
  eq_flags : flags f' = flags f;
  eq_flags_is_present : flags_is_present f' = flags_is_present f;
  eq_uuids16 : blob_eq (num_uuids16 f) (uuids16 f) (uuids16 f');
  eq_num_uuids16 : num_uuids16 f' = num_uuids16 f;
  eq_uuids16_is_complete : uuids16_is_complete f' = uuids16_is_complete f;
  eq_uuids32 : blob_eq (num_uuids32 f) (uuids32 f) (uuids32 f');
  eq_num_uuids32 : num_uuids32 f' = num_uuids32 f;
  eq_uuids32_is_complete : uuids32_is_complete f' = uuids32_is_complete f;
  eq_uuids128 :
    blob_eq (num_uuids128 f * 16) (uuids128 f) (uuids128 f');
  eq_num_uuids128 : num_uuids128 f' = num_uuids128 f;
  eq_uuids128_is_complete :
    uuids128_is_complete f' = uuids128_is_complete f;
  eq_name : blob_eq (name_len f) (name f) (name f');
  eq_name_len : name_len f' = name_len f;
  eq_name_is_complete : name_is_complete f' = name_is_complete f;
  eq_tx_pwr_lvl : tx_pwr_lvl f' = tx_pwr_lvl f;
  eq_tx_pwr_lvl_is_present :
    tx_pwr_lvl_is_present f' = tx_pwr_lvl_is_present f;
  eq_device_class :
    blob_eq (BLE_HS_ADV_DEVICE_CLASS_LEN K) (device_class f)
      (device_class f');
  eq_slave_itvl_range :
    blob_eq (BLE_HS_ADV_SLAVE_ITVL_RANGE_LEN K) (slave_itvl_range f)
      (slave_itvl_range f');
  eq_svc_data_uuid16 :
    blob_eq (svc_data_uuid16_len f) (svc_data_uuid16 f)
      (svc_data_uuid16 f');
  eq_svc_data_uuid16_len : svc_data_uuid16_len f' = svc_data_uuid16_len f;
  eq_public_tgt_addr :
    blob_eq
      (BLE_HS_ADV_PUBLIC_TGT_ADDR_ENTRY_LEN K * num_public_tgt_addrs f)
      (public_tgt_addr f) (public_tgt_addr f');
  eq_num_public_tgt_addrs :
    num_public_tgt_addrs f' = num_public_tgt_addrs f;
  eq_appearance : appearance f' = appearance f;
  eq_appearance_is_present :
    appearance_is_present f' = appearance_is_present f;
  eq_adv_itvl : adv_itvl f' = adv_itvl f;
  eq_adv_itvl_is_present : adv_itvl_is_present f' = adv_itvl_is_present f;
  eq_le_addr :
    blob_eq (BLE_HS_ADV_LE_ADDR_LEN K) (le_addr f) (le_addr f');
  eq_le_role : le_role f' = le_role f;
  eq_le_role_is_present : le_role_is_present f' = le_role_is_present f;
  eq_svc_data_uuid32 :
    blob_eq (svc_data_uuid32_len f) (svc_data_uuid32 f)
      (svc_data_uuid32 f');
  eq_svc_data_uuid32_len : svc_data_uuid32_len f' = svc_data_uuid32_len f;
  eq_svc_data_uuid128 :
    blob_eq (svc_data_uuid128_len f) (svc_data_uuid128 f)
      (svc_data_uuid128 f');
  eq_svc_data_uuid128_len :
    svc_data_uuid128_len f' = svc_data_uuid128_len f;
  eq_uri : blob_eq (uri_len f) (uri f) (uri f');
  eq_uri_len : uri_len f' = uri_len f;
  eq_mfg_data : blob_eq (mfg_data_len f) (mfg_data f) (mfg_data f');
  eq_mfg_data_len : mfg_data_len f' = mfg_data_len f
}.

(** * Properties *)

(** ** The header writer *)

Lemma u8_small (x : Z) : 0 <= x < 256 -> u8 x = x.
Proof. intros H. unfold u8. apply Z.mod_small. exact H. Qed.

Lemma u8_range (x : Z) : 0 <= u8 x < 256.
Proof. unfold u8. apply Z.mod_pos_bound. lia. Qed.

(** C4. [ble_hs_adv_set_hdr] returns [BLE_HS_EMSGSIZE] exactly when the
    cursor plus [data_len + 2] exceeds [max_len]; then it stores nothing and
    leaves the cursor as it was; otherwise it stores the length byte
    [data_len + 1], then the type byte, and moves the cursor by 2. *)
Theorem set_hdr_correct (type data_len max_len : Z) (st : adv_dst) :
  is_u8 type -> is_u8 data_len -> is_u8 max_len -> is_u8 (dst_len st) ->
  (fst (ble_hs_adv_set_hdr type data_len max_len st) = Some BLE_HS_EMSGSIZE
   <-> dst_len st + (data_len + 2) > max_len) /\
  (dst_len st + (data_len + 2) > max_len ->
   ble_hs_adv_set_hdr type data_len max_len st = (Some BLE_HS_EMSGSIZE, st)) /\
  (dst_len st + (data_len + 2) <= max_len ->
   ble_hs_adv_set_hdr type data_len max_len st =
   (None,
    {| dst := (dst_len st + 1, type) :: (dst_len st, data_len + 1) :: dst st;
       dst_len := dst_len st + 2;
       dbg_assert_ok := dbg_assert_ok st |})).
Proof.
  unfold is_u8. intros Ht Hd Hm Hl.
  unfold ble_hs_adv_set_hdr.
  destruct (dst_len st + 2 + data_len >? max_len) eqn:E.
  - apply Z.gtb_lt in E.
    split; [split; intros; [lia | reflexivity] |].
    split; [reflexivity | intros; lia].
  - assert (Hle : dst_len st + 2 + data_len <= max_len).
    { destruct (Z.gtb_spec (dst_len st + 2 + data_len) max_len);
        [discriminate | assumption]. }
    split; [split; intros H; [discriminate H | lia] |].
    split; [intros; lia |].
    intros _. unfold set_dst_len, store. simpl.
    rewrite !u8_small by lia. reflexivity.
Qed.

(** A header that fits 31 bytes at cursor 3, and one that does not fit 7. *)
Lemma set_hdr_correct_witness :
  fst (ble_hs_adv_set_hdr 9 3 31 (set_dst_len 3 adv_dst_init)) = None /\
  fst (ble_hs_adv_set_hdr 9 3 7 (set_dst_len 3 adv_dst_init))
  = Some BLE_HS_EMSGSIZE.
Proof.
  assert (U : forall x, (0 <=? x) && (x <? 256) = true -> is_u8 x).
  { intros x H. unfold is_u8. lia. }
  split.
  - destruct (set_hdr_correct 9 3 31 (set_dst_len 3 adv_dst_init)
                (U 9 eq_refl) (U 3 eq_refl) (U 31 eq_refl) (U 3 eq_refl))
      as (_ & _ & H).
    rewrite H; [reflexivity | vm_compute; discriminate].
  - destruct (set_hdr_correct 9 3 7 (set_dst_len 3 adv_dst_init)
                (U 9 eq_refl) (U 3 eq_refl) (U 7 eq_refl) (U 3 eq_refl))
      as (_ & H & _).
    rewrite H; [reflexivity | vm_compute; reflexivity].
Defined.

(** ** The builder on concrete field sets *)

(** C9. With advertising compiled in, building flags 0x06 and the complete
    name "Foo" with [max_len = 31] returns 0, leaves [*dst_len = 8] and
    stores exactly the bytes 02 01 06 04 09 46 6F 6F at indices 0..7,
    whatever the destination held before. *)
Theorem set_fields_flags_foo (K : hs_config) (st : adv_dst) :
  NIMBLE_OPT_ADVERTISE K = true ->
  let r := ble_hs_adv_set_fields K fields_flags_foo 31 st in
  fst r = None /\
  dst_len (snd r) = 8 /\
  dst_bytes (snd r) 8 = Some [0x02; 0x01; 0x06; 0x04; 0x09; 0x46; 0x6F; 0x6F] /\
  dst (snd r) =
    [(7, 0x6F); (6, 0x6F); (5, 0x46); (4, 0x09); (3, 0x04);
     (2, 0x06); (1, 0x01); (0, 0x02)] ++ dst st.
Proof.
  intros HK.
  destruct K; simpl in HK; subst.
  vm_compute.
  repeat split; reflexivity.
Qed.

(** The scenario with the constants of the NimBLE header. *)
Lemma set_fields_flags_foo_witness :
  dst_bytes (snd (ble_hs_adv_set_fields nimble fields_flags_foo 31 adv_dst_init)) 8
  = Some [0x02; 0x01; 0x06; 0x04; 0x09; 0x46; 0x6F; 0x6F].
Proof.
  destruct (set_fields_flags_foo nimble adv_dst_init) as (_ & _ & H & _).
  - reflexivity.
  - exact H.
Defined.

(** C1 (the code departs from the claim). With [max_len = 2] the flags
    writer fails with [BLE_HS_EMSGSIZE], and [ble_hs_adv_set_fields] goes on
    and returns 0: the status of the flags writer is never tested. *)
Theorem set_fields_ignores_flags_failure :
  ble_hs_adv_set_flat nimble BLE_HS_ADV_TYPE_FLAGS 1
    [flags fields_flags_only] 2 (set_dst_len 0 adv_dst_init)
  = (Some BLE_HS_EMSGSIZE, adv_dst_init) /\
  ble_hs_adv_set_fields nimble fields_flags_only 2 adv_dst_init
  = (None, adv_dst_init).
Proof. split; vm_compute; reflexivity. Qed.

(** C2 (the code departs from the claim). A complete one-element UUID32
    list is built as 05 05 78 56 34 12; parsing these bytes gives the list
    back but leaves [uuids32_is_complete] clear and sets
    [uuids16_is_complete] instead. *)
Theorem uuids32_is_complete_lost :
  let built := ble_hs_adv_set_fields nimble fields_uuid32_complete 31
                 adv_dst_init in
  fst built = None /\
  dst_len (snd built) = 6 /\
  dst_bytes (snd built) 6 = Some [0x05; 0x05; 0x78; 0x56; 0x34; 0x12] /\
  exists st,
    ble_hs_adv_parse_fields nimble [0x05; 0x05; 0x78; 0x56; 0x34; 0x12]
      7 6 (parse_st_init nimble) = Some (None, st) /\
    num_uuids32 (adv_fields st) = 1 /\
    option_map (firstn 1) (uuids32 (adv_fields st)) = Some [0x12345678] /\
    uuids32_is_complete (adv_fields st) = false /\
    uuids32_is_complete fields_uuid32_complete = true /\
    uuids16_is_complete (adv_fields st) = true /\
    uuids16_is_complete fields_uuid32_complete = false.
Proof.
  cbv zeta.
  split; [vm_compute; reflexivity |].
  split; [vm_compute; reflexivity |].
  split; [vm_compute; reflexivity |].
  eexists. split; [vm_compute; reflexivity |].
  repeat (split; [vm_compute; reflexivity |]).
  vm_compute; reflexivity.
Qed.

(** C3 (the code departs from the claim). With 128 16-bit UUIDs the payload
    length 256 becomes 0 in the [uint8_t] parameter of
    [ble_hs_adv_set_hdr], the size test passes for [max_len = 31], and the
    call returns 0 after 258 byte stores, some at index 255. *)
Theorem set_fields_overruns_max_len :
  let r := ble_hs_adv_set_fields nimble fields_128_uuids16 31 adv_dst_init in
  fst r = None /\
  length (dst (snd r)) = 258%nat /\
  In 255 (map fst (dst (snd r))) /\
  dst_len (snd r) = 2.
Proof.
  cbv zeta.
  split; [vm_compute; reflexivity |].
  split; [vm_compute; reflexivity |].
  split; [| vm_compute; reflexivity].
  vm_compute. do 2 right. left. reflexivity.
Qed.

(** C8 (the code departs from the claim). A non-null [uri] with
    [uri_len = 0] reaches [ble_hs_adv_set_flat] with [data_len = 0]: the
    assertion [data_len > 0] fails and the record 01 24, with an empty
    value, is emitted. *)
Theorem set_fields_empty_uri_breaks_assert :
  let r := ble_hs_adv_set_fields nimble fields_empty_uri 31 adv_dst_init in
  fst r = None /\
  dbg_assert_ok (snd r) = false /\
  dst_len (snd r) = 2 /\
  dst_bytes (snd r) 2 = Some [0x01; 0x24].
Proof.
  cbv zeta.
  repeat (split; [vm_compute; reflexivity |]).
  vm_compute; reflexivity.
Qed.

(** ** The parser on concrete buffers *)

(** Parsing 02 01 06 04 09 46 6F 6F gives flags 0x06, present, and the
    complete name "Foo", a view of the source at offset 5. *)
Example parse_fields_flags_foo :
  exists st,
    ble_hs_adv_parse_fields nimble
      [0x02; 0x01; 0x06; 0x04; 0x09; 0x46; 0x6F; 0x6F] 3 8
      (parse_st_init nimble) = Some (None, st) /\
    flags (adv_fields st) = 0x06 /\
    flags_is_present (adv_fields st) = true /\
    name (adv_fields st) = Some [0x46; 0x6F; 0x6F] /\
    name_len (adv_fields st) = 3 /\
    name_is_complete (adv_fields st) = true.
Proof.
  eexists. split; [vm_compute; reflexivity |].
  repeat (split; [vm_compute; reflexivity |]).
  vm_compute; reflexivity.
Qed.

(** An incomplete UUID32 list does survive the round trip: the flag that is
    never set is 0 on both sides. *)
Example uuids32_incomplete_round_trip :
  dst_bytes
    (snd (ble_hs_adv_set_fields nimble fields_uuid32_incomplete 31
            adv_dst_init)) 6
  = Some [0x05; 0x04; 0x78; 0x56; 0x34; 0x12] /\
  exists st,
    ble_hs_adv_parse_fields nimble [0x05; 0x04; 0x78; 0x56; 0x34; 0x12]
      2 6 (parse_st_init nimble) = Some (None, st) /\
    num_uuids32 (adv_fields st) = num_uuids32 fields_uuid32_incomplete /\
    option_map (firstn 1) (uuids32 (adv_fields st))
    = uuids32 fields_uuid32_incomplete /\
    uuids32_is_complete (adv_fields st)
    = uuids32_is_complete fields_uuid32_incomplete /\
    uuids16_is_complete (adv_fields st)
    = uuids16_is_complete fields_uuid32_incomplete.
Proof.
  split; [vm_compute; reflexivity |].
  eexists. split; [vm_compute; reflexivity |].
  repeat (split; [vm_compute; reflexivity |]).
  vm_compute; reflexivity.
Qed.

(** C5 (the code departs from the claim). A first length byte 0xFF implies a
    record of 256 bytes, more than the 3 that remain, but [*total_len]
    wraps to 0, the size test passes and the call fails with
    [BLE_HS_EBADDATA], not [BLE_HS_EMSGSIZE]. *)
Theorem parse_fields_length_255_bad_data :
  exists st,
    ble_hs_adv_parse_fields nimble [0xFF; 0x09; 0x41] 4 3
      (parse_st_init nimble) = Some (Some BLE_HS_EBADDATA, st) /\
    total_len st = 0 /\
    3 < 0xFF + 1.
Proof.
  eexists. split; [vm_compute; reflexivity |].
  split; vm_compute; reflexivity.
Qed.

(** C7 (the code departs from the claim). With [src_len = 1] and the only
    byte a length byte 0, the type byte is read at index 1, past the
    supplied bytes, before the record is rejected. *)
Theorem parse_fields_reads_past_src_len :
  exists st,
    ble_hs_adv_parse_fields nimble [0x00] 2 1 (parse_st_init nimble)
    = Some (Some BLE_HS_EBADDATA, st) /\
    src_reads st = [1; 0] /\
    ~ (forall i, In i (src_reads st) -> i < 1).
Proof.
  eexists. split; [vm_compute; reflexivity |].
  split; [vm_compute; reflexivity |].
  intros H. specialize (H 1 (or_introl eq_refl)). lia.
Qed.

(** ** What one parse step leaves alone *)

Lemma keeps_refl (st : parse_st) : keeps st st.
Proof. repeat split. apply incl_refl. Qed.

Lemma keeps_trans (a b c : parse_st) : keeps a b -> keeps b c -> keeps a c.
Proof.
  intros (T1 & U1 & I1) (T2 & U2 & I2).
  repeat split; try congruence.
  eapply incl_tran; eassumption.
Qed.

Lemma keeps_upd (g : ble_hs_adv_fields -> ble_hs_adv_fields) (st : parse_st) :
  (forall f, uuids32_is_complete (g f) = uuids32_is_complete f) ->
  keeps st (upd_fields g st).
Proof. intros H. repeat split; simpl; [apply H | apply incl_refl]. Qed.

Lemma keeps_log_read (i : Z) (st : parse_st) : keeps st (log_read i st).
Proof. repeat split. simpl. apply incl_tl, incl_refl. Qed.

Section ParserFrame.

Variable K : hs_config.
Variable mem : list Z.

Lemma keeps_rd (i : Z) (st : parse_st) : keeps st (snd (rd mem i st)).
Proof. apply keeps_log_read. Qed.

Lemma keeps_le16toh (i : Z) (st : parse_st) :
  keeps st (snd (le16toh mem i st)).
Proof.
  unfold le16toh, rd. repeat split. simpl.
  do 2 apply incl_tl. apply incl_refl.
Qed.

Lemma keeps_le32toh (i : Z) (st : parse_st) :
  keeps st (snd (le32toh mem i st)).
Proof.
  unfold le32toh, rd. repeat split. simpl.
  do 4 apply incl_tl. apply incl_refl.
Qed.

Lemma keeps_store_uuids16 (i : nat) (v : Z) (st : parse_st) :
  keeps st (store_uuids16 i v st).
Proof. repeat split. apply incl_refl. Qed.

Lemma keeps_store_uuids32 (i : nat) (v : Z) (st : parse_st) :
  keeps st (store_uuids32 i v st).
Proof. repeat split. apply incl_refl. Qed.

Lemma keeps_parse_elems16 (data : Z) (n i : nat) (st : parse_st) :
  keeps st (parse_elems16 mem data i n st).
Proof.
  revert i st. induction n as [| n IH]; intros i st; cbn [parse_elems16].
  - apply keeps_refl.
  - pose proof (keeps_le16toh (data + Z.of_nat i * 2) st) as H.
    destruct (le16toh mem (data + Z.of_nat i * 2) st) as [v st1].
    simpl in H.
    eapply keeps_trans; [exact H |].
    eapply keeps_trans; [apply keeps_store_uuids16 | apply IH].
Qed.

Lemma keeps_parse_elems32 (data : Z) (n i : nat) (st : parse_st) :
  keeps st (parse_elems32 mem data i n st).
Proof.
  revert i st. induction n as [| n IH]; intros i st; cbn [parse_elems32].
  - apply keeps_refl.
  - pose proof (keeps_le32toh (data + Z.of_nat i * 4) st) as H.
    destruct (le32toh mem (data + Z.of_nat i * 4) st) as [v st1].
    simpl in H.
    eapply keeps_trans; [exact H |].
    eapply keeps_trans; [apply keeps_store_uuids32 | apply IH].
Qed.

Lemma keeps_parse_uuids16 (data data_len : Z) (st : parse_st) :
  keeps st (snd (ble_hs_adv_parse_uuids16 mem data data_len st)).
Proof.
  unfold ble_hs_adv_parse_uuids16.
  destruct (negb (data_len mod 2 =? 0)); simpl.
  - apply keeps_refl.
  - eapply keeps_trans; [| apply keeps_parse_elems16].
    repeat split. apply incl_refl.
Qed.

Lemma keeps_parse_uuids32 (data data_len : Z) (st : parse_st) :
  keeps st (snd (ble_hs_adv_parse_uuids32 mem data data_len st)).
Proof.
  unfold ble_hs_adv_parse_uuids32.
  destruct (negb (data_len mod 4 =? 0)); simpl.
  - apply keeps_refl.
  - eapply keeps_trans; [| apply keeps_parse_elems32].
    repeat split. apply incl_refl.
Qed.

Lemma keeps_and_then (st : parse_st) (r : rc * parse_st)
    (g : ble_hs_adv_fields -> ble_hs_adv_fields) :
  keeps st (snd r) ->
  (forall f, uuids32_is_complete (g f) = uuids32_is_complete f) ->
  keeps st (snd (and_then r g)).
Proof.
  intros H Hg. destruct r as [[e |] st1]; simpl in *.
  - exact H.
  - eapply keeps_trans; [exact H | apply keeps_upd, Hg].
Qed.

Ltac keeps_leaf :=
  first
    [ apply keeps_refl
    | apply keeps_and_then;
      [ first [apply keeps_parse_uuids16 | apply keeps_parse_uuids32]
      | reflexivity ]
    | repeat split; simpl;
      repeat first [apply incl_refl | apply incl_tl] ].

Lemma keeps_parse_switch (type data data_len : Z) (st : parse_st) :
  keeps st (snd (parse_switch K mem type data data_len st)).
Proof.
  unfold parse_switch, bad_data.
  repeat match goal with
         | |- keeps _ (snd (if ?b then _ else _)) => destruct b
         end;
    keeps_leaf.
Qed.

Lemma keeps_parse_one_field (src src_len : Z) (st : parse_st) :
  uuids32_is_complete
    (adv_fields (snd (ble_hs_adv_parse_one_field K mem src src_len st)))
  = uuids32_is_complete (adv_fields st).
Proof.
  unfold ble_hs_adv_parse_one_field, rd.
  destruct (src_len <? 1); [reflexivity |]. simpl.
  match goal with |- context [if ?b then _ else _] => destruct b end;
    [reflexivity |].
  match goal with |- context [if ?b then _ else _] => destruct b end;
    [reflexivity |].
  match goal with
  | |- context [parse_switch K mem ?t ?d ?l ?s] =>
      destruct (keeps_parse_switch t d l s) as (_ & H & _)
  end.
  rewrite H. reflexivity.
Qed.

(** A successful step stores in [*total_len] a value between 2 and the
    remaining length, equal to the length byte plus one when that byte is a
    byte. *)
Lemma parse_one_field_consumes (src src_len : Z) (st st' : parse_st) :
  BLE_HS_ADV_MAX_FIELD_SZ K < 254 ->
  ble_hs_adv_parse_one_field K mem src src_len st = (None, st') ->
  2 <= total_len st' <= src_len /\
  (is_u8 (nth (Z.to_nat src) mem 0) ->
   total_len st' = nth (Z.to_nat src) mem 0 + 1).
Proof.
  intros Hmax. unfold ble_hs_adv_parse_one_field, rd.
  destruct (src_len <? 1); [discriminate |]. simpl.
  set (b := nth (Z.to_nat src) mem 0).
  destruct (src_len <? u8 (b + 1)) eqn:E1; [discriminate |].
  destruct (u8 (u8 (b + 1) - 2) >? BLE_HS_ADV_MAX_FIELD_SZ K) eqn:E2;
    [discriminate |].
  intros H.
  match type of H with
  | parse_switch K mem ?t ?d ?l ?s = _ =>
      destruct (keeps_parse_switch t d l s) as (T & _ & _)
  end.
  rewrite H in T. simpl in T.
  apply Z.ltb_ge in E1.
  assert (E3 : u8 (u8 (b + 1) - 2) <= BLE_HS_ADV_MAX_FIELD_SZ K).
  { destruct (Z.gtb_spec (u8 (u8 (b + 1) - 2))
                (BLE_HS_ADV_MAX_FIELD_SZ K)); [discriminate | assumption]. }
  rewrite T. unfold is_u8, u8 in *.
  split.
  - Z.div_mod_to_equations. lia.
  - intros Hb. Z.div_mod_to_equations. lia.
Qed.

(** The loop finishes within [n + 1] iterations when at most [n] bytes
    remain. *)
Lemma parse_loop_terminates (n : nat) :
  BLE_HS_ADV_MAX_FIELD_SZ K < 254 ->
  forall (src src_len : Z) (st : parse_st),
    is_u8 src_len -> (Z.to_nat src_len <= n)%nat ->
    exists r, forall fuel, (n < fuel)%nat ->
      parse_loop K mem fuel src src_len st = Some r.
Proof.
  intros Hmax. induction n as [| n IH]; intros src src_len st Hu Hn.
  - exists (None, st). intros fuel Hf.
    destruct fuel as [| fuel]; [lia |]. simpl.
    unfold is_u8 in Hu.
    destruct (Z.gtb_spec src_len 0); [lia | reflexivity].
  - destruct (Z.gtb_spec src_len 0) as [Hpos | Hz].
    + destruct (ble_hs_adv_parse_one_field K mem src src_len st)
        as [[e |] st'] eqn:E.
      * exists (Some e, st'). intros fuel Hf.
        destruct fuel as [| fuel]; [lia |]. simpl.
        destruct (Z.gtb_spec src_len 0); [| lia].
        rewrite E. reflexivity.
      * destruct (parse_one_field_consumes _ _ _ _ Hmax E) as ((H2 & Hle) & _).
        unfold is_u8 in Hu.
        assert (Hs : u8 (src_len - total_len st') = src_len - total_len st').
        { apply u8_small. lia. }
        destruct (IH (src + total_len st') (u8 (src_len - total_len st')) st')
          as [r Hr].
        { rewrite Hs. unfold is_u8. lia. }
        { rewrite Hs. lia. }
        exists r. intros fuel Hf.
        destruct fuel as [| fuel]; [lia |]. simpl.
        destruct (Z.gtb_spec src_len 0); [| lia].
        rewrite E. apply Hr. lia.
    + exists (None, st). intros fuel Hf.
      destruct fuel as [| fuel]; [lia |]. simpl.
      destruct (Z.gtb_spec src_len 0); [lia | reflexivity].
Qed.

(** No parse sets [uuids32_is_complete]: the loop keeps the 0 that the
    initial [memset] stored. *)
Lemma parse_loop_uuids32_is_complete (fuel : nat) :
  forall (src src_len : Z) (st : parse_st) (r : rc) (st' : parse_st),
    parse_loop K mem fuel src src_len st = Some (r, st') ->
    uuids32_is_complete (adv_fields st')
    = uuids32_is_complete (adv_fields st).
Proof.
  induction fuel as [| fuel IH]; intros src src_len st r st' H; simpl in H.
  - discriminate.
  - destruct (src_len >? 0).
    + pose proof (keeps_parse_one_field src src_len st) as Hk.
      destruct (ble_hs_adv_parse_one_field K mem src src_len st)
        as [[e |] st1]; simpl in Hk.
      * inversion H; subst. exact Hk.
      * apply IH in H. congruence.
    + inversion H; subst. reflexivity.
Qed.

Lemma parse_switch_unknown (type data data_len : Z) (st : parse_st) :
  known_type type = false ->
  parse_switch K mem type data data_len st = (None, st).
Proof.
  unfold known_type, known_types. cbn [existsb]. intros H.
  repeat (apply orb_false_iff in H; destruct H as [?E H]).
  unfold parse_switch.
  repeat match goal with
         | E : (type =? _) = false |- _ => rewrite E; clear E
         end.
  reflexivity.
Qed.

End ParserFrame.

(** ** Termination of the parser *)

Lemma nth_is_u8 (l : list Z) :
  Forall is_u8 l -> forall n, is_u8 (nth n l 0).
Proof.
  induction 1 as [| x l Hx _ IH]; intros n.
  - destruct n; unfold is_u8; simpl; lia.
  - destruct n as [| n]; simpl; [exact Hx | apply IH].
Qed.

(** C10. When [BLE_HS_ADV_MAX_FIELD_SZ] is below 254, every iteration of
    the loop of [ble_hs_adv_parse_fields] that does not return an error
    consumes [total_len = length byte + 1 >= 1] bytes, leaving strictly
    fewer; and the call returns, for every source buffer and [src_len],
    once the fuel exceeds [src_len]. *)
Theorem parse_fields_terminates (K : hs_config) (mem : list Z)
    (src_len : Z) (st : parse_st) :
  BLE_HS_ADV_MAX_FIELD_SZ K < 254 ->
  Forall is_u8 mem ->
  is_u8 src_len ->
  (forall src remaining s s',
      is_u8 remaining ->
      ble_hs_adv_parse_one_field K mem src remaining s = (None, s') ->
      total_len s' = nth (Z.to_nat src) mem 0 + 1 /\
      total_len s' >= 1 /\
      0 <= u8 (remaining - total_len s') < remaining) /\
  exists r, forall fuel, (Z.to_nat src_len < fuel)%nat ->
    ble_hs_adv_parse_fields K mem fuel src_len st = Some r.
Proof.
  intros Hmax Hmem Hlen. split.
  - intros src remaining s s' Hr E.
    destruct (parse_one_field_consumes K mem _ _ _ _ Hmax E) as ((H2 & Hle) & Hb).
    unfold is_u8 in Hr.
    rewrite u8_small by lia.
    split; [apply Hb, nth_is_u8, Hmem | lia].
  - unfold ble_hs_adv_parse_fields.
    apply parse_loop_terminates with (n := Z.to_nat src_len);
      [exact Hmax | exact Hlen | apply Nat.le_refl].
Qed.

(** The parse of 02 01 06 04 09 46 6F 6F returns. *)
Lemma parse_fields_terminates_witness :
  exists r, forall fuel, (Z.to_nat 8 < fuel)%nat ->
    ble_hs_adv_parse_fields nimble
      [0x02; 0x01; 0x06; 0x04; 0x09; 0x46; 0x6F; 0x6F] fuel 8
      (parse_st_init nimble) = Some r.
Proof.
  assert (U : forall x, (0 <=? x) && (x <? 256) = true -> is_u8 x).
  { intros x H. unfold is_u8. lia. }
  refine (proj2 (parse_fields_terminates nimble
                   [0x02; 0x01; 0x06; 0x04; 0x09; 0x46; 0x6F; 0x6F] 8
                   (parse_st_init nimble) _ _ (U 8 eq_refl))).
  - reflexivity.
  - repeat (apply Forall_cons; [apply U; reflexivity |]).
    apply Forall_nil.
Defined.

(** ** Records of unrecognized type *)

(** C6 as stated fails. A record of the unrecognized type 0xAA with a
    30-byte payload, filling a 32-byte source exactly, is not skipped: the
    payload exceeds [BLE_HS_ADV_MAX_FIELD_SZ = 29] and the parse fails with
    [BLE_HS_EBADDATA]. *)
Lemma unknown_record_too_long_rejected :
  known_type (nth 1 src_unknown_long 0) = false /\
  nth 0 src_unknown_long 0 + 1 <= 32 /\
  ~ record_skipped nimble src_unknown_long 0 32 (parse_st_init nimble) /\
  exists st,
    ble_hs_adv_parse_fields nimble src_unknown_long 33 32
      (parse_st_init nimble)
    = Some (Some BLE_HS_EBADDATA, st).
Proof.
  split; [vm_compute; reflexivity |].
  split; [vm_compute; discriminate |].
  split.
  - intros (H & _). vm_compute in H. discriminate H.
  - eexists. vm_compute. reflexivity.
Qed.

(** C6, amended. A record whose type byte matches no known code, whose
    length byte is at least 1 and fits the remaining bytes, and whose
    payload length [length byte - 1] is at most [BLE_HS_ADV_MAX_FIELD_SZ],
    is accepted without error, leaves every output field as it was, and
    parsing goes on at the next record. *)
Theorem unknown_record_skipped (K : hs_config) (mem : list Z)
    (src src_len : Z) (st : parse_st) :
  is_u8 src_len ->
  known_type (nth (Z.to_nat (src + 1)) mem 0) = false ->
  1 <= nth (Z.to_nat src) mem 0 ->
  nth (Z.to_nat src) mem 0 + 1 <= src_len ->
  nth (Z.to_nat src) mem 0 - 1 <= BLE_HS_ADV_MAX_FIELD_SZ K ->
  record_skipped K mem src src_len st.
Proof.
  unfold is_u8, record_skipped. intros Hu Hty H1 Hfit Hmax. cbv zeta.
  set (b := nth (Z.to_nat src) mem 0) in *.
  assert (E : ble_hs_adv_parse_one_field K mem src src_len st
              = (None,
                 log_read (src + 1)
                   (set_total_len (b + 1) (log_read src st)))).
  { unfold ble_hs_adv_parse_one_field, rd. fold b.
    destruct (Z.ltb_spec src_len 1); [lia |].
    cbn [total_len set_total_len log_read].
    rewrite (u8_small (b + 1)) by lia.
    destruct (Z.ltb_spec src_len (b + 1)); [lia |].
    replace (b + 1 - 2) with (b - 1) by lia.
    rewrite (u8_small (b - 1)) by lia.
    destruct (Z.gtb_spec (b - 1) (BLE_HS_ADV_MAX_FIELD_SZ K)); [lia |].
    apply parse_switch_unknown. exact Hty. }
  rewrite E. cbn [fst snd adv_fields ble_hs_adv_uuids16 ble_hs_adv_uuids32
                    total_len log_read set_total_len].
  rewrite (u8_small (b + 1)) by lia.
  repeat (split; [reflexivity |]).
  intros fuel. cbn [parse_loop].
  destruct (Z.gtb_spec src_len 0); [| lia].
  rewrite E. cbn [total_len log_read set_total_len].
  rewrite (u8_small (b + 1)) by lia.
  rewrite (u8_small (src_len - (b + 1))) by lia.
  reflexivity.
Qed.

(** The record 03 AA 01 02, followed by a flags record, is skipped. *)
Lemma unknown_record_skipped_witness :
  record_skipped nimble [0x03; 0xAA; 0x01; 0x02; 0x02; 0x01; 0x06] 0 7
    (parse_st_init nimble).
Proof.
  apply unknown_record_skipped.
  - unfold is_u8. lia.
  - reflexivity.
  - vm_compute. discriminate.
  - vm_compute. discriminate.
  - vm_compute. discriminate.
Defined.

(** ** The builder in general: fail-fast, bounds, success *)

Lemma set_fields_after_flags_chain (K : hs_config) (f : ble_hs_adv_fields)
    (max_len : Z) :
  set_fields_after_flags K f max_len = chain (field_writers K f max_len).
Proof. reflexivity. Qed.

Lemma chain_cons (w : writer) (ws : list writer) (st : adv_dst) :
  chain (w :: ws) st = seq_w w (chain ws) st.
Proof.
  destruct ws as [| w' ws]; [| reflexivity].
  unfold chain, seq_w, skip. destruct (w st) as [[e |] st']; reflexivity.
Qed.

(** A chain returns the status of its first failing writer, with the state
    that writer left. *)
Lemma chain_fail_fast (ws1 : list writer) (w : writer) (ws2 : list writer) :
  forall (st st1 st2 : adv_dst) (e : ble_hs_err),
    run_all ws1 st = Some st1 ->
    w st1 = (Some e, st2) ->
    chain (ws1 ++ w :: ws2) st = (Some e, st2).
Proof.
  induction ws1 as [| w1 ws1 IH]; intros st st1 st2 e Hrun Hw.
  - simpl in Hrun. inversion Hrun; subst.
    simpl app. rewrite chain_cons. unfold seq_w. rewrite Hw. reflexivity.
  - simpl in Hrun. change ((w1 :: ws1) ++ w :: ws2)
      with (w1 :: (ws1 ++ w :: ws2)).
    rewrite chain_cons. unfold seq_w.
    destruct (w1 st) as [[e1 |] st']; [discriminate |].
    eapply IH; eassumption.
Qed.

(** X8. Every writer of [ble_hs_adv_set_fields] after the flags is
    fail-fast: when the writers before it succeed and it fails, the call
    returns its status, with the destination as that writer left it. *)
Lemma set_fields_fail_fast_after_flags (K : hs_config)
    (f : ble_hs_adv_fields) (max_len : Z) (st st1 st2 : adv_dst)
    (ws1 : list writer) (w : writer) (ws2 : list writer) (e : ble_hs_err) :
  NIMBLE_OPT_ADVERTISE K = true ->
  field_writers K f max_len = ws1 ++ w :: ws2 ->
  run_all ws1 (snd (set_flags_field K f max_len (set_dst_len 0 st)))
  = Some st1 ->
  w st1 = (Some e, st2) ->
  ble_hs_adv_set_fields K f max_len st = (Some e, st2).
Proof.
  intros HK Hws Hrun Hw.
  unfold ble_hs_adv_set_fields. rewrite HK. cbn [negb].
  rewrite set_fields_after_flags_chain, Hws.
  unfold seq_w at 1.
  assert (Hf : fst (set_flags_field K f max_len (set_dst_len 0 st)) = None).
  { unfold set_flags_field, unchecked, skip.
    destruct (flags_is_present f && negb (flags f =? 0)); reflexivity. }
  destruct (set_flags_field K f max_len (set_dst_len 0 st)) as [r st0].
  simpl in Hf, Hrun. subst r.
  eapply chain_fail_fast; eassumption.
Qed.

(** A failing flags writer, on the contrary, never makes the call fail:
    whatever the field set, the status of the flags step is 0. *)
Lemma set_flags_field_status (K : hs_config) (f : ble_hs_adv_fields)
    (max_len : Z) (st : adv_dst) :
  fst (set_flags_field K f max_len st) = None.
Proof.
  unfold set_flags_field, unchecked, skip.
  destruct (flags_is_present f && negb (flags f =? 0)); reflexivity.
Qed.

Lemma wrote_refl (lo hi : Z) (st : adv_dst) : wrote lo hi st st.
Proof. exists []. split; [reflexivity | constructor]. Qed.

Lemma wrote_same (lo hi : Z) (a b : adv_dst) :
  dst b = dst a -> wrote lo hi a b.
Proof. intros H. exists []. split; [exact H | constructor]. Qed.

Lemma wrote_trans (lo hi : Z) (a b c : adv_dst) :
  wrote lo hi a b -> wrote lo hi b c -> wrote lo hi a c.
Proof.
  intros (n1 & E1 & F1) (n2 & E2 & F2).
  exists (n2 ++ n1). split.
  - rewrite E2, E1. apply app_assoc.
  - apply Forall_app. split; assumption.
Qed.

Lemma wrote_weaken (lo hi lo' hi' : Z) (a b : adv_dst) :
  lo' <= lo -> hi <= hi' -> wrote lo hi a b -> wrote lo' hi' a b.
Proof.
  intros Hlo Hhi (n & E & F). exists n. split; [exact E |].
  eapply Forall_impl; [| exact F]. cbv beta. intros p Hp. lia.
Qed.

Lemma wrote_store (lo hi i v : Z) (st : adv_dst) :
  lo <= i < hi -> wrote lo hi st (store i v st).
Proof.
  intros H. exists [(i, u8 v)]. split; [reflexivity |].
  constructor; [exact H | constructor].
Qed.

Lemma memcpy_wrote (off : Z) (data : list Z) (n : Z) (st : adv_dst) :
  wrote off (off + n) st (memcpy off data n st) /\
  dst_len (memcpy off data n st) = dst_len st.
Proof.
  unfold memcpy.
  assert (G : forall l s,
             Forall (fun i => Z.of_nat i < n) l ->
             let s' := fold_left
                         (fun s i => store (off + Z.of_nat i) (nth i data 0) s)
                         l s in
             wrote off (off + n) s s' /\ dst_len s' = dst_len s).
  { induction l as [| i l IH]; intros s Hl; simpl.
    - split; [apply wrote_refl | reflexivity].
    - inversion Hl as [| ? ? Hi Hl']; subst.
      destruct (IH (store (off + Z.of_nat i) (nth i data 0) s) Hl')
        as [W L].
      split; [| exact L].
      eapply wrote_trans; [| exact W].
      apply wrote_store. lia. }
  apply G. apply Forall_forall. intros i Hi. apply in_seq in Hi. lia.
Qed.

Section BuilderBounds.

Variable K : hs_config.
Variable max_len : Z.
Hypothesis advertise_on : NIMBLE_OPT_ADVERTISE K = true.
Hypothesis max_len_u8 : 0 <= max_len < 256.

Lemma set_hdr_fits (type data_len : Z) (st : adv_dst) :
  0 <= dst_len st -> 0 <= data_len ->
  dst_len st + 2 + data_len <= max_len ->
  ble_hs_adv_set_hdr type data_len max_len st
  = (None,
     {| dst := (dst_len st + 1, u8 type) :: (dst_len st, data_len + 1)
               :: dst st;
        dst_len := dst_len st + 2;
        dbg_assert_ok := dbg_assert_ok st |}).
Proof.
  intros Hl Hd Hfit. unfold ble_hs_adv_set_hdr.
  destruct (Z.gtb_spec (dst_len st + 2 + data_len) max_len); [lia |].
  unfold set_dst_len, store. simpl.
  rewrite (u8_small (data_len + 1)), (u8_small (dst_len st + 2)) by lia.
  reflexivity.
Qed.

Lemma set_hdr_overflow (type data_len : Z) (st : adv_dst) :
  dst_len st + 2 + data_len > max_len ->
  ble_hs_adv_set_hdr type data_len max_len st = (Some BLE_HS_EMSGSIZE, st).
Proof.
  intros H. unfold ble_hs_adv_set_hdr.
  destruct (Z.gtb_spec (dst_len st + 2 + data_len) max_len);
    [reflexivity | lia].
Qed.

Lemma record_writer_skip : record_writer max_len 0 skip.
Proof.
  intros st H. left. unfold skip. simpl.
  repeat split; try lia. apply wrote_refl.
Qed.

Lemma fitting_writer_skip (n : Z) : fitting_writer max_len n skip.
Proof. intros st _ _. reflexivity. Qed.

Lemma record_writer_fail (n : Z) (e : ble_hs_err) :
  record_writer max_len n (fun st => (Some e, st)).
Proof. intros st H. right. simpl. repeat split. discriminate. Qed.

Lemma record_writer_flat (type len : Z) (data : list Z) :
  0 <= len < 256 ->
  record_writer max_len (2 + len)
    (ble_hs_adv_set_flat K type len data max_len).
Proof.
  intros Hlen st Hst. unfold ble_hs_adv_set_flat.
  rewrite advertise_on. cbn [negb]. rewrite (u8_small len) by exact Hlen.
  set (st0 := BLE_HS_DBG_ASSERT (0 <? len) st).
  assert (E0 : dst_len st0 = dst_len st) by reflexivity.
  assert (D0 : dst st0 = dst st) by reflexivity.
  destruct (Z_le_gt_dec (dst_len st + 2 + len) max_len) as [Hfit | Hover].
  - left. rewrite set_hdr_fits by lia.
    match goal with
    | |- context [memcpy ?o data len ?s] =>
        destruct (memcpy_wrote o data len s) as [W L];
        set (st2 := memcpy o data len s) in *
    end.
    cbn [fst snd dst_len set_dst_len] in *.
    rewrite L. cbn [dst_len]. rewrite E0.
    rewrite u8_small by lia.
    repeat split; try lia.
    destruct W as (new & Enew & Fnew). cbn [dst] in Enew.
    exists (new ++ [(dst_len st + 1, u8 type); (dst_len st, len + 1)]).
    split.
    + unfold set_dst_len. cbn [dst].
      rewrite Enew, E0, D0, <- app_assoc. reflexivity.
    + apply Forall_app. split.
      * rewrite E0 in Fnew.
        eapply Forall_impl; [| exact Fnew]. cbv beta. intros p Hp. lia.
      * repeat constructor; cbn [fst]; lia.
  - right. rewrite set_hdr_overflow by lia. simpl.
    repeat split. discriminate.
Qed.

Lemma fitting_writer_flat (type len : Z) (data : list Z) :
  0 <= len < 256 ->
  fitting_writer max_len (2 + len)
    (ble_hs_adv_set_flat K type len data max_len).
Proof.
  intros Hlen st Hst Hfit. unfold ble_hs_adv_set_flat.
  rewrite advertise_on. cbn [negb]. rewrite (u8_small len) by exact Hlen.
  set (st0 := BLE_HS_DBG_ASSERT (0 <? len) st).
  assert (E0 : dst_len st0 = dst_len st) by reflexivity.
  rewrite set_hdr_fits by lia. reflexivity.
Qed.

Lemma set_elems16_wrote (elems : list Z) (n : nat) :
  forall (i : nat) (st : adv_dst),
    0 <= dst_len st ->
    dst_len st + 2 * Z.of_nat n <= max_len ->
    let st' := set_elems16 elems i n st in
    dst_len st' = dst_len st + 2 * Z.of_nat n /\
    wrote (dst_len st) (dst_len st + 2 * Z.of_nat n) st st'.
Proof.
  induction n as [| n IH]; intros i st Hl Hfit; cbn [set_elems16].
  - split; [lia | apply wrote_refl].
  - set (st1 := set_dst_len (dst_len (htole16 (dst_len st) (nth i elems 0) st) + 2)
                  (htole16 (dst_len st) (nth i elems 0) st)).
    assert (L1 : dst_len st1 = dst_len st + 2).
    { unfold st1. cbn. apply u8_small. lia. }
    assert (W1 : wrote (dst_len st) (dst_len st + 2) st st1).
    { exists [(dst_len st + 1, u8 (Z.shiftr (nth i elems 0) 8));
              (dst_len st, u8 (nth i elems 0))].
      split; [reflexivity |]. repeat constructor; cbn [fst]; lia. }
    destruct (IH (S i) st1) as [L W]; [lia | lia |].
    cbv zeta in L, W. split; [lia |].
    eapply wrote_trans.
    + eapply wrote_weaken; [| | exact W1]; lia.
    + eapply wrote_weaken; [| | exact W]; lia.
Qed.

Lemma set_elems32_wrote (elems : list Z) (n : nat) :
  forall (i : nat) (st : adv_dst),
    0 <= dst_len st ->
    dst_len st + 4 * Z.of_nat n <= max_len ->
    let st' := set_elems32 elems i n st in
    dst_len st' = dst_len st + 4 * Z.of_nat n /\
    wrote (dst_len st) (dst_len st + 4 * Z.of_nat n) st st'.
Proof.
  induction n as [| n IH]; intros i st Hl Hfit; cbn [set_elems32].
  - split; [lia | apply wrote_refl].
  - set (st1 := set_dst_len (dst_len (htole32 (dst_len st) (nth i elems 0) st) + 4)
                  (htole32 (dst_len st) (nth i elems 0) st)).
    assert (L1 : dst_len st1 = dst_len st + 4).
    { unfold st1. cbn. apply u8_small. lia. }
    assert (W1 : wrote (dst_len st) (dst_len st + 4) st st1).
    { exists [(dst_len st + 3, u8 (Z.shiftr (nth i elems 0) 24));
              (dst_len st + 2, u8 (Z.shiftr (nth i elems 0) 16));
              (dst_len st + 1, u8 (Z.shiftr (nth i elems 0) 8));
              (dst_len st, u8 (nth i elems 0))].
      split; [reflexivity |]. repeat constructor; cbn [fst]; lia. }
    destruct (IH (S i) st1) as [L W]; [lia | lia |].
    cbv zeta in L, W. split; [lia |].
    eapply wrote_trans.
    + eapply wrote_weaken; [| | exact W1]; lia.
    + eapply wrote_weaken; [| | exact W]; lia.
Qed.

Lemma record_writer_array16 (type num : Z) (elems : list Z) :
  0 <= num * 2 < 256 ->
  record_writer max_len (2 + num * 2)
    (ble_hs_adv_set_array16 type num elems max_len).
Proof.
  intros Hn st Hst. unfold ble_hs_adv_set_array16.
  rewrite (u8_small (num * 2)) by exact Hn.
  destruct (Z_le_gt_dec (dst_len st + 2 + num * 2) max_len) as [Hfit | Hover].
  - left. rewrite set_hdr_fits by lia. cbn [fst snd].
    match goal with
    | |- context [set_elems16 elems 0 ?n ?s] =>
        destruct (set_elems16_wrote elems n 0%nat s) as [L W];
        [cbn [dst_len]; lia | cbn [dst_len]; rewrite Z2Nat.id by lia; lia |];
        set (st2 := set_elems16 elems 0 n s) in *
    end.
    cbv zeta in L, W. cbn [dst_len] in L, W.
    rewrite Z2Nat.id in L, W by lia.
    repeat split; try lia.
    destruct W as (new & Enew & Fnew). cbn [dst] in Enew.
    exists (new ++ [(dst_len st + 1, u8 type); (dst_len st, num * 2 + 1)]).
    split.
    + rewrite Enew, <- app_assoc. reflexivity.
    + apply Forall_app. split.
      * eapply Forall_impl; [| exact Fnew]. cbv beta. intros p Hp. lia.
      * repeat constructor; cbn [fst]; lia.
  - right. rewrite set_hdr_overflow by lia. simpl.
    repeat split. discriminate.
Qed.

Lemma fitting_writer_array16 (type num : Z) (elems : list Z) :
  0 <= num * 2 < 256 ->
  fitting_writer max_len (2 + num * 2)
    (ble_hs_adv_set_array16 type num elems max_len).
Proof.
  intros Hn st Hst Hfit. unfold ble_hs_adv_set_array16.
  rewrite (u8_small (num * 2)) by exact Hn.
  rewrite set_hdr_fits by lia. reflexivity.
Qed.

Lemma record_writer_array32 (type num : Z) (elems : list Z) :
  0 <= num * 4 < 256 ->
  record_writer max_len (2 + num * 4)
    (ble_hs_adv_set_array32 type num elems max_len).
Proof.
  intros Hn st Hst. unfold ble_hs_adv_set_array32.
  rewrite (u8_small (num * 4)) by exact Hn.
  destruct (Z_le_gt_dec (dst_len st + 2 + num * 4) max_len) as [Hfit | Hover].
  - left. rewrite set_hdr_fits by lia. cbn [fst snd].
    match goal with
    | |- context [set_elems32 elems 0 ?n ?s] =>
        destruct (set_elems32_wrote elems n 0%nat s) as [L W];
        [cbn [dst_len]; lia | cbn [dst_len]; rewrite Z2Nat.id by lia; lia |];
        set (st2 := set_elems32 elems 0 n s) in *
    end.
    cbv zeta in L, W. cbn [dst_len] in L, W.
    rewrite Z2Nat.id in L, W by lia.
    repeat split; try lia.
    destruct W as (new & Enew & Fnew). cbn [dst] in Enew.
    exists (new ++ [(dst_len st + 1, u8 type); (dst_len st, num * 4 + 1)]).
    split.
    + rewrite Enew, <- app_assoc. reflexivity.
    + apply Forall_app. split.
      * eapply Forall_impl; [| exact Fnew]. cbv beta. intros p Hp. lia.
      * repeat constructor; cbn [fst]; lia.
  - right. rewrite set_hdr_overflow by lia. simpl.
    repeat split. discriminate.
Qed.

Lemma fitting_writer_array32 (type num : Z) (elems : list Z) :
  0 <= num * 4 < 256 ->
  fitting_writer max_len (2 + num * 4)
    (ble_hs_adv_set_array32 type num elems max_len).
Proof.
  intros Hn st Hst Hfit. unfold ble_hs_adv_set_array32.
  rewrite (u8_small (num * 4)) by exact Hn.
  rewrite set_hdr_fits by lia. reflexivity.
Qed.

(** *** The writers of the individual fields *)

Variable f : ble_hs_adv_fields.

Lemma ok_skip : field_writer_ok K f max_len 0 skip.
Proof. split; [apply record_writer_skip | intros _; apply fitting_writer_skip]. Qed.

Lemma ok_flat (type len : Z) (data : list Z) :
  0 <= len < 256 ->
  field_writer_ok K f max_len (2 + len)
    (ble_hs_adv_set_flat K type len data max_len).
Proof.
  intros H. split;
    [apply record_writer_flat | intros _; apply fitting_writer_flat];
    exact H.
Qed.

Lemma ok_blob (type : Z) (p : ptr) (len : Z) :
  0 <= len < 256 ->
  field_writer_ok K f max_len (record_size (present p) len)
    (set_blob_field K max_len type p len).
Proof.
  intros H. destruct p as [data |]; cbn [present record_size set_blob_field].
  - apply ok_flat, H.
  - apply ok_skip.
Qed.

Lemma ok_uuids16 :
  0 <= num_uuids16 f * 2 < 256 ->
  field_writer_ok K f max_len
    (record_size (present (uuids16 f) && negb (num_uuids16 f =? 0))
       (num_uuids16 f * 2))
    (set_uuids16_field f max_len).
Proof.
  intros H. unfold set_uuids16_field.
  destruct (uuids16 f) as [elems |]; cbn [present andb];
    [| apply ok_skip].
  destruct (negb (num_uuids16 f =? 0)); cbn [record_size]; [| apply ok_skip].
  rewrite (u8_small (num_uuids16 f)) by lia.
  split; [apply record_writer_array16 | intros _; apply fitting_writer_array16];
    exact H.
Qed.

Lemma ok_uuids32 :
  0 <= num_uuids32 f * 4 < 256 ->
  field_writer_ok K f max_len
    (record_size (present (uuids32 f) && negb (num_uuids32 f =? 0))
       (num_uuids32 f * 4))
    (set_uuids32_field f max_len).
Proof.
  intros H. unfold set_uuids32_field.
  destruct (uuids32 f) as [elems |]; cbn [present andb];
    [| apply ok_skip].
  destruct (negb (num_uuids32 f =? 0)); cbn [record_size]; [| apply ok_skip].
  rewrite (u8_small (num_uuids32 f)) by lia.
  split; [apply record_writer_array32 | intros _; apply fitting_writer_array32];
    exact H.
Qed.

Lemma ok_uuids128 :
  0 <= num_uuids128 f * 16 < 256 ->
  field_writer_ok K f max_len
    (record_size (present (uuids128 f) && (num_uuids128 f >? 0))
       (num_uuids128 f * 16))
    (set_uuids128_field K f max_len).
Proof.
  intros H. unfold set_uuids128_field.
  destruct (uuids128 f) as [data |]; cbn [present andb]; [| apply ok_skip].
  destruct (num_uuids128 f >? 0); cbn [record_size]; [| apply ok_skip].
  apply ok_flat, H.
Qed.

Lemma ok_name :
  0 <= name_len f < 256 ->
  field_writer_ok K f max_len
    (record_size (present (name f) && (name_len f >? 0)) (name_len f))
    (set_name_field K f max_len).
Proof.
  intros H. unfold set_name_field.
  destruct (name f) as [data |]; cbn [present andb]; [| apply ok_skip].
  destruct (name_len f >? 0); cbn [record_size]; [| apply ok_skip].
  apply ok_flat, H.
Qed.

Lemma ok_tx_pwr_lvl :
  field_writer_ok K f max_len (record_size (tx_pwr_lvl_is_present f) 1)
    (set_tx_pwr_lvl_field K f max_len).
Proof.
  unfold set_tx_pwr_lvl_field.
  destruct (tx_pwr_lvl_is_present f) eqn:Ep; cbn [record_size];
    [| apply ok_skip].
  destruct (Z.eqb_spec (tx_pwr_lvl f) (BLE_HS_ADV_TX_PWR_LVL_AUTO K))
    as [Ha | Hn]; [| apply ok_flat; lia].
  destruct (ble_hs_hci_util_read_adv_tx_pwr K) as [e | lvl] eqn:Er;
    [| apply ok_flat; lia].
  split; [apply record_writer_fail |].
  intros Hk. destruct (Hk Ep Ha) as [lvl Hl].
  rewrite Er in Hl. discriminate Hl.
Qed.

Lemma ok_public_tgt_addr :
  0 <= BLE_HS_ADV_PUBLIC_TGT_ADDR_ENTRY_LEN K * num_public_tgt_addrs f < 256 ->
  field_writer_ok K f max_len
    (record_size
       (present (public_tgt_addr f) && negb (num_public_tgt_addrs f =? 0))
       (BLE_HS_ADV_PUBLIC_TGT_ADDR_ENTRY_LEN K * num_public_tgt_addrs f))
    (set_public_tgt_addr_field K f max_len).
Proof.
  intros H. unfold set_public_tgt_addr_field.
  destruct (public_tgt_addr f) as [data |]; cbn [present andb];
    [| apply ok_skip].
  destruct (negb (num_public_tgt_addrs f =? 0)); cbn [record_size];
    [| apply ok_skip].
  apply ok_flat, H.
Qed.

Lemma ok_appearance :
  field_writer_ok K f max_len
    (record_size (appearance_is_present f) BLE_HS_ADV_APPEARANCE_LEN)
    (set_appearance_field K f max_len).
Proof.
  unfold set_appearance_field.
  destruct (appearance_is_present f); cbn [record_size]; [| apply ok_skip].
  apply ok_flat. unfold BLE_HS_ADV_APPEARANCE_LEN. lia.
Qed.

Lemma ok_adv_itvl :
  field_writer_ok K f max_len (record_size (adv_itvl_is_present f) 2)
    (set_adv_itvl_field f max_len).
Proof.
  unfold set_adv_itvl_field.
  destruct (adv_itvl_is_present f); cbn [record_size]; [| apply ok_skip].
  change 2 with (1 * 2) at 2.
  split; [apply record_writer_array16 | intros _; apply fitting_writer_array16];
    lia.
Qed.

Lemma ok_le_role :
  field_writer_ok K f max_len
    (record_size (le_role_is_present f) BLE_HS_ADV_LE_ROLE_LEN)
    (set_le_role_field K f max_len).
Proof.
  unfold set_le_role_field.
  destruct (le_role_is_present f); cbn [record_size]; [| apply ok_skip].
  apply ok_flat. unfold BLE_HS_ADV_LE_ROLE_LEN. lia.
Qed.

Lemma field_writers_ok :
  lengths_fit K f ->
  Forall2 (field_writer_ok K f max_len) (field_sizes K f)
    (field_writers K f max_len).
Proof.
  unfold lengths_fit, field_sizes, field_writers. intros H.
  repeat match goal with
         | H : Forall _ (_ :: _) |- _ => inversion_clear H
         end.
  repeat (apply Forall2_cons;
          [first [ apply ok_uuids16 | apply ok_uuids32 | apply ok_uuids128
                 | apply ok_name | apply ok_tx_pwr_lvl
                 | apply ok_public_tgt_addr | apply ok_appearance
                 | apply ok_adv_itvl | apply ok_le_role | apply ok_blob ];
           assumption |]).
  apply Forall2_nil.
Qed.

Lemma record_size_nonneg (b : bool) (len : Z) :
  0 <= len -> 0 <= record_size b len.
Proof. intros H. destruct b; unfold record_size; lia. Qed.

Lemma field_sizes_nonneg :
  lengths_fit K f -> Forall (fun n => 0 <= n) (field_sizes K f).
Proof.
  unfold lengths_fit, field_sizes. intros H.
  repeat match goal with
         | H : Forall _ (_ :: _) |- _ => inversion_clear H
         end.
  unfold BLE_HS_ADV_APPEARANCE_LEN, BLE_HS_ADV_LE_ROLE_LEN.
  repeat (apply Forall_cons; [apply record_size_nonneg; lia |]).
  apply Forall_nil.
Qed.

(** *** The whole builder *)

Lemma sum_sizes_nonneg (ns : list Z) :
  Forall (fun n => 0 <= n) ns -> 0 <= sum_sizes ns.
Proof.
  induction 1 as [| n ns Hn _ IH]; unfold sum_sizes in *; simpl; lia.
Qed.

Lemma chain_ok (ns : list Z) (ws : list writer) :
  Forall2 (field_writer_ok K f max_len) ns ws ->
  Forall (fun n => 0 <= n) ns ->
  forall st,
    0 <= dst_len st <= max_len ->
    0 <= dst_len (snd (chain ws st)) <= max_len /\
    wrote 0 max_len st (snd (chain ws st)) /\
    (tx_pwr_known K f ->
     dst_len st + sum_sizes ns <= max_len ->
     fst (chain ws st) = None /\
     dst_len (snd (chain ws st)) = dst_len st + sum_sizes ns).
Proof.
  induction 1 as [| n w ns ws [Hrec Hfit] _ IH]; intros Hpos st Hst.
  - cbn [chain]. unfold skip, sum_sizes. cbn [fst snd fold_right].
    repeat split; try lia. apply wrote_refl.
  - inversion Hpos as [| ? ? Hn Hns]; subst.
    pose proof (sum_sizes_nonneg ns Hns) as Hsum.
    change (sum_sizes (n :: ns)) with (n + sum_sizes ns).
    rewrite chain_cons. unfold seq_w.
    specialize (Hrec st Hst).
    destruct (w st) as [[e |] st1] eqn:Ew; cbn [fst snd] in Hrec.
    + destruct Hrec as [(Hnone & _) | (_ & L & D)]; [discriminate |].
      cbn [fst snd]. split; [lia |].
      split; [apply wrote_same, D |].
      intros Hk Hall.
      assert (Hw : fst (w st) = None) by (apply Hfit; [exact Hk | lia | lia]).
      rewrite Ew in Hw. discriminate Hw.
    + destruct Hrec as [(_ & L & B & W) | (Hfail & _)];
        [| exfalso; apply Hfail; reflexivity].
      destruct (IH Hns st1) as (B1 & W1 & S1); [lia |].
      split; [exact B1 |]. split.
      * eapply wrote_trans; [| exact W1].
        eapply wrote_weaken; [| | exact W]; lia.
      * intros Hk Hall. rewrite L in S1.
        destruct (S1 Hk) as [R1 R2]; [lia |].
        split; [exact R1 | lia].
Qed.

Lemma flags_step (st : adv_dst) :
  0 <= dst_len st <= max_len ->
  let st' := snd (set_flags_field K f max_len st) in
  0 <= dst_len st' <= max_len /\
  wrote 0 max_len st st' /\
  (dst_len st + flags_size f <= max_len ->
   dst_len st' = dst_len st + flags_size f).
Proof.
  intros Hst. unfold set_flags_field, flags_size, unchecked, skip.
  destruct (flags_is_present f && negb (flags f =? 0));
    cbn [record_size fst snd].
  - assert (H1 : 0 <= 1 < 256) by lia.
    destruct (record_writer_flat BLE_HS_ADV_TYPE_FLAGS 1 [flags f] H1 st Hst)
      as [(_ & L & B & W) | (Hfail & L & D)].
    + split; [lia |]. split; [| intros; exact L].
      eapply wrote_weaken; [| | exact W]; lia.
    + split; [lia |]. split; [apply wrote_same, D |].
      intros Hfit. exfalso. apply Hfail.
      apply (fitting_writer_flat BLE_HS_ADV_TYPE_FLAGS 1 [flags f] H1);
        lia.
  - repeat split; try lia. apply wrote_refl.
Qed.

(** X1. When no payload length is truncated, every byte the builder stores
    goes to an index below [max_len] and the final [*dst_len] is at most
    [max_len], whether the call succeeds or fails partway. *)
Lemma set_fields_within_max_len (st : adv_dst) :
  lengths_fit K f ->
  let r := ble_hs_adv_set_fields K f max_len st in
  0 <= dst_len (snd r) <= max_len /\ wrote 0 max_len st (snd r).
Proof.
  intros Hfit. unfold ble_hs_adv_set_fields.
  rewrite advertise_on. cbn [negb].
  rewrite set_fields_after_flags_chain. unfold seq_w.
  set (st0 := set_dst_len 0 st).
  assert (L0 : dst_len st0 = 0) by reflexivity.
  destruct (flags_step st0) as (B1 & W1 & _); [lia |].
  pose proof (set_flags_field_status K f max_len st0) as Hs.
  destruct (set_flags_field K f max_len st0) as [r1 st1].
  cbn [fst snd] in *. subst r1.
  destruct (chain_ok _ _ (field_writers_ok Hfit) (field_sizes_nonneg Hfit)
              st1 B1) as (B2 & W2 & _).
  split; [exact B2 |].
  eapply wrote_trans; [| exact W2].
  eapply wrote_trans; [| exact W1].
  apply wrote_same. reflexivity.
Qed.

(** When moreover the tx-power level is known and the encoded size of the
    field set is at most [max_len], the builder returns 0 and leaves
    [*dst_len] equal to that size. *)
Lemma set_fields_succeeds (st : adv_dst) :
  lengths_fit K f ->
  tx_pwr_known K f ->
  encoded_size K f <= max_len ->
  let r := ble_hs_adv_set_fields K f max_len st in
  fst r = None /\ dst_len (snd r) = encoded_size K f.
Proof.
  intros Hfit Hk Hsize. unfold ble_hs_adv_set_fields.
  rewrite advertise_on. cbn [negb].
  rewrite set_fields_after_flags_chain. unfold seq_w.
  set (st0 := set_dst_len 0 st).
  assert (L0 : dst_len st0 = 0) by reflexivity.
  pose proof (sum_sizes_nonneg _ (field_sizes_nonneg Hfit)) as Hsum.
  unfold encoded_size in *.
  destruct (flags_step st0) as (B1 & _ & L1); [lia |].
  pose proof (set_flags_field_status K f max_len st0) as Hs.
  destruct (set_flags_field K f max_len st0) as [r1 st1].
  cbn [fst snd] in *. subst r1.
  rewrite L0 in L1. specialize (L1 ltac:(lia)).
  destruct (chain_ok _ _ (field_writers_ok Hfit) (field_sizes_nonneg Hfit)
              st1 B1) as (_ & _ & S).
  destruct (S Hk) as [R1 R2]; [lia |].
  split; [exact R1 | lia].
Qed.

End BuilderBounds.

(** ** The parser in general *)

Section ParserFacts.

Variable K : hs_config.
Variable mem : list Z.

(** X9. Whatever the source, a parse that returns leaves
    [uuids32_is_complete] at 0. *)
Lemma parse_fields_uuids32_is_complete (fuel : nat) (src_len : Z)
    (st : parse_st) (r : rc) (st' : parse_st) :
  ble_hs_adv_parse_fields K mem fuel src_len st = Some (r, st') ->
  uuids32_is_complete (adv_fields st') = false.
Proof.
  unfold ble_hs_adv_parse_fields. intros H.
  apply parse_loop_uuids32_is_complete in H. rewrite H. reflexivity.
Qed.

(** With no byte left for the length field the step fails with
    [BLE_HS_EMSGSIZE]. *)
Lemma parse_one_field_no_bytes (src : Z) (st : parse_st) :
  ble_hs_adv_parse_one_field K mem src 0 st = (Some BLE_HS_EMSGSIZE, st).
Proof. reflexivity. Qed.

(** X10. A first length byte below 0xFF that implies more bytes than
    remain makes the parse fail with [BLE_HS_EMSGSIZE]. *)
Lemma parse_fields_truncated_record (fuel : nat) (src_len : Z)
    (st : parse_st) :
  0 < src_len ->
  0 <= nth 0 mem 0 < 255 ->
  src_len < nth 0 mem 0 + 1 ->
  exists st',
    ble_hs_adv_parse_fields K mem (S fuel) src_len st
    = Some (Some BLE_HS_EMSGSIZE, st').
Proof.
  intros Hpos Hb Hshort.
  unfold ble_hs_adv_parse_fields. cbn [parse_loop].
  destruct (Z.gtb_spec src_len 0); [| lia].
  unfold ble_hs_adv_parse_one_field, rd.
  destruct (Z.ltb_spec src_len 1); [lia |].
  cbn [total_len set_total_len log_read Z.to_nat].
  rewrite (u8_small (nth 0 mem 0 + 1)) by lia.
  destruct (Z.ltb_spec src_len (nth 0 mem 0 + 1)); [| lia].
  eexists. reflexivity.
Qed.

(** A first length byte 0xFF makes the parse fail with [BLE_HS_EBADDATA]
    whatever the number of bytes that remain. *)
Lemma parse_fields_length_255 (fuel : nat) (src_len : Z) (st : parse_st) :
  BLE_HS_ADV_MAX_FIELD_SZ K < 254 ->
  0 < src_len ->
  nth 0 mem 0 = 255 ->
  exists st',
    ble_hs_adv_parse_fields K mem (S fuel) src_len st
    = Some (Some BLE_HS_EBADDATA, st').
Proof.
  intros Hmax Hpos Hb.
  unfold ble_hs_adv_parse_fields. cbn [parse_loop].
  destruct (Z.gtb_spec src_len 0); [| lia].
  unfold ble_hs_adv_parse_one_field, rd.
  destruct (Z.ltb_spec src_len 1); [lia |].
  cbn [total_len set_total_len log_read Z.to_nat]. rewrite Hb.
  change (u8 (255 + 1)) with 0. change (u8 (0 - 2)) with 254.
  destruct (Z.ltb_spec src_len 0); [lia |].
  destruct (Z.gtb_spec 254 (BLE_HS_ADV_MAX_FIELD_SZ K)); [| lia].
  eexists. reflexivity.
Qed.

(** A step that gets past the size test reads the byte after the length
    byte, also when the length byte says the record ends before it. *)
Lemma parse_one_field_reads_type (src src_len : Z) (st : parse_st) :
  1 <= src_len ->
  u8 (nth (Z.to_nat src) mem 0 + 1) <= src_len ->
  In (src + 1)
    (src_reads (snd (ble_hs_adv_parse_one_field K mem src src_len st))).
Proof.
  intros H1 Hfit. unfold ble_hs_adv_parse_one_field, rd.
  destruct (Z.ltb_spec src_len 1); [lia |].
  cbn [total_len set_total_len log_read].
  destruct (Z.ltb_spec src_len (u8 (nth (Z.to_nat src) mem 0 + 1))); [lia |].
  match goal with
  | |- context [if ?b then _ else _] => destruct b
  end.
  - left. reflexivity.
  - match goal with
    | |- context [parse_switch K mem ?t ?d ?l ?s] =>
        destruct (keeps_parse_switch K mem t d l s) as (_ & _ & I)
    end.
    apply I. left. reflexivity.
Qed.

(** In particular, when the last remaining byte is a length byte 0 or
    0xFF, the step reads one byte past the source. *)
Lemma parse_one_field_reads_past_last_byte (src : Z) (st : parse_st) :
  nth (Z.to_nat src) mem 0 = 0 \/ nth (Z.to_nat src) mem 0 = 255 ->
  In (src + 1)
    (src_reads (snd (ble_hs_adv_parse_one_field K mem src 1 st))).
Proof.
  intros [H | H]; apply parse_one_field_reads_type; try lia;
    rewrite H; vm_compute; discriminate.
Qed.

(** X11. A record whose payload is longer than [BLE_HS_ADV_MAX_FIELD_SZ]
    is rejected with [BLE_HS_EBADDATA] whatever its type. *)
Lemma parse_one_field_beyond_max (src src_len : Z) (st : parse_st) :
  is_u8 src_len ->
  1 <= nth (Z.to_nat src) mem 0 ->
  nth (Z.to_nat src) mem 0 + 1 <= src_len ->
  BLE_HS_ADV_MAX_FIELD_SZ K < nth (Z.to_nat src) mem 0 - 1 ->
  fst (ble_hs_adv_parse_one_field K mem src src_len st)
  = Some BLE_HS_EBADDATA.
Proof.
  unfold is_u8. intros Hu H1 Hfit Hmax.
  unfold ble_hs_adv_parse_one_field, rd.
  set (b := nth (Z.to_nat src) mem 0) in *.
  destruct (Z.ltb_spec src_len 1); [lia |].
  cbn [total_len set_total_len log_read].
  rewrite (u8_small (b + 1)) by lia.
  destruct (Z.ltb_spec src_len (b + 1)); [lia |].
  replace (b + 1 - 2) with (b - 1) by lia.
  rewrite (u8_small (b - 1)) by lia.
  destruct (Z.gtb_spec (b - 1) (BLE_HS_ADV_MAX_FIELD_SZ K)); [| lia].
  reflexivity.
Qed.

End ParserFacts.

(** ** Statuses of the builder *)

Section BuilderStatus.

Variable K : hs_config.











End BuilderStatus.

(** ** Statuses of the parser, and what a failed step leaves *)

Section ParserStatus.

Variable K : hs_config.
Variable mem : list Z.

Lemma fails_clean_uuids16 (data data_len : Z) (st : parse_st)
    (g : ble_hs_adv_fields -> ble_hs_adv_fields) :
  fails_clean st (and_then (ble_hs_adv_parse_uuids16 mem data data_len st) g).
Proof.
  unfold ble_hs_adv_parse_uuids16.
  destruct (negb (data_len mod 2 =? 0)); simpl; auto.
Qed.

Lemma fails_clean_uuids32 (data data_len : Z) (st : parse_st)
    (g : ble_hs_adv_fields -> ble_hs_adv_fields) :
  fails_clean st (and_then (ble_hs_adv_parse_uuids32 mem data data_len st) g).
Proof.
  unfold ble_hs_adv_parse_uuids32.
  destruct (negb (data_len mod 4 =? 0)); simpl; auto.
Qed.

Lemma fails_clean_parse_switch (type data data_len : Z) (st : parse_st) :
  fails_clean st (parse_switch K mem type data data_len st).
Proof.
  unfold parse_switch, bad_data.
  repeat match goal with
         | |- fails_clean _ (if ?b then _ else _) => destruct b
         end;
    first [ apply fails_clean_uuids16 | apply fails_clean_uuids32
          | exact I | split; reflexivity ].
Qed.

Lemma parse_one_field_outcome (src src_len : Z) (st : parse_st) :
  let r := ble_hs_adv_parse_one_field K mem src src_len st in
  parser_status (fst r) /\
  (fst r <> None -> same_output st (snd r)).
Proof.
  cbv zeta. unfold ble_hs_adv_parse_one_field, rd.
  destruct (src_len <? 1).
  { simpl. split; [auto | intros _; repeat split]. }
  cbn [total_len set_total_len log_read].
  match goal with |- context [if ?b then _ else _] => destruct b end.
  { simpl. split; [auto | intros _; repeat split]. }
  match goal with |- context [if ?b then _ else _] => destruct b end.
  { simpl. split; [auto | intros _; repeat split]. }
  match goal with
  | |- context [parse_switch K mem ?t ?d ?l ?s] =>
      pose proof (fails_clean_parse_switch t d l s) as H;
      destruct (parse_switch K mem t d l s) as [[e |] st1]
  end; simpl in *.
  - destruct H as [-> ->]. split; [auto | intros _; repeat split].
  - split; [exact I | intros H0; exfalso; apply H0; reflexivity].
Qed.

(** X5. When a step of the parser fails, the structure and the two UUID
    arrays are as they were before the step: a rejected record changes no
    field, not even one of those its case assigns before its length test
    could fail. *)
Theorem parse_one_field_failure_keeps_output (src src_len : Z)
    (st : parse_st) :
  match ble_hs_adv_parse_one_field K mem src src_len st with
  | (Some _, st') => same_output st st'
  | (None, _) => True
  end.
Proof.
  destruct (parse_one_field_outcome src src_len st) as [_ H].
  destruct (ble_hs_adv_parse_one_field K mem src src_len st) as [[e |] st'];
    simpl in H; [apply H; discriminate | exact I].
Qed.

(** X4. A parse of a whole buffer that returns, returns 0,
    [BLE_HS_EMSGSIZE] or [BLE_HS_EBADDATA], whatever the bytes. *)
Theorem parse_fields_status (fuel : nat) (src_len : Z) (st : parse_st) :
  match ble_hs_adv_parse_fields K mem fuel src_len st with
  | Some (r, _) => parser_status r
  | None => True
  end.
Proof.
  unfold ble_hs_adv_parse_fields.
  generalize (upd_fields (fun _ => fields_zero) st) as s.
  generalize 0 as src. revert src_len.
  induction fuel as [| fuel IH]; intros src_len src s; simpl.
  - exact I.
  - destruct (src_len >? 0); [| exact I].
    destruct (parse_one_field_outcome src src_len s) as [Hs _].
    destruct (ble_hs_adv_parse_one_field K mem src src_len s)
      as [[e |] s1]; simpl in Hs.
    + exact Hs.
    + apply IH.
Qed.

End ParserStatus.

(** ** Which records the parser accepts *)

Section ParserAccepts.

Variable K : hs_config.
Variable mem : list Z.

Lemma and_then_status (r : rc * parse_st)
    (g : ble_hs_adv_fields -> ble_hs_adv_fields) :
  fst (and_then r g) = fst r.
Proof. destruct r as [[e |] st]; reflexivity. Qed.

Lemma parse_uuids16_status (data data_len : Z) (st : parse_st) :
  fst (ble_hs_adv_parse_uuids16 mem data data_len st)
  = if data_len mod 2 =? 0 then None else Some BLE_HS_EBADDATA.
Proof.
  unfold ble_hs_adv_parse_uuids16.
  destruct (data_len mod 2 =? 0); reflexivity.
Qed.

Lemma parse_uuids32_status (data data_len : Z) (st : parse_st) :
  fst (ble_hs_adv_parse_uuids32 mem data data_len st)
  = if data_len mod 4 =? 0 then None else Some BLE_HS_EBADDATA.
Proof.
  unfold ble_hs_adv_parse_uuids32.
  destruct (data_len mod 4 =? 0); reflexivity.
Qed.

Lemma ltb_leb_flip (a b : Z) : (a <? b) = negb (b <=? a).
Proof. destruct (Z.ltb_spec a b), (Z.leb_spec b a); try reflexivity; lia. Qed.

Lemma parse_switch_status (type data data_len : Z) (st : parse_st) :
  fst (parse_switch K mem type data data_len st)
  = if length_rule K type data_len then None else Some BLE_HS_EBADDATA.
Proof.
  unfold parse_switch, length_rule, bad_data,
    BLE_HS_ADV_APPEARANCE_LEN, BLE_HS_ADV_ADV_ITVL_LEN.
  rewrite !ltb_leb_flip.
  repeat match goal with
         | |- fst (if negb ?c then _ else _) = _ =>
             destruct c eqn:?; cbn [orb negb]
         | |- fst (if ?b then _ else _) = _ =>
             destruct b eqn:?; cbn [orb negb]
         end;
    rewrite ?and_then_status, ?parse_uuids16_status, ?parse_uuids32_status;
    try match goal with
        | H : (type =? _) = true |- _ => apply Z.eqb_eq in H; subst type
        end;
    reflexivity.
Qed.

(** X6. For a record that fits the remaining bytes and whose payload is
    within [BLE_HS_ADV_MAX_FIELD_SZ], the step returns 0 exactly when the
    payload length satisfies the rule of the record's type, and
    [BLE_HS_EBADDATA] otherwise; the payload bytes play no part. *)
Theorem parse_one_field_length_rule (src src_len : Z) (st : parse_st) :
  is_u8 src_len ->
  1 <= nth (Z.to_nat src) mem 0 ->
  nth (Z.to_nat src) mem 0 + 1 <= src_len ->
  nth (Z.to_nat src) mem 0 - 1 <= BLE_HS_ADV_MAX_FIELD_SZ K ->
  fst (ble_hs_adv_parse_one_field K mem src src_len st)
  = if length_rule K (nth (Z.to_nat (src + 1)) mem 0)
         (nth (Z.to_nat src) mem 0 - 1)
    then None else Some BLE_HS_EBADDATA.
Proof.
  unfold is_u8. intros Hu H1 Hfit Hmax.
  unfold ble_hs_adv_parse_one_field, rd.
  set (b := nth (Z.to_nat src) mem 0) in *.
  destruct (Z.ltb_spec src_len 1); [lia |].
  cbn [total_len set_total_len log_read].
  rewrite (u8_small (b + 1)) by lia.
  destruct (Z.ltb_spec src_len (b + 1)); [lia |].
  replace (b + 1 - 2) with (b - 1) by lia.
  rewrite (u8_small (b - 1)) by lia.
  destruct (Z.gtb_spec (b - 1) (BLE_HS_ADV_MAX_FIELD_SZ K)); [lia |].
  apply parse_switch_status.
Qed.

End ParserAccepts.

(** A complete UUID16 list with a 3-byte payload is rejected. *)
Lemma parse_one_field_length_rule_witness :
  fst (ble_hs_adv_parse_one_field nimble [0x04; 0x03; 0x0A; 0x18; 0x0F] 0 5
         (parse_st_init nimble))
  = Some BLE_HS_EBADDATA.
Proof.
  assert (U : (0 <=? 5) && (5 <? 256) = true -> is_u8 5).
  { intros H. unfold is_u8. lia. }
  rewrite (parse_one_field_length_rule nimble
             [0x04; 0x03; 0x0A; 0x18; 0x0F] 0 5 (parse_st_init nimble)
             (U eq_refl)).
  - reflexivity.
  - vm_compute. discriminate.
  - vm_compute. discriminate.
  - vm_compute. discriminate.
Defined.

(** ** Which bytes of the source the parser reads *)

Lemma read_in_same (lo hi : Z) (st st' : parse_st) :
  src_reads st' = src_reads st -> read_in lo hi st st'.
Proof. intros H. exists []. split; [exact H | constructor]. Qed.

Lemma read_in_one (lo hi i : Z) (st st' : parse_st) :
  src_reads st' = i :: src_reads st -> lo <= i < hi -> read_in lo hi st st'.
Proof.
  intros H Hi. exists [i]. split; [exact H | repeat constructor; lia].
Qed.

Lemma read_in_two (lo hi i j : Z) (st st' : parse_st) :
  src_reads st' = j :: i :: src_reads st ->
  lo <= i < hi -> lo <= j < hi -> read_in lo hi st st'.
Proof.
  intros H Hi Hj. exists [j; i]. split; [exact H | repeat constructor; lia].
Qed.

Lemma read_in_trans (lo hi : Z) (a b c : parse_st) :
  read_in lo hi a b -> read_in lo hi b c -> read_in lo hi a c.
Proof.
  intros (n1 & E1 & F1) (n2 & E2 & F2).
  exists (n2 ++ n1). split.
  - rewrite E2, E1. apply app_assoc.
  - apply Forall_app. split; assumption.
Qed.

Lemma read_in_weaken (lo hi lo' hi' : Z) (a b : parse_st) :
  lo' <= lo -> hi <= hi' -> read_in lo hi a b -> read_in lo' hi' a b.
Proof.
  intros Hlo Hhi (n & E & F). exists n. split; [exact E |].
  eapply Forall_impl; [| exact F]. cbv beta. intros i Hi. lia.
Qed.

Section ParserReads.

Variable K : hs_config.
Variable mem : list Z.

Lemma read_in_parse_elems16 (data : Z) (n : nat) :
  forall (i : nat) (st : parse_st),
    read_in (data + Z.of_nat i * 2) (data + Z.of_nat (i + n) * 2) st
      (parse_elems16 mem data i n st).
Proof.
  induction n as [| n IH]; intros i st; cbn [parse_elems16].
  - apply read_in_same. reflexivity.
  - unfold le16toh, rd.
    eapply read_in_trans; [| eapply read_in_weaken; [| | apply IH]; lia].
    eapply read_in_two; [reflexivity | lia | lia].
Qed.

Lemma read_in_parse_elems32 (data : Z) (n : nat) :
  forall (i : nat) (st : parse_st),
    read_in (data + Z.of_nat i * 4) (data + Z.of_nat (i + n) * 4) st
      (parse_elems32 mem data i n st).
Proof.
  induction n as [| n IH]; intros i st; cbn [parse_elems32].
  - apply read_in_same. reflexivity.
  - unfold le32toh, rd.
    eapply read_in_trans; [| eapply read_in_weaken; [| | apply IH]; lia].
    exists [data + Z.of_nat i * 4 + 3; data + Z.of_nat i * 4 + 2;
            data + Z.of_nat i * 4 + 1; data + Z.of_nat i * 4].
    split; [reflexivity | repeat constructor; lia].
Qed.

Lemma read_in_and_then (lo hi : Z) (st : parse_st) (r : rc * parse_st)
    (g : ble_hs_adv_fields -> ble_hs_adv_fields) :
  read_in lo hi st (snd r) -> read_in lo hi st (snd (and_then r g)).
Proof.
  destruct r as [[e |] st1]; simpl; intros H; [exact H |].
  eapply read_in_trans; [exact H | apply read_in_same; reflexivity].
Qed.

Lemma read_in_parse_uuids16 (data data_len : Z) (st : parse_st) :
  0 <= data_len < 256 ->
  read_in data (data + data_len) st
    (snd (ble_hs_adv_parse_uuids16 mem data data_len st)).
Proof.
  intros H. unfold ble_hs_adv_parse_uuids16.
  destruct (negb (data_len mod 2 =? 0)); cbn [snd].
  - apply read_in_same. reflexivity.
  - cbn [adv_fields upd_fields num_uuids16 set_num_uuids16].
    assert (Hq : 0 <= data_len / 2 < 256 /\ data_len / 2 * 2 <= data_len).
    { split; [split |]; [apply Z.div_pos; lia
        | apply Z.div_lt_upper_bound; lia
        | rewrite Z.mul_comm; apply Z.mul_div_le; lia]. }
    rewrite (u8_small (data_len / 2)) by lia.
    eapply read_in_trans;
      [| eapply read_in_weaken; [| | apply read_in_parse_elems16]].
    + apply read_in_same. reflexivity.
    + lia.
    + cbn [Nat.add]. rewrite Z2Nat.id by lia. lia.
Qed.

Lemma read_in_parse_uuids32 (data data_len : Z) (st : parse_st) :
  0 <= data_len < 256 ->
  read_in data (data + data_len) st
    (snd (ble_hs_adv_parse_uuids32 mem data data_len st)).
Proof.
  intros H. unfold ble_hs_adv_parse_uuids32.
  destruct (negb (data_len mod 4 =? 0)); cbn [snd].
  - apply read_in_same. reflexivity.
  - cbn [adv_fields upd_fields num_uuids32 set_num_uuids32].
    assert (Hq : 0 <= data_len / 4 < 256 /\ data_len / 4 * 4 <= data_len).
    { split; [split |]; [apply Z.div_pos; lia
        | apply Z.div_lt_upper_bound; lia
        | rewrite Z.mul_comm; apply Z.mul_div_le; lia]. }
    rewrite (u8_small (data_len / 4)) by lia.
    eapply read_in_trans;
      [| eapply read_in_weaken; [| | apply read_in_parse_elems32]].
    + apply read_in_same. reflexivity.
    + lia.
    + cbn [Nat.add]. rewrite Z2Nat.id by lia. lia.
Qed.

(** The [switch] reads payload bytes only. *)
Lemma read_in_parse_switch (type data data_len : Z) (st : parse_st) :
  0 <= data_len < 256 ->
  read_in data (data + data_len) st
    (snd (parse_switch K mem type data data_len st)).
Proof.
  intros H.
  unfold parse_switch, bad_data, rd, le16toh,
    BLE_HS_ADV_FLAGS_LEN, BLE_HS_ADV_TX_PWR_LVL_LEN,
    BLE_HS_ADV_APPEARANCE_LEN, BLE_HS_ADV_ADV_ITVL_LEN,
    BLE_HS_ADV_LE_ROLE_LEN.
  repeat match goal with
         | |- read_in _ _ _ (snd (if negb (?a =? ?b) then _ else _)) =>
             destruct (Z.eqb_spec a b); cbn [negb]
         | |- read_in _ _ _ (snd (if ?b then _ else _)) => destruct b
         end;
    first
      [ apply read_in_same; reflexivity
      | apply read_in_and_then;
        first [apply read_in_parse_uuids16 | apply read_in_parse_uuids32];
        exact H
      | eapply read_in_one; [reflexivity | lia]
      | eapply read_in_two; [reflexivity | lia | lia] ].
Qed.

(** One step reads only among the first [max src_len 2] bytes at [src]. *)
Lemma read_in_parse_one_field (src src_len : Z) (st : parse_st) :
  BLE_HS_ADV_MAX_FIELD_SZ K < 254 ->
  read_in src (src + Z.max src_len 2) st
    (snd (ble_hs_adv_parse_one_field K mem src src_len st)).
Proof.
  intros Hmax. unfold ble_hs_adv_parse_one_field, rd.
  destruct (Z.ltb_spec src_len 1); [apply read_in_same; reflexivity |].
  cbn [total_len set_total_len log_read].
  set (b := nth (Z.to_nat src) mem 0).
  pose proof (u8_range (b + 1)) as Ht.
  destruct (Z.ltb_spec src_len (u8 (b + 1))).
  { eapply read_in_one; [reflexivity | lia]. }
  pose proof (u8_range (u8 (b + 1) - 2)) as Hd.
  destruct (Z.gtb_spec (u8 (u8 (b + 1) - 2)) (BLE_HS_ADV_MAX_FIELD_SZ K)).
  { eapply read_in_two; [reflexivity | lia | lia]. }
  assert (Htl : 2 <= u8 (b + 1)).
  { destruct (Z_lt_le_dec (u8 (b + 1)) 2) as [Hlt | Hge]; [| exact Hge].
    exfalso. unfold u8 in *.
    assert (Hw : (b + 1) mod 256 = 0 \/ (b + 1) mod 256 = 1) by lia.
    destruct Hw as [Hw | Hw]; rewrite Hw in *;
      [change ((0 - 2) mod 256) with 254 in *
      | change ((1 - 2) mod 256) with 255 in *]; lia. }
  assert (Hdl : u8 (u8 (b + 1) - 2) = u8 (b + 1) - 2)
    by (apply u8_small; lia).
  eapply read_in_trans;
    [| eapply read_in_weaken;
       [| | apply read_in_parse_switch; rewrite Hdl; lia]].
  - eapply read_in_two; [reflexivity | lia | lia].
  - lia.
  - rewrite Hdl. lia.
Qed.

Lemma read_in_parse_loop (fuel : nat) :
  BLE_HS_ADV_MAX_FIELD_SZ K < 254 ->
  forall (src src_len : Z) (st : parse_st) (r : rc) (st' : parse_st),
    0 <= src_len < 256 ->
    parse_loop K mem fuel src src_len st = Some (r, st') ->
    read_in src (src + src_len + 1) st st' /\
    (r = None -> read_in src (src + src_len) st st').
Proof.
  intros Hmax.
  induction fuel as [| fuel IH]; intros src src_len st r st' Hu H;
    cbn [parse_loop] in H.
  - discriminate.
  - destruct (Z.gtb_spec src_len 0) as [Hpos | Hz].
    + pose proof (read_in_parse_one_field src src_len st Hmax) as R.
      destruct (ble_hs_adv_parse_one_field K mem src src_len st)
        as [[e |] st1] eqn:E; cbn [snd] in R.
      * inversion H; subst. split; [| discriminate].
        eapply read_in_weaken; [| | exact R]; lia.
      * destruct (parse_one_field_consumes K mem _ _ _ _ Hmax E)
          as ((H2 & Hle) & _).
        rewrite (u8_small (src_len - total_len st1)) in H by lia.
        apply IH in H; [| lia]. destruct H as [Ha Hb].
        assert (R' : read_in src (src + src_len) st st1)
          by (eapply read_in_weaken; [| | exact R]; lia).
        split.
        -- eapply read_in_trans;
             [eapply read_in_weaken; [| | exact R']; lia |].
           eapply read_in_weaken; [| | exact Ha]; lia.
        -- intros Hr. eapply read_in_trans; [exact R' |].
           eapply read_in_weaken; [| | exact (Hb Hr)]; lia.
    + inversion H; subst.
      split; [| intros _]; apply read_in_same; reflexivity.
Qed.

(** X7. When [BLE_HS_ADV_MAX_FIELD_SZ] is below 254, a parse of [src_len]
    bytes reads no offset above [src_len], hence at most one byte past the
    source; and a parse that returns 0 has read only offsets below
    [src_len]. *)
Theorem parse_fields_reads (fuel : nat) (src_len : Z) (st : parse_st)
    (r : rc) (st' : parse_st) :
  BLE_HS_ADV_MAX_FIELD_SZ K < 254 ->
  is_u8 src_len ->
  ble_hs_adv_parse_fields K mem fuel src_len st = Some (r, st') ->
  read_in 0 (src_len + 1) st st' /\
  (r = None -> read_in 0 src_len st st').
Proof.
  intros Hmax Hu H. unfold ble_hs_adv_parse_fields in H.
  apply read_in_parse_loop in H; [| exact Hmax | exact Hu].
  destruct H as [Ha Hb]. split; [| intros Hr; specialize (Hb Hr)].
  - eapply read_in_trans; [apply read_in_same; reflexivity | exact Ha].
  - eapply read_in_trans; [apply read_in_same; reflexivity | exact Hb].
Qed.

End ParserReads.

(** The parse of 02 01 06 04 09 46 6F 6F returns 0 and reads below 8. *)
Lemma parse_fields_reads_witness :
  exists st',
    ble_hs_adv_parse_fields nimble
      [0x02; 0x01; 0x06; 0x04; 0x09; 0x46; 0x6F; 0x6F] 3 8
      (parse_st_init nimble) = Some (None, st') /\
    read_in 0 8 (parse_st_init nimble) st'.
Proof.
  assert (U : (0 <=? 8) && (8 <? 256) = true -> is_u8 8).
  { intros H. unfold is_u8. lia. }
  eexists. split; [vm_compute; reflexivity |].
  refine (proj2 (parse_fields_reads nimble
                   [0x02; 0x01; 0x06; 0x04; 0x09; 0x46; 0x6F; 0x6F]
                   3 8 (parse_st_init nimble) None _ _ (U eq_refl) _)
            eq_refl).
  - reflexivity.
  - vm_compute. reflexivity.
Defined.

(** ** The bytes the builder emits *)

Lemma append_log_app (a b : list Z) :
  forall (off : Z) (l : list (Z * Z)),
    append_log off (a ++ b) l
    = append_log (off + Z.of_nat (length a)) b (append_log off a l).
Proof.
  induction a as [| x a IH]; intros off l; cbn [app append_log length].
  - f_equal. lia.
  - rewrite IH. f_equal. lia.
Qed.

Lemma load_append_log_below (bs : list Z) :
  forall (off i : Z) (l : list (Z * Z)),
    i < off -> load (append_log off bs l) i = load l i.
Proof.
  induction bs as [| b bs IH]; intros off i l Hi; cbn [append_log].
  - reflexivity.
  - rewrite IH by lia. cbn [load].
    destruct (Z.eqb_spec off i); [lia | reflexivity].
Qed.

(** Reading back what [append_log] stored gives the bytes. *)
Lemma dst_bytes_from_append_log (bs : list Z) :
  forall (off : Z) (l : list (Z * Z)),
    dst_bytes_from (append_log off bs l) off (length bs) = Some bs.
Proof.
  induction bs as [| b bs IH]; intros off l;
    cbn [append_log length dst_bytes_from].
  - reflexivity.
  - rewrite load_append_log_below by lia. cbn [load].
    rewrite Z.eqb_refl, IH. reflexivity.
Qed.

Lemma payload_bytes_length (data : list Z) (len : Z) :
  0 <= len -> Z.of_nat (length (payload_bytes data len)) = len.
Proof.
  intros H. unfold payload_bytes.
  rewrite length_map, length_seq. lia.
Qed.

Lemma memcpy_log (off : Z) (data : list Z) (n : Z) (st : adv_dst) :
  dst (memcpy off data n st) = append_log off (payload_bytes data n) (dst st).
Proof.
  unfold memcpy, payload_bytes.
  assert (G : forall l k s,
             dst (fold_left
                    (fun s i => store (off + Z.of_nat i) (nth i data 0) s)
                    (seq k l) s)
             = append_log (off + Z.of_nat k)
                 (map (fun i => u8 (nth i data 0)) (seq k l)) (dst s)).
  { induction l as [| l IH]; intros k s; cbn [seq fold_left map append_log].
    - reflexivity.
    - rewrite IH. cbn [dst store]. f_equal. lia. }
  rewrite G. f_equal. lia.
Qed.

Section BuilderBytes.

Variable K : hs_config.
Variable max_len : Z.
Hypothesis advertise_on : NIMBLE_OPT_ADVERTISE K = true.
Hypothesis max_len_u8 : 0 <= max_len < 256.

Lemma emits_skip : emits max_len [] skip.
Proof.
  intros st H1 H2. unfold skip. cbn [fst snd length append_log].
  repeat split. lia.
Qed.

Lemma emits_flat (type len : Z) (data : list Z) :
  0 <= len < 256 ->
  emits max_len (flat_record type len data)
    (ble_hs_adv_set_flat K type len data max_len).
Proof.
  intros Hlen st H1 H2. unfold flat_record in *.
  cbn [length] in H2. rewrite !Nat2Z.inj_succ in H2.
  cbn [length]. rewrite !Nat2Z.inj_succ.
  rewrite payload_bytes_length in * by lia.
  unfold ble_hs_adv_set_flat.
  rewrite advertise_on. cbn [negb]. rewrite (u8_small len) by exact Hlen.
  set (st0 := BLE_HS_DBG_ASSERT (0 <? len) st).
  assert (E0 : dst_len st0 = dst_len st) by reflexivity.
  assert (D0 : dst st0 = dst st) by reflexivity.
  rewrite (set_hdr_fits max_len max_len_u8) by lia.
  cbn [fst snd].
  destruct (memcpy_wrote (dst_len st0 + 2) data len
              {| dst := (dst_len st0 + 1, u8 type) :: (dst_len st0, len + 1)
                        :: dst st0;
                 dst_len := dst_len st0 + 2;
                 dbg_assert_ok := dbg_assert_ok st0 |}) as [_ L].
  split; [reflexivity |]. split.
  - unfold set_dst_len. cbn [dst_len]. rewrite L. cbn [dst_len].
    rewrite E0. rewrite u8_small by lia. lia.
  - unfold set_dst_len. cbn [dst]. rewrite memcpy_log. cbn [dst dst_len].
    rewrite E0, D0. cbn [append_log].
    replace (dst_len st + 1 + 1) with (dst_len st + 2) by lia.
    reflexivity.
Qed.

Lemma set_elems16_log (elems : list Z) (n : nat) :
  forall (i : nat) (st : adv_dst),
    0 <= dst_len st ->
    dst_len st + 2 * Z.of_nat n <= max_len ->
    dst (set_elems16 elems i n st)
    = append_log (dst_len st)
        (flat_map (fun i => le16_bytes (nth i elems 0)) (seq i n)) (dst st).
Proof.
  induction n as [| n IH]; intros i st Hl Hfit;
    cbn [set_elems16 seq flat_map].
  - reflexivity.
  - rewrite IH.
    + unfold le16_bytes. cbn [app append_log].
      unfold set_dst_len, htole16, store. cbn [dst dst_len].
      rewrite (u8_small (dst_len st + 2)) by lia.
      replace (dst_len st + 1 + 1) with (dst_len st + 2) by lia.
      reflexivity.
    + unfold set_dst_len. cbn [dst_len]. apply u8_range.
    + unfold set_dst_len, htole16, store. cbn [dst_len].
      rewrite (u8_small (dst_len st + 2)) by lia. lia.
Qed.

Lemma set_elems32_log (elems : list Z) (n : nat) :
  forall (i : nat) (st : adv_dst),
    0 <= dst_len st ->
    dst_len st + 4 * Z.of_nat n <= max_len ->
    dst (set_elems32 elems i n st)
    = append_log (dst_len st)
        (flat_map (fun i => le32_bytes (nth i elems 0)) (seq i n)) (dst st).
Proof.
  induction n as [| n IH]; intros i st Hl Hfit;
    cbn [set_elems32 seq flat_map].
  - reflexivity.
  - rewrite IH.
    + unfold le32_bytes. cbn [app append_log].
      unfold set_dst_len, htole32, store. cbn [dst dst_len].
      rewrite (u8_small (dst_len st + 4)) by lia.
      replace (dst_len st + 1 + 1) with (dst_len st + 2) by lia.
      replace (dst_len st + 2 + 1) with (dst_len st + 3) by lia.
      replace (dst_len st + 3 + 1) with (dst_len st + 4) by lia.
      reflexivity.
    + unfold set_dst_len. cbn [dst_len]. apply u8_range.
    + unfold set_dst_len, htole32, store. cbn [dst_len].
      rewrite (u8_small (dst_len st + 4)) by lia. lia.
Qed.

Lemma flat_map_le16_length (elems : list Z) (l : list nat) :
  length (flat_map (fun i => le16_bytes (nth i elems 0)) l)
  = (2 * length l)%nat.
Proof.
  induction l as [| i l IH]; cbn [flat_map]; [reflexivity |].
  rewrite length_app, IH. unfold le16_bytes, le32_bytes. cbn [length]. lia.
Qed.

Lemma flat_map_le32_length (elems : list Z) (l : list nat) :
  length (flat_map (fun i => le32_bytes (nth i elems 0)) l)
  = (4 * length l)%nat.
Proof.
  induction l as [| i l IH]; cbn [flat_map]; [reflexivity |].
  rewrite length_app, IH. unfold le16_bytes, le32_bytes. cbn [length]. lia.
Qed.

Lemma emits_array16 (type num : Z) (elems : list Z) :
  0 <= num * 2 < 256 ->
  emits max_len (array16_record type num elems)
    (ble_hs_adv_set_array16 type num elems max_len).
Proof.
  intros Hn st H1 H2. unfold array16_record in *.
  cbn [length] in H2. rewrite !Nat2Z.inj_succ in H2.
  cbn [length]. rewrite !Nat2Z.inj_succ.
  rewrite flat_map_le16_length, length_seq in *.
  rewrite Nat2Z.inj_mul, Z2Nat.id in * by lia.
  unfold ble_hs_adv_set_array16.
  rewrite (u8_small (num * 2)) by exact Hn.
  rewrite (set_hdr_fits max_len max_len_u8) by lia.
  cbn [fst snd].
  match goal with
  | |- context [set_elems16 elems 0 ?n ?s] =>
      destruct (set_elems16_wrote max_len max_len_u8 elems n 0%nat s)
        as [L _];
      [cbn [dst_len]; lia | cbn [dst_len]; rewrite Z2Nat.id by lia; lia |];
      rewrite (set_elems16_log elems n 0%nat s);
      [| cbn [dst_len]; lia | cbn [dst_len]; rewrite Z2Nat.id by lia; lia]
  end.
  cbv zeta in L. rewrite L. cbn [dst dst_len append_log].
  rewrite Z2Nat.id by lia.
  replace (dst_len st + 1 + 1) with (dst_len st + 2) by lia.
  repeat split. change (Z.of_nat 2) with 2. lia.
Qed.

Lemma emits_array32 (type num : Z) (elems : list Z) :
  0 <= num * 4 < 256 ->
  emits max_len (array32_record type num elems)
    (ble_hs_adv_set_array32 type num elems max_len).
Proof.
  intros Hn st H1 H2. unfold array32_record in *.
  cbn [length] in H2. rewrite !Nat2Z.inj_succ in H2.
  cbn [length]. rewrite !Nat2Z.inj_succ.
  rewrite flat_map_le32_length, length_seq in *.
  rewrite Nat2Z.inj_mul, Z2Nat.id in * by lia.
  unfold ble_hs_adv_set_array32.
  rewrite (u8_small (num * 4)) by exact Hn.
  rewrite (set_hdr_fits max_len max_len_u8) by lia.
  cbn [fst snd].
  match goal with
  | |- context [set_elems32 elems 0 ?n ?s] =>
      destruct (set_elems32_wrote max_len max_len_u8 elems n 0%nat s)
        as [L _];
      [cbn [dst_len]; lia | cbn [dst_len]; rewrite Z2Nat.id by lia; lia |];
      rewrite (set_elems32_log elems n 0%nat s);
      [| cbn [dst_len]; lia | cbn [dst_len]; rewrite Z2Nat.id by lia; lia]
  end.
  cbv zeta in L. rewrite L. cbn [dst dst_len append_log].
  rewrite Z2Nat.id by lia.
  replace (dst_len st + 1 + 1) with (dst_len st + 2) by lia.
  repeat split. change (Z.of_nat 4) with 4. lia.
Qed.

(** *** The records of the individual fields *)

Variable f : ble_hs_adv_fields.

Lemma emits_blob (type : Z) (p : ptr) (len : Z) :
  0 <= len < 256 ->
  emits max_len (with_ptr p (flat_record type len))
    (set_blob_field K max_len type p len).
Proof.
  intros H. destruct p as [data |]; cbn [with_ptr set_blob_field].
  - apply emits_flat, H.
  - apply emits_skip.
Qed.

Lemma emits_tx_pwr_lvl :
  tx_pwr_known K f ->
  emits max_len
    (emitted (tx_pwr_lvl_is_present f)
       (flat_record BLE_HS_ADV_TYPE_TX_PWR_LVL 1 [tx_pwr_value K f]))
    (set_tx_pwr_lvl_field K f max_len).
Proof.
  intros Hk. unfold set_tx_pwr_lvl_field, tx_pwr_value.
  destruct (tx_pwr_lvl_is_present f) eqn:Ep; cbn [emitted];
    [| apply emits_skip].
  destruct (Z.eqb_spec (tx_pwr_lvl f) (BLE_HS_ADV_TX_PWR_LVL_AUTO K))
    as [Ha | Hn]; [| apply emits_flat; lia].
  destruct (Hk Ep Ha) as [lvl Hl]. rewrite Hl. apply emits_flat. lia.
Qed.

Lemma field_writers_emit :
  lengths_fit K f ->
  tx_pwr_known K f ->
  Forall2 (emits max_len) (field_records K f) (field_writers K f max_len).
Proof.
  unfold lengths_fit, field_records, field_writers. intros H Hk.
  repeat match goal with
         | H : Forall _ (_ :: _) |- _ => inversion_clear H
         end.
  unfold set_uuids16_field, set_uuids32_field, set_uuids128_field,
    set_name_field, set_public_tgt_addr_field, set_appearance_field,
    set_adv_itvl_field, set_le_role_field,
    BLE_HS_ADV_APPEARANCE_LEN, BLE_HS_ADV_LE_ROLE_LEN.
  cbv zeta.
  repeat (apply Forall2_cons;
          [first
             [ apply emits_tx_pwr_lvl; exact Hk
             | apply emits_blob; assumption
             | repeat match goal with
                      | |- emits _ (with_ptr ?p _) _ =>
                          destruct p; cbn [with_ptr]
                      | |- emits _ (emitted ?b _) _ =>
                          destruct b; cbn [emitted]
                      end;
               rewrite ?u8_small by lia;
               first [ apply emits_skip
                     | apply emits_flat; first [assumption | lia]
                     | apply emits_array16; first [assumption | lia]
                     | apply emits_array32; first [assumption | lia] ] ] |]).
  apply Forall2_nil.
Qed.

Lemma emits_chain (recs : list (list Z)) (ws : list writer) :
  Forall2 (emits max_len) recs ws ->
  emits max_len (concat recs) (chain ws).
Proof.
  induction 1 as [| r w recs ws Hw _ IH]; intros st H1 H2.
  - apply emits_skip; assumption.
  - cbn [concat] in *. rewrite length_app, Nat2Z.inj_add in *.
    rewrite chain_cons. unfold seq_w.
    destruct (Hw st H1) as (R & L & D); [lia |].
    destruct (w st) as [[e |] st1]; cbn [fst snd] in R, L, D;
      [discriminate |].
    destruct (IH st1) as (R2 & L2 & D2); [lia | lia |].
    split; [exact R2 |]. split; [lia |].
    rewrite D2, D, L, append_log_app. reflexivity.
Qed.

(** The flags record, when it fits, is what the flags statement stores
    at index 0. *)
Lemma set_flags_field_log (st : adv_dst) :
  Z.of_nat (length (flags_record f)) <= max_len ->
  fst (set_flags_field K f max_len (set_dst_len 0 st)) = None /\
  dst_len (snd (set_flags_field K f max_len (set_dst_len 0 st)))
  = Z.of_nat (length (flags_record f)) /\
  dst (snd (set_flags_field K f max_len (set_dst_len 0 st)))
  = append_log 0 (flags_record f) (dst st).
Proof.
  intros Hsize.
  set (st0 := set_dst_len 0 st).
  assert (L0 : dst_len st0 = 0) by reflexivity.
  assert (D0 : dst st0 = dst st) by reflexivity.
  unfold set_flags_field, flags_record, unchecked in *.
  destruct (flags_is_present f && negb (flags f =? 0));
    cbn [emitted fst snd] in *.
  - destruct (emits_flat BLE_HS_ADV_TYPE_FLAGS 1 [flags f]
                ltac:(lia) st0) as (_ & L & D); [lia | lia |].
    rewrite L, D, L0, D0. repeat split.
  - unfold skip. cbn [fst snd length append_log].
    rewrite L0, D0. repeat split.
Qed.

(** The status, the final cursor and the store log of the builder when
    the encoding fits. *)
Lemma set_fields_log (st : adv_dst) :
  lengths_fit K f ->
  tx_pwr_known K f ->
  Z.of_nat (length (encode K f)) <= max_len ->
  fst (ble_hs_adv_set_fields K f max_len st) = None /\
  dst_len (snd (ble_hs_adv_set_fields K f max_len st))
  = Z.of_nat (length (encode K f)) /\
  dst (snd (ble_hs_adv_set_fields K f max_len st))
  = append_log 0 (encode K f) (dst st).
Proof.
  intros Hfit Hk Hsize.
  unfold ble_hs_adv_set_fields.
  rewrite advertise_on. cbn [negb].
  rewrite set_fields_after_flags_chain. unfold seq_w.
  unfold encode in *. rewrite length_app, Nat2Z.inj_add in *.
  destruct (set_flags_field_log st) as (F1 & L1 & D1); [lia |].
  destruct (set_flags_field K f max_len (set_dst_len 0 st)) as [r1 st1].
  cbn [fst snd] in F1, L1, D1. subst r1.
  destruct (emits_chain _ _ (field_writers_emit Hfit Hk) st1)
    as (R2 & L2 & D2); [lia | lia |].
  split; [exact R2 |]. split; [lia |].
  rewrite D2, D1, L1, append_log_app. reflexivity.
Qed.


End BuilderBytes.

(** ** The general theorems, run on the scenario of flags and name *)

(** The name record of "Foo" does not fit 4 bytes after the flags. *)
Lemma set_fields_fail_fast_after_flags_witness :
  fst (ble_hs_adv_set_fields nimble fields_flags_foo 4 adv_dst_init)
  = Some BLE_HS_EMSGSIZE.
Proof.
  rewrite (set_fields_fail_fast_after_flags nimble fields_flags_foo 4
             adv_dst_init
             {| dst := [(2, 6); (1, 1); (0, 2)]; dst_len := 3;
                dbg_assert_ok := true |}
             {| dst := [(2, 6); (1, 1); (0, 2)]; dst_len := 3;
                dbg_assert_ok := true |}
             (firstn 3 (field_writers nimble fields_flags_foo 4))
             (set_name_field nimble fields_flags_foo 4)
             (skipn 4 (field_writers nimble fields_flags_foo 4))
             BLE_HS_EMSGSIZE eq_refl eq_refl eq_refl eq_refl).
  reflexivity.
Defined.

Lemma set_fields_within_max_len_witness :
  wrote 0 31 adv_dst_init
    (snd (ble_hs_adv_set_fields nimble fields_flags_foo 31 adv_dst_init)).
Proof.
  assert (H31 : 0 <= 31 < 256) by lia.
  refine (proj2 (set_fields_within_max_len nimble 31 eq_refl H31
                   fields_flags_foo adv_dst_init _)).
  unfold lengths_fit.
  repeat (apply Forall_cons; [vm_compute; split; [discriminate | reflexivity] |]).
  apply Forall_nil.
Defined.


Lemma parse_fields_uuids32_is_complete_witness :
  exists st',
    ble_hs_adv_parse_fields nimble [0x05; 0x05; 0x78; 0x56; 0x34; 0x12] 2 6
      (parse_st_init nimble) = Some (None, st') /\
    uuids32_is_complete (adv_fields st') = false.
Proof.
  eexists. split; [vm_compute; reflexivity |].
  eapply (parse_fields_uuids32_is_complete nimble
            [0x05; 0x05; 0x78; 0x56; 0x34; 0x12] 2 6 (parse_st_init nimble)
            None).
  vm_compute. reflexivity.
Defined.

(** A name record announcing 9 bytes when 4 remain. *)
Lemma parse_fields_truncated_record_witness :
  exists st',
    ble_hs_adv_parse_fields nimble [0x09; 0x09; 0x46; 0x6F] 1 4
      (parse_st_init nimble) = Some (Some BLE_HS_EMSGSIZE, st').
Proof.
  apply (parse_fields_truncated_record nimble [0x09; 0x09; 0x46; 0x6F]
           0%nat 4 (parse_st_init nimble));
    vm_compute; try (split; [discriminate | reflexivity]); reflexivity.
Defined.

Lemma parse_one_field_beyond_max_witness :
  fst (ble_hs_adv_parse_one_field nimble src_unknown_long 0 32
         (parse_st_init nimble))
  = Some BLE_HS_EBADDATA.
Proof.
  apply parse_one_field_beyond_max.
  - unfold is_u8. lia.
  - vm_compute. discriminate.
  - vm_compute. discriminate.
  - vm_compute. reflexivity.
Defined.

(** ** The parser, record by record *)

Lemma nth_at (pre l : list Z) (j : nat) :
  nth (Z.to_nat (Z.of_nat (length pre) + Z.of_nat j)) (pre ++ l) 0
  = nth j l 0.
Proof.
  replace (Z.to_nat (Z.of_nat (length pre) + Z.of_nat j))
    with (length pre + j)%nat by lia.
  apply app_nth2_plus.
Qed.

Lemma skipn_at (pre l : list Z) (j : nat) :
  skipn (Z.to_nat (Z.of_nat (length pre) + Z.of_nat j)) (pre ++ l)
  = skipn j l.
Proof.
  replace (Z.to_nat (Z.of_nat (length pre) + Z.of_nat j))
    with (length pre + j)%nat by lia.
  rewrite skipn_app, skipn_all2 by lia.
  replace (length pre + j - length pre)%nat with j by lia.
  reflexivity.
Qed.

Section ParserRecords.

Variable K : hs_config.

(** At a record that fits, the step reaches the [switch] with the type
    byte, the offset of the payload and the payload length. *)
Lemma parse_one_field_at (pre : list Z) (t : Z) (payload post : list Z)
    (rem : Z) (st : parse_st) :
  payload_len payload <= BLE_HS_ADV_MAX_FIELD_SZ K ->
  payload_len payload + 2 <= rem < 256 ->
  ble_hs_adv_parse_one_field K
    (pre ++ ((payload_len payload + 1) :: t :: payload) ++ post)
    (Z.of_nat (length pre)) rem st
  = parse_switch K
      (pre ++ ((payload_len payload + 1) :: t :: payload) ++ post) t
      (Z.of_nat (length pre) + 2) (payload_len payload)
      (log_read (Z.of_nat (length pre) + 1)
         (set_total_len (payload_len payload + 1 + 1)
            (log_read (Z.of_nat (length pre)) st))).
Proof.
  intros Hmax Hrem.
  assert (Hn : 0 <= payload_len payload) by (unfold payload_len; lia).
  unfold ble_hs_adv_parse_one_field, rd.
  destruct (Z.ltb_spec rem 1); [lia |].
  pose proof (nth_at pre (((payload_len payload + 1) :: t :: payload)
                            ++ post) 0) as H0.
  pose proof (nth_at pre (((payload_len payload + 1) :: t :: payload)
                            ++ post) 1) as H1.
  cbn [app nth] in H0, H1.
  change (Z.of_nat 0) with 0 in H0. rewrite Z.add_0_r in H0.
  change (Z.of_nat 1) with 1 in H1.
  cbn [app]. rewrite H0, H1.
  cbn [total_len set_total_len log_read].
  rewrite (u8_small (payload_len payload + 1 + 1)) by lia.
  destruct (Z.ltb_spec rem (payload_len payload + 1 + 1)); [lia |].
  replace (payload_len payload + 1 + 1 - 2) with (payload_len payload)
    by lia.
  rewrite (u8_small (payload_len payload)) by lia.
  destruct (Z.gtb_spec (payload_len payload) (BLE_HS_ADV_MAX_FIELD_SZ K));
    [lia |].
  reflexivity.
Qed.

(** What lies at the payload offset of a record. *)
Lemma view_at (pre : list Z) (a t : Z) (payload post : list Z) :
  view (pre ++ (a :: t :: payload) ++ post) (Z.of_nat (length pre) + 2)
  = Some (payload ++ post).
Proof.
  unfold view. f_equal.
  change 2 with (Z.of_nat 2). rewrite skipn_at. reflexivity.
Qed.

Lemma byte_at (pre : list Z) (a t : Z) (payload post : list Z) (j : nat) :
  (j < length payload)%nat ->
  nth (Z.to_nat (Z.of_nat (length pre) + 2 + Z.of_nat j))
    (pre ++ (a :: t :: payload) ++ post) 0
  = nth j payload 0.
Proof.
  intros Hj.
  replace (Z.of_nat (length pre) + 2 + Z.of_nat j)
    with (Z.of_nat (length pre) + Z.of_nat (S (S j))) by lia.
  rewrite nth_at. cbn [app nth]. apply app_nth1. exact Hj.
Qed.

Lemma byte_at0 (pre : list Z) (a t : Z) (payload post : list Z) :
  (0 < length payload)%nat ->
  nth (Z.to_nat (Z.of_nat (length pre) + 2))
    (pre ++ (a :: t :: payload) ++ post) 0
  = nth 0 payload 0.
Proof.
  intros H. rewrite <- (byte_at pre a t payload post 0 H).
  f_equal. lia.
Qed.

Lemma byte_at1 (pre : list Z) (a t : Z) (payload post : list Z) :
  (1 < length payload)%nat ->
  nth (Z.to_nat (Z.of_nat (length pre) + 2 + 1))
    (pre ++ (a :: t :: payload) ++ post) 0
  = nth 1 payload 0.
Proof.
  intros H. rewrite <- (byte_at pre a t payload post 1 H).
  reflexivity.
Qed.

(** Reduces the tests of the [switch] on the type byte [T]. *)
Ltac dispatch T :=
  unfold parse_switch;
  repeat match goal with
         | |- context [T =? ?c] =>
             let v := eval vm_compute in (T =? c) in
             change (T =? c) with v
         end;
  cbv beta iota.

Ltac decodes_intro :=
  split; [cbn [length]; lia |];
  intros pre post rem st Hrem;
  cbn [length] in Hrem; rewrite !Nat2Z.inj_succ in Hrem;
  cbn [length]; rewrite !Nat2Z.inj_succ.

Ltac decodes_tail :=
  cbv beta iota;
  eexists; split; [reflexivity |]; split;
  [ cbn [total_len upd_fields log_read set_total_len];
    unfold payload_len in *; rewrite u8_small by lia; lia
  | unfold output, on_fields;
    cbn [adv_fields ble_hs_adv_uuids16 ble_hs_adv_uuids32 upd_fields
           log_read set_total_len out_fields out_uuids16 out_uuids32];
    rewrite ?view_at, ?byte_at0, ?byte_at1
      by (unfold payload_len in *; lia);
    reflexivity ].

Ltac decodes_start :=
  decodes_intro;
  rewrite parse_one_field_at by (unfold payload_len in *; lia).

Lemma decodes_flags (payload : list Z) :
  payload_len payload = 1 ->
  1 <= BLE_HS_ADV_MAX_FIELD_SZ K ->
  decodes K ((payload_len payload + 1) :: BLE_HS_ADV_TYPE_FLAGS :: payload)
    (eff_flags payload).
Proof.
  intros H1 Hmax. decodes_start.
  dispatch BLE_HS_ADV_TYPE_FLAGS.
  replace (negb (payload_len payload =? BLE_HS_ADV_FLAGS_LEN)) with false
    by (rewrite H1; reflexivity).
  unfold rd, eff_flags. decodes_tail.
Qed.

Lemma decodes_uuids128 (c : bool) (payload : list Z) :
  payload_len payload mod 16 = 0 ->
  payload_len payload <= BLE_HS_ADV_MAX_FIELD_SZ K ->
  decodes K
    ((payload_len payload + 1)
       :: (if c then BLE_HS_ADV_TYPE_COMP_UUIDS128
           else BLE_HS_ADV_TYPE_INCOMP_UUIDS128) :: payload)
    (eff_uuids128 c payload).
Proof.
  intros Hmod Hmax. decodes_start.
  assert (Hq : u8 (payload_len payload / 16) = payload_len payload / 16).
  { apply u8_small. unfold payload_len in *. split.
    - apply Z.div_pos; lia.
    - apply Z.div_lt_upper_bound; lia. }
  destruct c;
    [dispatch BLE_HS_ADV_TYPE_COMP_UUIDS128
    | dispatch BLE_HS_ADV_TYPE_INCOMP_UUIDS128];
    rewrite Hmod; change (negb (0 =? 0)) with false;
    rewrite Hq; unfold eff_uuids128; decodes_tail.
Qed.

Lemma decodes_name (c : bool) (payload : list Z) :
  payload_len payload <= BLE_HS_ADV_MAX_FIELD_SZ K ->
  decodes K
    ((payload_len payload + 1)
       :: (if c then BLE_HS_ADV_TYPE_COMP_NAME
           else BLE_HS_ADV_TYPE_INCOMP_NAME) :: payload)
    (eff_name c payload).
Proof.
  intros Hmax. decodes_start.
  destruct c;
    [dispatch BLE_HS_ADV_TYPE_COMP_NAME
    | dispatch BLE_HS_ADV_TYPE_INCOMP_NAME];
    unfold eff_name; decodes_tail.
Qed.

Lemma decodes_tx_pwr_lvl (payload : list Z) :
  payload_len payload = 1 ->
  1 <= BLE_HS_ADV_MAX_FIELD_SZ K ->
  decodes K
    ((payload_len payload + 1) :: BLE_HS_ADV_TYPE_TX_PWR_LVL :: payload)
    (eff_tx_pwr_lvl payload).
Proof.
  intros H1 Hmax. decodes_start.
  dispatch BLE_HS_ADV_TYPE_TX_PWR_LVL.
  replace (negb (payload_len payload =? BLE_HS_ADV_TX_PWR_LVL_LEN)) with false
    by (rewrite H1; reflexivity).
  unfold rd, eff_tx_pwr_lvl. decodes_tail.
Qed.

Lemma decodes_device_class (payload : list Z) :
  payload_len payload = BLE_HS_ADV_DEVICE_CLASS_LEN K ->
  payload_len payload <= BLE_HS_ADV_MAX_FIELD_SZ K ->
  decodes K
    ((payload_len payload + 1) :: BLE_HS_ADV_TYPE_DEVICE_CLASS :: payload)
    (eff_device_class payload).
Proof.
  intros H1 Hmax. decodes_start.
  dispatch BLE_HS_ADV_TYPE_DEVICE_CLASS.
  rewrite <- H1, Z.eqb_refl. cbn [negb].
  unfold eff_device_class. decodes_tail.
Qed.

Lemma decodes_slave_itvl_range (payload : list Z) :
  payload_len payload = BLE_HS_ADV_SLAVE_ITVL_RANGE_LEN K ->
  payload_len payload <= BLE_HS_ADV_MAX_FIELD_SZ K ->
  decodes K
    ((payload_len payload + 1) :: BLE_HS_ADV_TYPE_SLAVE_ITVL_RANGE
       :: payload)
    (eff_slave_itvl_range payload).
Proof.
  intros H1 Hmax. decodes_start.
  dispatch BLE_HS_ADV_TYPE_SLAVE_ITVL_RANGE.
  rewrite <- H1, Z.eqb_refl. cbn [negb].
  unfold eff_slave_itvl_range. decodes_tail.
Qed.

Lemma decodes_svc_data_uuid16 (payload : list Z) :
  BLE_HS_ADV_SVC_DATA_UUID16_MIN_LEN K <= payload_len payload ->
  payload_len payload <= BLE_HS_ADV_MAX_FIELD_SZ K ->
  decodes K
    ((payload_len payload + 1) :: BLE_HS_ADV_TYPE_SVC_DATA_UUID16
       :: payload)
    (eff_svc_data_uuid16 payload).
Proof.
  intros H1 Hmax. decodes_start.
  dispatch BLE_HS_ADV_TYPE_SVC_DATA_UUID16.
  destruct (Z.ltb_spec (payload_len payload)
              (BLE_HS_ADV_SVC_DATA_UUID16_MIN_LEN K)); [lia |].
  unfold eff_svc_data_uuid16. decodes_tail.
Qed.

Lemma decodes_public_tgt_addr (payload : list Z) :
  0 < BLE_HS_ADV_PUBLIC_TGT_ADDR_ENTRY_LEN K ->
  payload_len payload mod BLE_HS_ADV_PUBLIC_TGT_ADDR_ENTRY_LEN K = 0 ->
  payload_len payload <= BLE_HS_ADV_MAX_FIELD_SZ K ->
  decodes K
    ((payload_len payload + 1) :: BLE_HS_ADV_TYPE_PUBLIC_TGT_ADDR
       :: payload)
    (eff_public_tgt_addr K payload).
Proof.
  intros Hpos Hmod Hmax. decodes_start.
  assert (Hq : u8 (payload_len payload
                   / BLE_HS_ADV_PUBLIC_TGT_ADDR_ENTRY_LEN K)
               = payload_len payload
                 / BLE_HS_ADV_PUBLIC_TGT_ADDR_ENTRY_LEN K).
  { apply u8_small. unfold payload_len in *. split.
    - apply Z.div_pos; lia.
    - apply Z.div_lt_upper_bound; nia. }
  dispatch BLE_HS_ADV_TYPE_PUBLIC_TGT_ADDR.
  rewrite Hmod. change (negb (0 =? 0)) with false.
  rewrite Hq. unfold eff_public_tgt_addr. decodes_tail.
Qed.

Lemma decodes_appearance (payload : list Z) :
  payload_len payload = 2 ->
  2 <= BLE_HS_ADV_MAX_FIELD_SZ K ->
  decodes K
    ((payload_len payload + 1) :: BLE_HS_ADV_TYPE_APPEARANCE :: payload)
    (eff_appearance payload).
Proof.
  intros H1 Hmax. decodes_start.
  dispatch BLE_HS_ADV_TYPE_APPEARANCE.
  replace (negb (payload_len payload =? BLE_HS_ADV_APPEARANCE_LEN)) with false
    by (rewrite H1; reflexivity).
  unfold le16toh, rd, eff_appearance, le16_of. decodes_tail.
Qed.

Lemma decodes_adv_itvl (payload : list Z) :
  payload_len payload = 2 ->
  2 <= BLE_HS_ADV_MAX_FIELD_SZ K ->
  decodes K
    ((payload_len payload + 1) :: BLE_HS_ADV_TYPE_ADV_ITVL :: payload)
    (eff_adv_itvl payload).
Proof.
  intros H1 Hmax. decodes_start.
  dispatch BLE_HS_ADV_TYPE_ADV_ITVL.
  replace (negb (payload_len payload =? BLE_HS_ADV_ADV_ITVL_LEN)) with false
    by (rewrite H1; reflexivity).
  unfold le16toh, rd, eff_adv_itvl, le16_of. decodes_tail.
Qed.

Lemma decodes_le_addr (payload : list Z) :
  payload_len payload = BLE_HS_ADV_LE_ADDR_LEN K ->
  payload_len payload <= BLE_HS_ADV_MAX_FIELD_SZ K ->
  decodes K
    ((payload_len payload + 1) :: BLE_HS_ADV_TYPE_LE_ADDR :: payload)
    (eff_le_addr payload).
Proof.
  intros H1 Hmax. decodes_start.
  dispatch BLE_HS_ADV_TYPE_LE_ADDR.
  rewrite <- H1, Z.eqb_refl. cbn [negb].
  unfold eff_le_addr. decodes_tail.
Qed.

Lemma decodes_le_role (payload : list Z) :
  payload_len payload = 1 ->
  1 <= BLE_HS_ADV_MAX_FIELD_SZ K ->
  decodes K
    ((payload_len payload + 1) :: BLE_HS_ADV_TYPE_LE_ROLE :: payload)
    (eff_le_role payload).
Proof.
  intros H1 Hmax. decodes_start.
  dispatch BLE_HS_ADV_TYPE_LE_ROLE.
  replace (negb (payload_len payload =? BLE_HS_ADV_LE_ROLE_LEN)) with false
    by (rewrite H1; reflexivity).
  unfold rd, eff_le_role. decodes_tail.
Qed.

Lemma decodes_svc_data_uuid32 (payload : list Z) :
  BLE_HS_ADV_SVC_DATA_UUID32_MIN_LEN K <= payload_len payload ->
  payload_len payload <= BLE_HS_ADV_MAX_FIELD_SZ K ->
  decodes K
    ((payload_len payload + 1) :: BLE_HS_ADV_TYPE_SVC_DATA_UUID32
       :: payload)
    (eff_svc_data_uuid32 payload).
Proof.
  intros H1 Hmax. decodes_start.
  dispatch BLE_HS_ADV_TYPE_SVC_DATA_UUID32.
  destruct (Z.ltb_spec (payload_len payload)
              (BLE_HS_ADV_SVC_DATA_UUID32_MIN_LEN K)); [lia |].
  unfold eff_svc_data_uuid32. decodes_tail.
Qed.

Lemma decodes_svc_data_uuid128 (payload : list Z) :
  BLE_HS_ADV_SVC_DATA_UUID128_MIN_LEN K <= payload_len payload ->
  payload_len payload <= BLE_HS_ADV_MAX_FIELD_SZ K ->
  decodes K
    ((payload_len payload + 1) :: BLE_HS_ADV_TYPE_SVC_DATA_UUID128
       :: payload)
    (eff_svc_data_uuid128 payload).
Proof.
  intros H1 Hmax. decodes_start.
  dispatch BLE_HS_ADV_TYPE_SVC_DATA_UUID128.
  destruct (Z.ltb_spec (payload_len payload)
              (BLE_HS_ADV_SVC_DATA_UUID128_MIN_LEN K)); [lia |].
  unfold eff_svc_data_uuid128. decodes_tail.
Qed.

Lemma decodes_uri (payload : list Z) :
  payload_len payload <= BLE_HS_ADV_MAX_FIELD_SZ K ->
  decodes K ((payload_len payload + 1) :: BLE_HS_ADV_TYPE_URI :: payload)
    (eff_uri payload).
Proof.
  intros Hmax. decodes_start.
  dispatch BLE_HS_ADV_TYPE_URI.
  unfold eff_uri. decodes_tail.
Qed.

Lemma decodes_mfg_data (payload : list Z) :
  payload_len payload <= BLE_HS_ADV_MAX_FIELD_SZ K ->
  decodes K
    ((payload_len payload + 1) :: BLE_HS_ADV_TYPE_MFG_DATA :: payload)
    (eff_mfg_data payload).
Proof.
  intros Hmax. decodes_start.
  dispatch BLE_HS_ADV_TYPE_MFG_DATA.
  unfold eff_mfg_data. decodes_tail.
Qed.

(** *** The UUID16 and UUID32 lists *)

Lemma parse_elems16_decode (mem payload : list Z) (data : Z) :
  (forall j, (j < length payload)%nat ->
             nth (Z.to_nat (data + Z.of_nat j)) mem 0 = nth j payload 0) ->
  forall (n i : nat) (st : parse_st) (F : ble_hs_adv_fields),
    adv_fields st = set_uuids16 (Some (ble_hs_adv_uuids16 st)) F ->
    (2 * (i + n) <= length payload)%nat ->
    let st' := parse_elems16 mem data i n st in
    adv_fields st'
    = set_uuids16 (Some (decode16 payload i n (ble_hs_adv_uuids16 st))) F /\
    ble_hs_adv_uuids16 st' = decode16 payload i n (ble_hs_adv_uuids16 st) /\
    ble_hs_adv_uuids32 st' = ble_hs_adv_uuids32 st /\
    total_len st' = total_len st.
Proof.
  intros Hmem. induction n as [| n IH]; intros i st F HF Hlen;
    cbn [parse_elems16 decode16].
  - cbv zeta. rewrite HF. repeat split.
  - unfold le16toh, rd. cbv beta iota.
    replace (data + Z.of_nat i * 2) with (data + Z.of_nat (2 * i)) by lia.
    replace (data + Z.of_nat (2 * i) + 1)
      with (data + Z.of_nat (2 * i + 1)) by lia.
    rewrite !Hmem by lia.
    fold (le16_of (nth (2 * i) payload 0) (nth (2 * i + 1) payload 0)).
    match goal with
    | |- context [parse_elems16 mem data (S i) n ?s] =>
        destruct (IH (S i) s F) as (A & B & C & D);
        [cbn [adv_fields store_uuids16 log_read ble_hs_adv_uuids16];
         rewrite HF; reflexivity
        | lia |]
    end.
    cbv zeta in A, B, C, D.
    cbn [store_uuids16 log_read ble_hs_adv_uuids16 ble_hs_adv_uuids32
           total_len] in A, B, C, D.
    cbv zeta. rewrite A, B, C, D. repeat split.
Qed.

Lemma parse_elems32_decode (mem payload : list Z) (data : Z) :
  (forall j, (j < length payload)%nat ->
             nth (Z.to_nat (data + Z.of_nat j)) mem 0 = nth j payload 0) ->
  forall (n i : nat) (st : parse_st) (F : ble_hs_adv_fields),
    adv_fields st = set_uuids32 (Some (ble_hs_adv_uuids32 st)) F ->
    (4 * (i + n) <= length payload)%nat ->
    let st' := parse_elems32 mem data i n st in
    adv_fields st'
    = set_uuids32 (Some (decode32 payload i n (ble_hs_adv_uuids32 st))) F /\
    ble_hs_adv_uuids32 st' = decode32 payload i n (ble_hs_adv_uuids32 st) /\
    ble_hs_adv_uuids16 st' = ble_hs_adv_uuids16 st /\
    total_len st' = total_len st.
Proof.
  intros Hmem. induction n as [| n IH]; intros i st F HF Hlen;
    cbn [parse_elems32 decode32].
  - cbv zeta. rewrite HF. repeat split.
  - unfold le32toh, rd. cbv beta iota.
    replace (data + Z.of_nat i * 4) with (data + Z.of_nat (4 * i)) by lia.
    replace (data + Z.of_nat (4 * i) + 1)
      with (data + Z.of_nat (4 * i + 1)) by lia.
    replace (data + Z.of_nat (4 * i) + 2)
      with (data + Z.of_nat (4 * i + 2)) by lia.
    replace (data + Z.of_nat (4 * i) + 3)
      with (data + Z.of_nat (4 * i + 3)) by lia.
    rewrite !Hmem by lia.
    fold (le32_of (nth (4 * i) payload 0) (nth (4 * i + 1) payload 0)
            (nth (4 * i + 2) payload 0) (nth (4 * i + 3) payload 0)).
    match goal with
    | |- context [parse_elems32 mem data (S i) n ?s] =>
        destruct (IH (S i) s F) as (A & B & C & D);
        [cbn [adv_fields store_uuids32 log_read ble_hs_adv_uuids32];
         rewrite HF; reflexivity
        | lia |]
    end.
    cbv zeta in A, B, C, D.
    cbn [store_uuids32 log_read ble_hs_adv_uuids16 ble_hs_adv_uuids32
           total_len] in A, B, C, D.
    cbv zeta. rewrite A, B, C, D. repeat split.
Qed.

Lemma payload_at (pre : list Z) (a t : Z) (payload post : list Z) :
  forall j, (j < length payload)%nat ->
    nth (Z.to_nat (Z.of_nat (length pre) + 2 + Z.of_nat j))
      (pre ++ (a :: t :: payload) ++ post) 0
    = nth j payload 0.
Proof. intros j Hj. apply byte_at, Hj. Qed.

Lemma decodes_uuids16 (c : bool) (payload : list Z) :
  payload_len payload mod 2 = 0 ->
  payload_len payload <= BLE_HS_ADV_MAX_FIELD_SZ K ->
  decodes K
    ((payload_len payload + 1)
       :: (if c then BLE_HS_ADV_TYPE_COMP_UUIDS16
           else BLE_HS_ADV_TYPE_INCOMP_UUIDS16) :: payload)
    (eff_uuids16 c payload).
Proof.
  intros Hmod Hmax. decodes_start.
  assert (Hb : 0 <= payload_len payload < 256)
    by (unfold payload_len in *; lia).
  assert (Hq : u8 (payload_len payload / 2) = payload_len payload / 2).
  { apply u8_small. split;
      [apply Z.div_pos; lia | apply Z.div_lt_upper_bound; lia]. }
  assert (Hn : (2 * (0 + Z.to_nat (payload_len payload / 2))
                <= length payload)%nat).
  { pose proof (Z.mul_div_le (payload_len payload) 2 ltac:(lia)) as Hd.
    assert (0 <= payload_len payload / 2) by (apply Z.div_pos; lia).
    unfold payload_len in *. lia. }
  assert (G : forall T st1,
             exists st',
               and_then
                 (ble_hs_adv_parse_uuids16
                    (pre ++ ((payload_len payload + 1) :: T :: payload)
                         ++ post)
                    (Z.of_nat (length pre) + 2) (payload_len payload) st1)
                 (set_uuids16_is_complete c) = (None, st') /\
               total_len st' = total_len st1 /\
               output st' = eff_uuids16 c payload post (output st1)).
  { intros T st1. unfold ble_hs_adv_parse_uuids16.
    rewrite Hmod. change (negb (0 =? 0)) with false. cbv iota.
    cbn [adv_fields upd_fields num_uuids16 set_num_uuids16]. rewrite Hq.
    match goal with
    | |- context [parse_elems16 ?m ?d 0 ?n ?s] =>
        destruct (parse_elems16_decode m payload d
                    (payload_at pre (payload_len payload + 1) T payload post)
                    n 0%nat s
                    (set_num_uuids16 (payload_len payload / 2)
                       (adv_fields st1)) eq_refl Hn) as (A & B & C & D);
        set (st2 := parse_elems16 m d 0 n s) in *
    end.
    cbv zeta in A, B, C, D.
    cbn [adv_fields ble_hs_adv_uuids16 ble_hs_adv_uuids32 total_len
           upd_fields] in A, B, C, D.
    unfold and_then. eexists. split; [reflexivity |].
    split; [cbn [total_len upd_fields]; exact D |].
    unfold output, eff_uuids16.
    cbn [adv_fields ble_hs_adv_uuids16 ble_hs_adv_uuids32 upd_fields
           out_fields out_uuids16 out_uuids32].
    rewrite A, B, C. reflexivity. }
  destruct c;
    [dispatch BLE_HS_ADV_TYPE_COMP_UUIDS16
    | dispatch BLE_HS_ADV_TYPE_INCOMP_UUIDS16];
    match goal with
    | |- context [ble_hs_adv_parse_uuids16 (_ ++ (_ :: ?T :: _) ++ _)
                    _ _ ?s] =>
        destruct (G T s) as (st' & E1 & E2 & E3)
    end;
    exists st'; (split; [exact E1 |]); (split; [| exact E3]);
    rewrite E2; cbn [total_len log_read set_total_len];
    unfold payload_len in *; rewrite u8_small by lia; lia.
Qed.

Lemma decodes_uuids32 (c : bool) (payload : list Z) :
  payload_len payload mod 4 = 0 ->
  payload_len payload <= BLE_HS_ADV_MAX_FIELD_SZ K ->
  decodes K
    ((payload_len payload + 1)
       :: (if c then BLE_HS_ADV_TYPE_COMP_UUIDS32
           else BLE_HS_ADV_TYPE_INCOMP_UUIDS32) :: payload)
    (eff_uuids32 c payload).
Proof.
  intros Hmod Hmax. decodes_start.
  assert (Hb : 0 <= payload_len payload < 256)
    by (unfold payload_len in *; lia).
  assert (Hq : u8 (payload_len payload / 4) = payload_len payload / 4).
  { apply u8_small. split;
      [apply Z.div_pos; lia | apply Z.div_lt_upper_bound; lia]. }
  assert (Hn : (4 * (0 + Z.to_nat (payload_len payload / 4))
                <= length payload)%nat).
  { pose proof (Z.mul_div_le (payload_len payload) 4 ltac:(lia)) as Hd.
    assert (0 <= payload_len payload / 4) by (apply Z.div_pos; lia).
    unfold payload_len in *. lia. }
  assert (G : forall T st1,
             exists st',
               and_then
                 (ble_hs_adv_parse_uuids32
                    (pre ++ ((payload_len payload + 1) :: T :: payload)
                         ++ post)
                    (Z.of_nat (length pre) + 2) (payload_len payload) st1)
                 (set_uuids16_is_complete c) = (None, st') /\
               total_len st' = total_len st1 /\
               output st' = eff_uuids32 c payload post (output st1)).
  { intros T st1. unfold ble_hs_adv_parse_uuids32.
    rewrite Hmod. change (negb (0 =? 0)) with false. cbv iota.
    cbn [adv_fields upd_fields num_uuids32 set_num_uuids32]. rewrite Hq.
    match goal with
    | |- context [parse_elems32 ?m ?d 0 ?n ?s] =>
        destruct (parse_elems32_decode m payload d
                    (payload_at pre (payload_len payload + 1) T payload post)
                    n 0%nat s
                    (set_num_uuids32 (payload_len payload / 4)
                       (adv_fields st1)) eq_refl Hn) as (A & B & C & D);
        set (st2 := parse_elems32 m d 0 n s) in *
    end.
    cbv zeta in A, B, C, D.
    cbn [adv_fields ble_hs_adv_uuids16 ble_hs_adv_uuids32 total_len
           upd_fields] in A, B, C, D.
    unfold and_then. eexists. split; [reflexivity |].
    split; [cbn [total_len upd_fields]; exact D |].
    unfold output, eff_uuids32.
    cbn [adv_fields ble_hs_adv_uuids16 ble_hs_adv_uuids32 upd_fields
           out_fields out_uuids16 out_uuids32].
    rewrite A, B, C. reflexivity. }
  destruct c;
    [dispatch BLE_HS_ADV_TYPE_COMP_UUIDS32
    | dispatch BLE_HS_ADV_TYPE_INCOMP_UUIDS32];
    match goal with
    | |- context [ble_hs_adv_parse_uuids32 (_ ++ (_ :: ?T :: _) ++ _)
                    _ _ ?s] =>
        destruct (G T s) as (st' & E1 & E2 & E3)
    end;
    exists st'; (split; [exact E1 |]); (split; [| exact E3]);
    rewrite E2; cbn [total_len log_read set_total_len];
    unfold payload_len in *; rewrite u8_small by lia; lia.
Qed.

End ParserRecords.

(** ** The parser on a sequence of records *)

Section ParserSequence.

Variable K : hs_config.

(** Over the concatenation of records that each decode, the loop returns
    0 within one iteration per record, and the output is that of the
    effects of the records in order. *)
Lemma parse_loop_items (items : list (list Z * effect)) :
  Forall (decodes_opt K) items ->
  forall (pre : list Z) (st : parse_st) (fuel : nat),
    Z.of_nat (length (concat (map fst items))) < 256 ->
    (length items < fuel)%nat ->
    exists st',
      parse_loop K (pre ++ concat (map fst items)) fuel
        (Z.of_nat (length pre))
        (Z.of_nat (length (concat (map fst items)))) st
      = Some (None, st') /\
      output st' = run_effects items (output st).
Proof.
  induction 1 as [| [bs e] tl Hhd _ IH]; intros pre st fuel Hlen Hfuel.
  - destruct fuel as [| fuel]; [cbn in Hfuel; lia |].
    cbn [map concat length parse_loop run_effects].
    change (Z.of_nat 0 >? 0) with false. cbv iota.
    exists st. split; reflexivity.
  - cbn [map concat fst length run_effects] in *.
    destruct Hhd as [[Hbs He] | [H2 Hdec]]; cbn [fst snd] in *.
    + subst bs. cbn [app]. rewrite He.
      apply IH; [exact Hlen | lia].
    + destruct fuel as [| fuel]; [lia |].
      rewrite length_app, Nat2Z.inj_add in *.
      cbn [parse_loop].
      destruct (Z.gtb_spec (Z.of_nat (length bs)
                            + Z.of_nat (length (concat (map fst tl)))) 0);
        [| lia].
      destruct (Hdec pre (concat (map fst tl))
                  (Z.of_nat (length bs)
                   + Z.of_nat (length (concat (map fst tl)))) st)
        as (st1 & E & T & O); [lia |].
      rewrite E, T.
      replace (Z.of_nat (length bs)
               + Z.of_nat (length (concat (map fst tl)))
               - Z.of_nat (length bs))
        with (Z.of_nat (length (concat (map fst tl)))) by lia.
      rewrite u8_small by lia.
      destruct (IH (pre ++ bs) st1 fuel) as (st' & E' & O');
        [lia | lia |].
      rewrite length_app, Nat2Z.inj_add, <- app_assoc in E'.
      exists st'. split; [exact E' |].
      rewrite O', O. reflexivity.
Qed.

End ParserSequence.

(** ** Little-endian elements, written and read back *)

Lemma testbit_above (x : Z) (n m : Z) :
  0 <= x < 2 ^ n -> 0 <= n <= m -> Z.testbit x m = false.
Proof.
  intros Hx Hn.
  rewrite <- (Z.mod_small x (2 ^ n)) by exact Hx.
  apply Z.mod_pow2_bits_high. lia.
Qed.

Lemma le16_of_bytes (x : Z) :
  0 <= x < 65536 -> le16_of (u8 x) (u8 (Z.shiftr x 8)) = x.
Proof.
  intros Hx. unfold le16_of, u8. change 256 with (2 ^ 8).
  apply Z.bits_inj'. intros n Hn.
  rewrite Z.lor_spec, Z.shiftl_spec by lia.
  destruct (Z_lt_le_dec n 8) as [Hlo | Hhi].
  - rewrite Z.mod_pow2_bits_low by lia.
    rewrite (Z.testbit_neg_r _ (n - 8)) by lia.
    apply orb_false_r.
  - rewrite Z.mod_pow2_bits_high by lia. cbn [orb].
    destruct (Z_lt_le_dec (n - 8) 8) as [Hlo2 | Hhi2].
    + rewrite Z.mod_pow2_bits_low, Z.shiftr_spec by lia.
      f_equal. lia.
    + rewrite Z.mod_pow2_bits_high by lia.
      symmetry. apply (testbit_above x 16); [exact Hx | lia].
Qed.

Lemma le32_of_bytes (x : Z) :
  0 <= x < 4294967296 ->
  le32_of (u8 x) (u8 (Z.shiftr x 8)) (u8 (Z.shiftr x 16))
    (u8 (Z.shiftr x 24)) = x.
Proof.
  intros Hx. unfold le32_of, u8. change 256 with (2 ^ 8).
  apply Z.bits_inj'. intros n Hn.
  rewrite !Z.lor_spec, !Z.shiftl_spec by lia.
  destruct (Z_lt_le_dec n 8) as [H8 | H8].
  { rewrite Z.mod_pow2_bits_low by lia.
    rewrite (Z.testbit_neg_r _ (n - 8)), (Z.testbit_neg_r _ (n - 16)),
      (Z.testbit_neg_r _ (n - 24)) by lia.
    rewrite !orb_false_r. reflexivity. }
  rewrite (Z.mod_pow2_bits_high x) by lia. cbn [orb].
  destruct (Z_lt_le_dec n 16) as [H16 | H16].
  { rewrite Z.mod_pow2_bits_low, Z.shiftr_spec by lia.
    rewrite (Z.testbit_neg_r _ (n - 16)), (Z.testbit_neg_r _ (n - 24))
      by lia.
    rewrite !orb_false_r. f_equal. lia. }
  rewrite (Z.mod_pow2_bits_high (Z.shiftr x 8)) by lia. cbn [orb].
  destruct (Z_lt_le_dec n 24) as [H24 | H24].
  { rewrite Z.mod_pow2_bits_low, Z.shiftr_spec by lia.
    rewrite (Z.testbit_neg_r _ (n - 24)) by lia.
    rewrite !orb_false_r. f_equal. lia. }
  rewrite (Z.mod_pow2_bits_high (Z.shiftr x 16)) by lia. cbn [orb].
  destruct (Z_lt_le_dec n 32) as [H32 | H32].
  { rewrite Z.mod_pow2_bits_low, Z.shiftr_spec by lia. f_equal. lia. }
  rewrite Z.mod_pow2_bits_high by lia.
  symmetry. apply (testbit_above x 32); [exact Hx | lia].
Qed.

Lemma list_set_length (a : list Z) :
  forall (i : nat) (v : Z), length (list_set a i v) = length a.
Proof.
  induction a as [| x a IH]; intros [| i] v; cbn [list_set length];
    try reflexivity.
  rewrite IH. reflexivity.
Qed.

Lemma firstn_list_set (a : list Z) :
  forall (i : nat) (v : Z),
    (i < length a)%nat ->
    firstn (S i) (list_set a i v) = firstn i a ++ [v].
Proof.
  induction a as [| x a IH]; intros [| i] v Hi; cbn [length] in Hi;
    try lia.
  - reflexivity.
  - cbn [list_set]. rewrite firstn_cons, IH by lia. reflexivity.
Qed.

Lemma map_nth_seq (d : list Z) (n : nat) :
  (n <= length d)%nat -> map (fun k => nth k d 0) (seq 0 n) = firstn n d.
Proof.
  revert d. induction n as [| n IH]; intros d Hn.
  - reflexivity.
  - destruct d as [| x d]; [cbn [length] in Hn; lia |].
    cbn [seq map nth firstn]. f_equal.
    rewrite <- seq_shift, map_map. cbn [nth].
    apply IH. cbn [length] in Hn. lia.
Qed.

Lemma decode16_prefix (payload : list Z) (vals : nat -> Z) :
  (forall k, vals k
             = le16_of (nth (2 * k) payload 0) (nth (2 * k + 1) payload 0)) ->
  forall (n i : nat) (a : list Z),
    (i + n <= length a)%nat ->
    firstn i a = map vals (seq 0 i) ->
    firstn (i + n) (decode16 payload i n a) = map vals (seq 0 (i + n)).
Proof.
  intros Hv. induction n as [| n IH]; intros i a Hlen Hpre;
    cbn [decode16].
  - rewrite Nat.add_0_r. exact Hpre.
  - replace (i + S n)%nat with (S i + n)%nat by lia.
    apply IH.
    + rewrite list_set_length. lia.
    + rewrite firstn_list_set by lia.
      rewrite seq_S, map_app, Hpre. cbn [map Nat.add]. rewrite <- Hv.
      reflexivity.
Qed.

Lemma decode32_prefix (payload : list Z) (vals : nat -> Z) :
  (forall k, vals k
             = le32_of (nth (4 * k) payload 0) (nth (4 * k + 1) payload 0)
                 (nth (4 * k + 2) payload 0) (nth (4 * k + 3) payload 0)) ->
  forall (n i : nat) (a : list Z),
    (i + n <= length a)%nat ->
    firstn i a = map vals (seq 0 i) ->
    firstn (i + n) (decode32 payload i n a) = map vals (seq 0 (i + n)).
Proof.
  intros Hv. induction n as [| n IH]; intros i a Hlen Hpre;
    cbn [decode32].
  - rewrite Nat.add_0_r. exact Hpre.
  - replace (i + S n)%nat with (S i + n)%nat by lia.
    apply IH.
    + rewrite list_set_length. lia.
    + rewrite firstn_list_set by lia.
      rewrite seq_S, map_app, Hpre. cbn [map Nat.add]. rewrite <- Hv.
      reflexivity.
Qed.

Lemma flat_map_le16_nth (d : list Z) (n : nat) :
  forall (s k : nat),
    (k < n)%nat ->
    nth (2 * k)
      (flat_map (fun i => le16_bytes (nth i d 0)) (seq s n)) 0
    = u8 (nth (s + k) d 0) /\
    nth (2 * k + 1)
      (flat_map (fun i => le16_bytes (nth i d 0)) (seq s n)) 0
    = u8 (Z.shiftr (nth (s + k) d 0) 8).
Proof.
  induction n as [| n IH]; intros s k Hk; [lia |].
  cbn [seq flat_map]. unfold le16_bytes at 1 3. cbn [app].
  destruct k as [| k].
  - rewrite Nat.add_0_r. split; reflexivity.
  - replace (2 * S k)%nat with (S (S (2 * k))) by lia.
    replace (S (S (2 * k)) + 1)%nat with (S (S (2 * k + 1))) by lia.
    cbn [nth].
    replace (s + S k)%nat with (S s + k)%nat by lia.
    apply IH. lia.
Qed.

Lemma flat_map_le32_nth (d : list Z) (n : nat) :
  forall (s k : nat),
    (k < n)%nat ->
    let p := flat_map (fun i => le32_bytes (nth i d 0)) (seq s n) in
    nth (4 * k) p 0 = u8 (nth (s + k) d 0) /\
    nth (4 * k + 1) p 0 = u8 (Z.shiftr (nth (s + k) d 0) 8) /\
    nth (4 * k + 2) p 0 = u8 (Z.shiftr (nth (s + k) d 0) 16) /\
    nth (4 * k + 3) p 0 = u8 (Z.shiftr (nth (s + k) d 0) 24).
Proof.
  induction n as [| n IH]; intros s k Hk; [lia |].
  cbn [seq flat_map]. unfold le32_bytes at 1. cbn [app]. cbv zeta.
  destruct k as [| k].
  - rewrite Nat.add_0_r. repeat split; reflexivity.
  - replace (4 * S k)%nat with (S (S (S (S (4 * k))))) by lia.
    replace (S (S (S (S (4 * k)))) + 1)%nat
      with (S (S (S (S (4 * k + 1))))) by lia.
    replace (S (S (S (S (4 * k)))) + 2)%nat
      with (S (S (S (S (4 * k + 2))))) by lia.
    replace (S (S (S (S (4 * k)))) + 3)%nat
      with (S (S (S (S (4 * k + 3))))) by lia.
    cbn [nth].
    replace (s + S k)%nat with (S s + k)%nat by lia.
    apply IH. lia.
Qed.

(** A list of 16-bit elements written by the array writer and decoded by
    the parser into an array that is long enough is read back. *)
Lemma decode16_round_trip (d a : list Z) (n : nat) :
  (n <= length d)%nat ->
  Forall (fun x => 0 <= x < 65536) (firstn n d) ->
  (n <= length a)%nat ->
  firstn n
    (decode16 (flat_map (fun i => le16_bytes (nth i d 0)) (seq 0 n)) 0 n a)
  = firstn n d.
Proof.
  intros Hd Hr Ha.
  rewrite <- (map_nth_seq d n Hd).
  set (p := flat_map (fun i => le16_bytes (nth i d 0)) (seq 0 n)).
  set (vals := fun k => le16_of (nth (2 * k) p 0) (nth (2 * k + 1) p 0)).
  change n with (0 + n)%nat at 1.
  rewrite (decode16_prefix p vals (fun k => eq_refl) n 0 a Ha eq_refl).
  cbn [Nat.add]. apply map_ext_in. intros k Hk.
  apply in_seq in Hk. unfold vals, p.
  destruct (flat_map_le16_nth d n 0 k ltac:(lia)) as [E0 E1].
  rewrite E0, E1. cbn [Nat.add]. apply le16_of_bytes.
  rewrite Forall_forall in Hr. apply Hr.
  rewrite <- (map_nth_seq d n Hd). apply in_map_iff.
  exists k. split; [reflexivity | apply in_seq; lia].
Qed.

Lemma decode32_round_trip (d a : list Z) (n : nat) :
  (n <= length d)%nat ->
  Forall (fun x => 0 <= x < 4294967296) (firstn n d) ->
  (n <= length a)%nat ->
  firstn n
    (decode32 (flat_map (fun i => le32_bytes (nth i d 0)) (seq 0 n)) 0 n a)
  = firstn n d.
Proof.
  intros Hd Hr Ha.
  rewrite <- (map_nth_seq d n Hd).
  set (p := flat_map (fun i => le32_bytes (nth i d 0)) (seq 0 n)).
  set (vals := fun k => le32_of (nth (4 * k) p 0) (nth (4 * k + 1) p 0)
                          (nth (4 * k + 2) p 0) (nth (4 * k + 3) p 0)).
  change n with (0 + n)%nat at 1.
  rewrite (decode32_prefix p vals (fun k => eq_refl) n 0 a Ha eq_refl).
  cbn [Nat.add]. apply map_ext_in. intros k Hk.
  apply in_seq in Hk. unfold vals, p.
  destruct (flat_map_le32_nth d n 0 k ltac:(lia)) as (E0 & E1 & E2 & E3).
  rewrite E0, E1, E2, E3. cbn [Nat.add]. apply le32_of_bytes.
  rewrite Forall_forall in Hr. apply Hr.
  rewrite <- (map_nth_seq d n Hd). apply in_map_iff.
  exists k. split; [reflexivity | apply in_seq; lia].
Qed.

(** Bytes copied by [memcpy] from cells that hold bytes are those cells. *)
Lemma payload_bytes_firstn (d : list Z) (len : Z) :
  cells_ok 256 len d ->
  payload_bytes d len = firstn (Z.to_nat len) d.
Proof.
  intros [Hlen Hr]. unfold payload_bytes.
  rewrite <- (map_nth_seq d _ Hlen).
  apply map_ext_in. intros k Hk. apply in_seq in Hk.
  apply u8_small.
  rewrite Forall_forall in Hr. apply Hr.
  rewrite <- (map_nth_seq d _ Hlen). apply in_map_iff.
  exists k. split; [reflexivity | apply in_seq; lia].
Qed.

(** ** The records of a representable field set decode *)

Lemma payload_len_bytes (d : list Z) (len : Z) :
  0 <= len -> payload_len (payload_bytes d len) = len.
Proof. intros H. unfold payload_len. apply payload_bytes_length, H. Qed.

Lemma flat_record_shape (T len : Z) (d : list Z) :
  0 <= len -> u8 T = T ->
  flat_record T len d
  = (payload_len (payload_bytes d len) + 1) :: T :: payload_bytes d len.
Proof.
  intros Hlen HT. unfold flat_record.
  rewrite payload_len_bytes, HT by exact Hlen. reflexivity.
Qed.

Lemma payload_len_le16 (d : list Z) (num : Z) :
  0 <= num ->
  payload_len
    (flat_map (fun i => le16_bytes (nth i d 0)) (seq 0 (Z.to_nat num)))
  = num * 2.
Proof.
  intros H. unfold payload_len.
  rewrite flat_map_le16_length, length_seq. lia.
Qed.

Lemma payload_len_le32 (d : list Z) (num : Z) :
  0 <= num ->
  payload_len
    (flat_map (fun i => le32_bytes (nth i d 0)) (seq 0 (Z.to_nat num)))
  = num * 4.
Proof.
  intros H. unfold payload_len.
  rewrite flat_map_le32_length, length_seq. lia.
Qed.

Lemma array16_record_shape (T num : Z) (d : list Z) :
  0 <= num -> u8 T = T ->
  array16_record T num d
  = (payload_len
       (flat_map (fun i => le16_bytes (nth i d 0)) (seq 0 (Z.to_nat num)))
     + 1)
    :: T
    :: flat_map (fun i => le16_bytes (nth i d 0)) (seq 0 (Z.to_nat num)).
Proof.
  intros Hn HT. unfold array16_record.
  rewrite payload_len_le16, HT by exact Hn. reflexivity.
Qed.

Lemma array32_record_shape (T num : Z) (d : list Z) :
  0 <= num -> u8 T = T ->
  array32_record T num d
  = (payload_len
       (flat_map (fun i => le32_bytes (nth i d 0)) (seq 0 (Z.to_nat num)))
     + 1)
    :: T
    :: flat_map (fun i => le32_bytes (nth i d 0)) (seq 0 (Z.to_nat num)).
Proof.
  intros Hn HT. unfold array32_record.
  rewrite payload_len_le32, HT by exact Hn. reflexivity.
Qed.

Section FieldSetRecords.

Variable K : hs_config.
Variable f : ble_hs_adv_fields.
Hypothesis Hrep : representable K f.

Lemma decodes_opt_absent (e : effect) : decodes_opt K ([], eff_if false e).
Proof. left. split; reflexivity. Qed.

Lemma decodes_opt_present (bs : list Z) (e : effect) :
  decodes K bs e -> decodes_opt K (bs, eff_if true e).
Proof. intros H. right. exact H. Qed.

Ltac flat_shape :=
  rewrite flat_record_shape
    by first [lia | reflexivity
             | match goal with |- u8 (if ?c then _ else _) = _ =>
                 destruct c; reflexivity end].

Lemma parse_items_decode : Forall (decodes_opt K) (parse_items K f).
Proof.
  pose proof (rep_max K f Hrep) as Hmax.
  unfold parse_items, field_records, field_effects, flags_record.
  cbn [combine].
  repeat apply Forall_cons; try apply Forall_nil.
  - (* flags *)
    destruct (flags_is_present f && negb (flags f =? 0)); cbn [emitted];
      [apply decodes_opt_present | apply decodes_opt_absent].
    flat_shape. apply decodes_flags; rewrite ?payload_len_bytes; lia.
  - (* uuids16 *)
    generalize (rep_uuids16 K f Hrep).
    destruct (uuids16 f) as [d |]; intros R;
      cbn [with_ptr present andb ptr_data];
      [| apply decodes_opt_absent].
    destruct R as (R1 & R2 & R3).
    destruct (Z.eqb_spec (num_uuids16 f) 0); [lia |].
    cbn [negb emitted]. apply decodes_opt_present.
    rewrite array16_record_shape
      by first [lia | destruct (uuids16_is_complete f); reflexivity].
    apply decodes_uuids16; rewrite payload_len_le16 by lia;
      [apply Z.mod_mul; lia | lia].
  - (* uuids32 *)
    generalize (rep_uuids32 K f Hrep).
    destruct (uuids32 f) as [d |]; intros R;
      cbn [with_ptr present andb ptr_data];
      [| apply decodes_opt_absent].
    destruct R as (R1 & R2 & R3).
    destruct (Z.eqb_spec (num_uuids32 f) 0); [lia |].
    cbn [negb emitted]. apply decodes_opt_present.
    rewrite array32_record_shape
      by first [lia | destruct (uuids32_is_complete f); reflexivity].
    apply decodes_uuids32; rewrite payload_len_le32 by lia;
      [apply Z.mod_mul; lia | lia].
  - (* uuids128 *)
    generalize (rep_uuids128 K f Hrep).
    destruct (uuids128 f) as [d |]; intros R;
      cbn [with_ptr present andb ptr_data];
      [| apply decodes_opt_absent].
    destruct R as (R1 & R2 & R3).
    destruct (Z.gtb_spec (num_uuids128 f) 0); [| lia].
    cbn [emitted]. apply decodes_opt_present.
    flat_shape.
    apply decodes_uuids128; rewrite payload_len_bytes by lia;
      [apply Z.mod_mul; lia | lia].
  - (* name *)
    generalize (rep_name K f Hrep).
    destruct (name f) as [d |]; intros R;
      cbn [with_ptr present andb ptr_data];
      [| apply decodes_opt_absent].
    destruct R as (R1 & R2).
    destruct (Z.gtb_spec (name_len f) 0); [| lia].
    cbn [emitted]. apply decodes_opt_present.
    flat_shape.
    apply decodes_name; rewrite payload_len_bytes by lia; lia.
  - (* tx power *)
    destruct (tx_pwr_lvl_is_present f); cbn [emitted];
      [apply decodes_opt_present | apply decodes_opt_absent].
    flat_shape. apply decodes_tx_pwr_lvl; rewrite ?payload_len_bytes; lia.
  - (* device class *)
    generalize (rep_device_class K f Hrep).
    destruct (device_class f) as [d |]; intros R;
      cbn [with_ptr present ptr_data];
      [apply decodes_opt_present | apply decodes_opt_absent].
    destruct R as (R1 & R2). flat_shape.
    apply decodes_device_class; rewrite payload_len_bytes by lia; lia.
  - (* slave interval range *)
    generalize (rep_slave_itvl_range K f Hrep).
    destruct (slave_itvl_range f) as [d |]; intros R;
      cbn [with_ptr present ptr_data];
      [apply decodes_opt_present | apply decodes_opt_absent].
    destruct R as (R1 & R2). flat_shape.
    apply decodes_slave_itvl_range; rewrite payload_len_bytes by lia; lia.
  - (* service data, 16-bit UUID *)
    generalize (rep_svc_data_uuid16 K f Hrep).
    destruct (svc_data_uuid16 f) as [d |]; intros R;
      cbn [with_ptr present ptr_data];
      [apply decodes_opt_present | apply decodes_opt_absent].
    destruct R as (R1 & R2 & R3). flat_shape.
    apply decodes_svc_data_uuid16; rewrite payload_len_bytes by lia; lia.
  - (* public target address *)
    generalize (rep_public_tgt_addr K f Hrep).
    destruct (public_tgt_addr f) as [d |]; intros R;
      cbn [with_ptr present andb ptr_data];
      [| apply decodes_opt_absent].
    destruct R as (R1 & R2 & R3 & R4).
    destruct (Z.eqb_spec (num_public_tgt_addrs f) 0); [lia |].
    cbn [negb emitted]. apply decodes_opt_present.
    flat_shape.
    apply decodes_public_tgt_addr; rewrite ?payload_len_bytes by nia;
      [lia | rewrite Z.mul_comm; apply Z.mod_mul; lia | lia].
  - (* appearance *)
    destruct (appearance_is_present f); cbn [emitted];
      [apply decodes_opt_present | apply decodes_opt_absent].
    unfold BLE_HS_ADV_APPEARANCE_LEN. flat_shape.
    apply decodes_appearance; rewrite ?payload_len_bytes; lia.
  - (* advertising interval *)
    destruct (adv_itvl_is_present f); cbn [emitted];
      [apply decodes_opt_present | apply decodes_opt_absent].
    apply (decodes_adv_itvl K (le16_bytes (adv_itvl f)));
      [reflexivity | lia].
  - (* LE address *)
    generalize (rep_le_addr K f Hrep).
    destruct (le_addr f) as [d |]; intros R;
      cbn [with_ptr present ptr_data];
      [apply decodes_opt_present | apply decodes_opt_absent].
    destruct R as (R1 & R2). flat_shape.
    apply decodes_le_addr; rewrite payload_len_bytes by lia; lia.
  - (* LE role *)
    destruct (le_role_is_present f); cbn [emitted];
      [apply decodes_opt_present | apply decodes_opt_absent].
    unfold BLE_HS_ADV_LE_ROLE_LEN. flat_shape.
    apply decodes_le_role; rewrite ?payload_len_bytes; lia.
  - (* service data, 32-bit UUID *)
    generalize (rep_svc_data_uuid32 K f Hrep).
    destruct (svc_data_uuid32 f) as [d |]; intros R;
      cbn [with_ptr present ptr_data];
      [apply decodes_opt_present | apply decodes_opt_absent].
    destruct R as (R1 & R2 & R3). flat_shape.
    apply decodes_svc_data_uuid32; rewrite payload_len_bytes by lia; lia.
  - (* service data, 128-bit UUID *)
    generalize (rep_svc_data_uuid128 K f Hrep).
    destruct (svc_data_uuid128 f) as [d |]; intros R;
      cbn [with_ptr present ptr_data];
      [apply decodes_opt_present | apply decodes_opt_absent].
    destruct R as (R1 & R2 & R3). flat_shape.
    apply decodes_svc_data_uuid128; rewrite payload_len_bytes by lia; lia.
  - (* URI *)
    generalize (rep_uri K f Hrep).
    destruct (uri f) as [d |]; intros R;
      cbn [with_ptr present ptr_data];
      [apply decodes_opt_present | apply decodes_opt_absent].
    destruct R as (R1 & R2). flat_shape.
    apply decodes_uri; rewrite payload_len_bytes by lia; lia.
  - (* manufacturer data *)
    generalize (rep_mfg_data K f Hrep).
    destruct (mfg_data f) as [d |]; intros R;
      cbn [with_ptr present ptr_data];
      [apply decodes_opt_present | apply decodes_opt_absent].
    destruct R as (R1 & R2). flat_shape.
    apply decodes_mfg_data; rewrite payload_len_bytes by lia; lia.
Qed.

End FieldSetRecords.

(** ** The output after the records of a field set *)

Lemma eff_if_eq (b : bool) (e : effect) (p : list Z) (o : parse_out) :
  eff_if b e p o = if b then e p o else o.
Proof. reflexivity. Qed.

(** An effect that leaves a component of the output alone can be dropped
    when that component is read. *)
Lemma frame_fields {A : Type} (P : ble_hs_adv_fields -> A) (b : bool)
    (e : effect) (p : list Z) (o : parse_out) :
  (forall o', P (out_fields (e p o')) = P (out_fields o')) ->
  P (out_fields (eff_if b e p o)) = P (out_fields o).
Proof. intros H. unfold eff_if. destruct b; [apply H | reflexivity]. Qed.

Lemma frame_uuids16 (b : bool) (e : effect) (p : list Z) (o : parse_out) :
  (forall o', out_uuids16 (e p o') = out_uuids16 o') ->
  out_uuids16 (eff_if b e p o) = out_uuids16 o.
Proof. intros H. unfold eff_if. destruct b; [apply H | reflexivity]. Qed.

Lemma frame_uuids32 (b : bool) (e : effect) (p : list Z) (o : parse_out) :
  (forall o', out_uuids32 (e p o') = out_uuids32 o') ->
  out_uuids32 (eff_if b e p o) = out_uuids32 o.
Proof. intros H. unfold eff_if. destruct b; [apply H | reflexivity]. Qed.

Lemma blob_view (d post : list Z) (len : Z) :
  cells_ok 256 len d ->
  firstn (Z.to_nat len) (payload_bytes d len ++ post)
  = firstn (Z.to_nat len) d.
Proof.
  intros H. rewrite (payload_bytes_firstn d len H).
  destruct H as [Hlen _].
  rewrite firstn_app, firstn_firstn, length_firstn.
  replace (Z.to_nat len - Nat.min (Z.to_nat len) (length d))%nat
    with 0%nat by lia.
  rewrite Nat.min_id. cbn [firstn]. apply app_nil_r.
Qed.

Lemma payload_bytes_one (x : Z) : payload_bytes [x] 1 = [u8 x].
Proof. reflexivity. Qed.

Lemma s8_u8 (x : Z) : -128 <= x < 128 -> s8 (u8 x) = x.
Proof.
  intros H. unfold s8, u8. rewrite Z.mod_mod by lia.
  destruct (Z_lt_le_dec x 0) as [Hn | Hp].
  - replace (x mod 256) with (x + 256)
      by (apply (Z.mod_unique x 256 (-1) (x + 256)); lia).
    destruct (Z.ltb_spec (x + 256) 128); lia.
  - rewrite Z.mod_small by lia.
    destruct (Z.ltb_spec x 128); lia.
Qed.

(** Drops the effects that do not assign the component read in the goal,
    outermost first. *)
Ltac peel :=
  repeat match goal with
  | |- context [?P (out_fields (eff_if ?b ?e ?p ?o))] =>
      rewrite (frame_fields P b e p o (fun _ => eq_refl))
  | |- context [out_uuids16 (eff_if ?b ?e ?p ?o)] =>
      rewrite (frame_uuids16 b e p o (fun _ => eq_refl))
  | |- context [out_uuids32 (eff_if ?b ?e ?p ?o)] =>
      rewrite (frame_uuids32 b e p o (fun _ => eq_refl))
  end.

(** Splits on whether the record of the outermost effect was written. *)
Ltac layer H :=
  match goal with
  | |- context [out_fields (eff_if ?b ?e ?p ?o)] =>
      rewrite (eff_if_eq b e p o); destruct b eqn:H
  end.

Ltac run_eff :=
  cbn
    [eff_flags eff_uuids16 eff_uuids32 eff_uuids128 eff_name eff_tx_pwr_lvl
     eff_device_class eff_slave_itvl_range eff_svc_data_uuid16
     eff_public_tgt_addr eff_appearance eff_adv_itvl eff_le_addr
     eff_le_role eff_svc_data_uuid32 eff_svc_data_uuid128 eff_uri
     eff_mfg_data on_fields out_fields out_uuids16 out_uuids32
     set_flags set_flags_is_present set_uuids16 set_num_uuids16 
set_uuids16_is_complete set_uuids32 set_num_uuids32 set_uuids32_is_complete 
set_uuids128 set_num_uuids128 set_uuids128_is_complete set_name 
set_name_len set_name_is_complete set_tx_pwr_lvl set_tx_pwr_lvl_is_present 
set_device_class set_slave_itvl_range set_svc_data_uuid16 
set_svc_data_uuid16_len set_public_tgt_addr set_num_public_tgt_addrs 
set_appearance set_appearance_is_present set_adv_itvl 
set_adv_itvl_is_present set_le_addr set_le_role set_le_role_is_present 
set_svc_data_uuid32 set_svc_data_uuid32_len set_svc_data_uuid128 
set_svc_data_uuid128_len set_uri set_uri_len set_mfg_data set_mfg_data_len 
     flags flags_is_present uuids16 num_uuids16 uuids16_is_complete uuids32 
num_uuids32 uuids32_is_complete uuids128 num_uuids128 uuids128_is_complete 
name name_len name_is_complete tx_pwr_lvl tx_pwr_lvl_is_present 
device_class slave_itvl_range svc_data_uuid16 svc_data_uuid16_len 
public_tgt_addr num_public_tgt_addrs appearance appearance_is_present 
adv_itvl adv_itvl_is_present le_addr le_role le_role_is_present 
svc_data_uuid32 svc_data_uuid32_len svc_data_uuid128 svc_data_uuid128_len 
uri uri_len mfg_data mfg_data_len ].

Ltac at_zero Ho :=
  rewrite Ho;
  cbn
    [fields_zero
     flags flags_is_present uuids16 num_uuids16 uuids16_is_complete uuids32
     num_uuids32 uuids32_is_complete uuids128 num_uuids128
     uuids128_is_complete name name_len name_is_complete tx_pwr_lvl
     tx_pwr_lvl_is_present device_class slave_itvl_range svc_data_uuid16
     svc_data_uuid16_len public_tgt_addr num_public_tgt_addrs appearance
     appearance_is_present adv_itvl adv_itvl_is_present le_addr le_role
     le_role_is_present svc_data_uuid32 svc_data_uuid32_len
     svc_data_uuid128 svc_data_uuid128_len uri uri_len mfg_data
     mfg_data_len].

Ltac conj_hyps :=
  repeat match goal with H : _ /\ _ |- _ => destruct H end.

(** Splits on a pointer member, with the fact [R] about it and the
    condition [Hb] of its record. *)
Ltac case_ptr p R Hb d :=
  revert R Hb; destruct p as [d |]; intros R Hb;
  cbn [present andb ptr_data] in R, Hb |- *.

(** Closes a case whose record condition contradicts [representable]. *)
Ltac absurd_b Hb :=
  conj_hyps;
  repeat match type of Hb with
  | context [Z.eqb ?a ?b] => destruct (Z.eqb_spec a b)
  | context [Z.gtb ?a ?b] => destruct (Z.gtb_spec a b)
  end;
  cbn in Hb; first [discriminate Hb | lia].

Section FieldSetOutput.

Variable K : hs_config.
Variable f : ble_hs_adv_fields.
Variable o : parse_out.
Hypothesis Hrep : representable K f.
Hypothesis Ho : out_fields o = fields_zero.
Hypothesis Ho16 : (Z.to_nat (num_uuids16 f) <= length (out_uuids16 o))%nat.
Hypothesis Ho32 : (Z.to_nat (num_uuids32 f) <= length (out_uuids32 o))%nat.

(** From the zeroed field set, the effects of the records of a
    representable [f] give [f] back. *)
Lemma run_effects_fields :
  fields_equiv K f (out_fields (run_effects (parse_items K f) o)).
Proof.
  pose proof (rep_flags K f Hrep) as Rflags.
  pose proof (rep_uuids16 K f Hrep) as R16.
  pose proof (rep_uuids32 K f Hrep) as R32.
  pose proof (rep_uuids128 K f Hrep) as R128.
  pose proof (rep_name K f Hrep) as Rname.
  pose proof (rep_tx_pwr_lvl K f Hrep) as Rtx.
  pose proof (rep_device_class K f Hrep) as Rdc.
  pose proof (rep_slave_itvl_range K f Hrep) as Rsir.
  pose proof (rep_svc_data_uuid16 K f Hrep) as Rsd16.
  pose proof (rep_public_tgt_addr K f Hrep) as Rpta.
  pose proof (rep_appearance K f Hrep) as Rapp.
  pose proof (rep_adv_itvl K f Hrep) as Radv.
  pose proof (rep_le_addr K f Hrep) as Rla.
  pose proof (rep_le_role K f Hrep) as Rlr.
  pose proof (rep_svc_data_uuid32 K f Hrep) as Rsd32.
  pose proof (rep_svc_data_uuid128 K f Hrep) as Rsd128.
  pose proof (rep_uri K f Hrep) as Ruri.
  pose proof (rep_mfg_data K f Hrep) as Rmfg.
  pose proof (rep_uuids32_is_complete K f Hrep) as R32c.
  pose proof (rep_uuids16_is_complete K f Hrep) as R16c.
  unfold parse_items, field_records, field_effects, flags_record.
  cbn [combine run_effects].
  constructor.
  - (* flags *)
    peel. layer Hb.
    + run_eff. rewrite payload_bytes_one. cbn [nth]. apply u8_small.
      destruct (flags_is_present f); [lia | discriminate Hb].
    + peel. at_zero Ho.
      destruct (flags_is_present f); [| lia].
      destruct (Z.eqb_spec (flags f) 0); [lia | discriminate Hb].
  - (* flags_is_present *)
    peel. layer Hb.
    + run_eff. destruct (flags_is_present f); [reflexivity | discriminate Hb].
    + peel. at_zero Ho.
      destruct (flags_is_present f); [| reflexivity].
      destruct (Z.eqb_spec (flags f) 0); [lia | discriminate Hb].
  - (* uuids16 *)
    peel. layer Hb.
    + case_ptr (uuids16 f) R16 Hb d; [| discriminate Hb].
      run_eff. peel. destruct R16 as (R1 & R2 & R3 & R4).
      unfold blob_eq. rewrite payload_len_le16 by lia.
      rewrite Z.div_mul by lia.
      apply decode16_round_trip; assumption.
    + peel. at_zero Ho.
      case_ptr (uuids16 f) R16 Hb d; [absurd_b Hb | exact I].
  - (* num_uuids16 *)
    peel. layer Hb.
    + case_ptr (uuids16 f) R16 Hb d; [| discriminate Hb].
      run_eff. rewrite payload_len_le16 by lia. apply Z.div_mul. lia.
    + peel. at_zero Ho.
      case_ptr (uuids16 f) R16 Hb d; [absurd_b Hb | lia].
  - (* uuids16_is_complete *)
    peel. layer Hb2.
    + run_eff. rewrite R32c. symmetry. apply R16c.
      apply andb_true_iff in Hb2. apply Hb2.
    + peel. layer Hb.
      * run_eff. reflexivity.
      * peel. at_zero Ho.
        case_ptr (uuids16 f) R16 Hb d; [absurd_b Hb |].
        symmetry. apply R16.
  - (* uuids32 *)
    peel. layer Hb.
    + case_ptr (uuids32 f) R32 Hb d; [| discriminate Hb].
      run_eff. peel. destruct R32 as (R1 & R2 & R3 & R4).
      unfold blob_eq. rewrite payload_len_le32 by lia.
      rewrite Z.div_mul by lia.
      apply decode32_round_trip; assumption.
    + peel. at_zero Ho.
      case_ptr (uuids32 f) R32 Hb d; [absurd_b Hb | exact I].
  - (* num_uuids32 *)
    peel. layer Hb.
    + case_ptr (uuids32 f) R32 Hb d; [| discriminate Hb].
      run_eff. rewrite payload_len_le32 by lia. apply Z.div_mul. lia.
    + peel. at_zero Ho.
      case_ptr (uuids32 f) R32 Hb d; [absurd_b Hb | lia].
  - (* uuids32_is_complete *)
    peel. at_zero Ho. symmetry. exact R32c.
  - (* uuids128 *)
    peel. layer Hb.
    + case_ptr (uuids128 f) R128 Hb d; [| discriminate Hb].
      run_eff. unfold blob_eq. apply blob_view. apply R128.
    + peel. at_zero Ho.
      case_ptr (uuids128 f) R128 Hb d; [absurd_b Hb | exact I].
  - (* num_uuids128 *)
    peel. layer Hb.
    + case_ptr (uuids128 f) R128 Hb d; [| discriminate Hb].
      run_eff. rewrite payload_len_bytes by lia. apply Z.div_mul. lia.
    + peel. at_zero Ho.
      case_ptr (uuids128 f) R128 Hb d; [absurd_b Hb | lia].
  - (* uuids128_is_complete *)
    peel. layer Hb.
    + run_eff. reflexivity.
    + peel. at_zero Ho.
      case_ptr (uuids128 f) R128 Hb d; [absurd_b Hb |].
      symmetry. apply R128.
  - (* name *)
    peel. layer Hb.
    + case_ptr (name f) Rname Hb d; [| discriminate Hb].
      run_eff. unfold blob_eq. apply blob_view. apply Rname.
    + peel. at_zero Ho.
      case_ptr (name f) Rname Hb d; [absurd_b Hb | exact I].
  - (* name_len *)
    peel. layer Hb.
    + case_ptr (name f) Rname Hb d; [| discriminate Hb].
      run_eff. apply payload_len_bytes. lia.
    + peel. at_zero Ho.
      case_ptr (name f) Rname Hb d; [absurd_b Hb | lia].
  - (* name_is_complete *)
    peel. layer Hb.
    + run_eff. reflexivity.
    + peel. at_zero Ho.
      case_ptr (name f) Rname Hb d; [absurd_b Hb |].
      symmetry. apply Rname.
  - (* tx_pwr_lvl *)
    peel. layer Hb; try rewrite Hb in Rtx.
    + run_eff. rewrite payload_bytes_one. cbn [nth].
      unfold tx_pwr_value.
      destruct (Z.eqb_spec (tx_pwr_lvl f) (BLE_HS_ADV_TX_PWR_LVL_AUTO K));
        [tauto |].
      apply s8_u8. apply Rtx.
    + peel. at_zero Ho. lia.
  - (* tx_pwr_lvl_is_present *)
    peel. layer Hb.
    + run_eff. first [reflexivity | symmetry; exact Hb].
    + peel. at_zero Ho. first [reflexivity | symmetry; exact Hb].
  - (* device_class *)
    peel. layer Hb.
    + case_ptr (device_class f) Rdc Hb d; [| discriminate Hb].
      run_eff. unfold blob_eq. apply blob_view. apply Rdc.
    + peel. at_zero Ho.
      case_ptr (device_class f) Rdc Hb d; [discriminate Hb | exact I].
  - (* slave_itvl_range *)
    peel. layer Hb.
    + case_ptr (slave_itvl_range f) Rsir Hb d; [| discriminate Hb].
      run_eff. unfold blob_eq. apply blob_view. apply Rsir.
    + peel. at_zero Ho.
      case_ptr (slave_itvl_range f) Rsir Hb d; [discriminate Hb | exact I].
  - (* svc_data_uuid16 *)
    peel. layer Hb.
    + case_ptr (svc_data_uuid16 f) Rsd16 Hb d; [| discriminate Hb].
      run_eff. unfold blob_eq. apply blob_view. apply Rsd16.
    + peel. at_zero Ho.
      case_ptr (svc_data_uuid16 f) Rsd16 Hb d; [discriminate Hb | exact I].
  - (* svc_data_uuid16_len *)
    peel. layer Hb.
    + case_ptr (svc_data_uuid16 f) Rsd16 Hb d; [| discriminate Hb].
      run_eff. apply payload_len_bytes. lia.
    + peel. at_zero Ho.
      case_ptr (svc_data_uuid16 f) Rsd16 Hb d; [discriminate Hb | lia].
  - (* public_tgt_addr *)
    peel. layer Hb.
    + case_ptr (public_tgt_addr f) Rpta Hb d; [| discriminate Hb].
      run_eff. unfold blob_eq. apply blob_view. apply Rpta.
    + peel. at_zero Ho.
      case_ptr (public_tgt_addr f) Rpta Hb d; [absurd_b Hb | exact I].
  - (* num_public_tgt_addrs *)
    peel. layer Hb.
    + case_ptr (public_tgt_addr f) Rpta Hb d; [| discriminate Hb].
      run_eff. rewrite payload_len_bytes by nia.
      rewrite Z.mul_comm. apply Z.div_mul. lia.
    + peel. at_zero Ho.
      case_ptr (public_tgt_addr f) Rpta Hb d; [absurd_b Hb | lia].
  - (* appearance *)
    peel. layer Hb; try rewrite Hb in Rapp.
    + run_eff.
      change (le16_of (u8 (u8 (appearance f)))
                (u8 (u8 (Z.shiftr (appearance f) 8))) = appearance f).
      rewrite !(u8_small (u8 _)) by apply u8_range.
      apply le16_of_bytes, Rapp.
    + peel. at_zero Ho. lia.
  - (* appearance_is_present *)
    peel. layer Hb.
    + run_eff. first [reflexivity | symmetry; exact Hb].
    + peel. at_zero Ho. first [reflexivity | symmetry; exact Hb].
  - (* adv_itvl *)
    peel. layer Hb; try rewrite Hb in Radv.
    + run_eff.
      change (le16_of (u8 (adv_itvl f)) (u8 (Z.shiftr (adv_itvl f) 8))
              = adv_itvl f).
      apply le16_of_bytes, Radv.
    + peel. at_zero Ho. lia.
  - (* adv_itvl_is_present *)
    peel. layer Hb.
    + run_eff. first [reflexivity | symmetry; exact Hb].
    + peel. at_zero Ho. first [reflexivity | symmetry; exact Hb].
  - (* le_addr *)
    peel. layer Hb.
    + case_ptr (le_addr f) Rla Hb d; [| discriminate Hb].
      run_eff. unfold blob_eq. apply blob_view. apply Rla.
    + peel. at_zero Ho.
      case_ptr (le_addr f) Rla Hb d; [discriminate Hb | exact I].
  - (* le_role *)
    peel. layer Hb; try rewrite Hb in Rlr.
    + run_eff. change (u8 (le_role f) = le_role f).
      apply u8_small, Rlr.
    + peel. at_zero Ho. lia.
  - (* le_role_is_present *)
    peel. layer Hb.
    + run_eff. first [reflexivity | symmetry; exact Hb].
    + peel. at_zero Ho. first [reflexivity | symmetry; exact Hb].
  - (* svc_data_uuid32 *)
    peel. layer Hb.
    + case_ptr (svc_data_uuid32 f) Rsd32 Hb d; [| discriminate Hb].
      run_eff. unfold blob_eq. apply blob_view. apply Rsd32.
    + peel. at_zero Ho.
      case_ptr (svc_data_uuid32 f) Rsd32 Hb d; [discriminate Hb | exact I].
  - (* svc_data_uuid32_len *)
    peel. layer Hb.
    + case_ptr (svc_data_uuid32 f) Rsd32 Hb d; [| discriminate Hb].
      run_eff. apply payload_len_bytes. lia.
    + peel. at_zero Ho.
      case_ptr (svc_data_uuid32 f) Rsd32 Hb d; [discriminate Hb | lia].
  - (* svc_data_uuid128 *)
    peel. layer Hb.
    + case_ptr (svc_data_uuid128 f) Rsd128 Hb d; [| discriminate Hb].
      run_eff. unfold blob_eq. apply blob_view. apply Rsd128.
    + peel. at_zero Ho.
      case_ptr (svc_data_uuid128 f) Rsd128 Hb d; [discriminate Hb | exact I].
  - (* svc_data_uuid128_len *)
    peel. layer Hb.
    + case_ptr (svc_data_uuid128 f) Rsd128 Hb d; [| discriminate Hb].
      run_eff. apply payload_len_bytes. lia.
    + peel. at_zero Ho.
      case_ptr (svc_data_uuid128 f) Rsd128 Hb d; [discriminate Hb | lia].
  - (* uri *)
    peel. layer Hb.
    + case_ptr (uri f) Ruri Hb d; [| discriminate Hb].
      run_eff. unfold blob_eq. apply blob_view. apply Ruri.
    + peel. at_zero Ho.
      case_ptr (uri f) Ruri Hb d; [discriminate Hb | exact I].
  - (* uri_len *)
    peel. layer Hb.
    + case_ptr (uri f) Ruri Hb d; [| discriminate Hb].
      run_eff. apply payload_len_bytes. lia.
    + peel. at_zero Ho.
      case_ptr (uri f) Ruri Hb d; [discriminate Hb | lia].
  - (* mfg_data *)
    peel. layer Hb.
    + case_ptr (mfg_data f) Rmfg Hb d; [| discriminate Hb].
      run_eff. unfold blob_eq. apply blob_view. apply Rmfg.
    + peel. at_zero Ho.
      case_ptr (mfg_data f) Rmfg Hb d; [discriminate Hb | exact I].
  - (* mfg_data_len *)
    peel. layer Hb.
    + case_ptr (mfg_data f) Rmfg Hb d; [| discriminate Hb].
      run_eff. apply payload_len_bytes. lia.
    + peel. at_zero Ho.
      case_ptr (mfg_data f) Rmfg Hb d; [discriminate Hb | lia].
Qed.

End FieldSetOutput.

(** ** Building, then parsing *)

Lemma parse_items_bytes (K : hs_config) (f : ble_hs_adv_fields) :
  concat (map fst (parse_items K f)) = encode K f.
Proof.
  unfold parse_items, encode, field_records, field_effects.
  cbn [combine map fst concat]. reflexivity.
Qed.

Lemma parse_items_length (K : hs_config) (f : ble_hs_adv_fields) :
  length (parse_items K f) = 18%nat.
Proof. reflexivity. Qed.

Lemma scratch_fits (n size max : Z) :
  0 < size -> 0 <= n -> n * size <= max ->
  (Z.to_nat n <= Z.to_nat (max / size))%nat.
Proof.
  intros Hs Hn Hle. apply Z2Nat.inj_le; [lia | |].
  - apply Z.div_pos; nia.
  - apply Z.div_le_lower_bound; lia.
Qed.

Section RoundTrip.

Variable K : hs_config.
Variable max_len : Z.
Hypothesis advertise_on : NIMBLE_OPT_ADVERTISE K = true.
Hypothesis max_len_u8 : 0 <= max_len < 256.

(** X12. Building a representable field set whose encoding fits
    [max_len], then parsing the bytes the builder left in the destination
    with the final [*dst_len] as length, returns 0 on both sides and gives
    the field set back: the same scalars, lengths, counts and flags, and
    pointers that show the same cells. *)
Theorem set_fields_parse_fields_round_trip (f : ble_hs_adv_fields)
    (st : adv_dst) (pst : parse_st) (fuel : nat) :
  lengths_fit K f ->
  representable K f ->
  Z.of_nat (length (encode K f)) <= max_len ->
  length (ble_hs_adv_uuids16 pst)
  = Z.to_nat (BLE_HS_ADV_MAX_FIELD_SZ K / 2) ->
  length (ble_hs_adv_uuids32 pst)
  = Z.to_nat (BLE_HS_ADV_MAX_FIELD_SZ K / 4) ->
  (18 < fuel)%nat ->
  let b := ble_hs_adv_set_fields K f max_len st in
  fst b = None /\
  exists src,
    dst_bytes (snd b) (dst_len (snd b)) = Some src /\
    exists pst',
      ble_hs_adv_parse_fields K src fuel (dst_len (snd b)) pst
      = Some (None, pst') /\
      fields_equiv K f (adv_fields pst').
Proof.
  intros Hfit Hrep Hsize H16 H32 Hfuel. cbv zeta.
  assert (Hk : tx_pwr_known K f).
  { intros Hp Ha. pose proof (rep_tx_pwr_lvl K f Hrep) as R.
    rewrite Hp in R. destruct R as [_ R]. contradiction. }
  destruct (set_fields_log K max_len advertise_on max_len_u8 f st
              Hfit Hk Hsize) as (G1 & G2 & G3).
  split; [exact G1 |].
  exists (encode K f). split.
  { unfold dst_bytes. rewrite G2, G3, Nat2Z.id.
    apply dst_bytes_from_append_log. }
  rewrite G2. unfold ble_hs_adv_parse_fields.
  destruct (parse_loop_items K (parse_items K f)
              (parse_items_decode K f Hrep) []
              (upd_fields (fun _ => fields_zero) pst) fuel)
    as (pst' & E & O).
  { rewrite parse_items_bytes. lia. }
  { rewrite parse_items_length. exact Hfuel. }
  rewrite parse_items_bytes in E. cbn [app length] in E.
  exists pst'. split; [exact E |].
  change (adv_fields pst') with (out_fields (output pst')).
  rewrite O.
  apply run_effects_fields; [exact Hrep | reflexivity | |].
  - change (out_uuids16 (output (upd_fields (fun _ => fields_zero) pst)))
      with (ble_hs_adv_uuids16 pst).
    rewrite H16. pose proof (rep_uuids16 K f Hrep) as R.
    destruct (uuids16 f).
    + apply scratch_fits; lia.
    + destruct R as [-> _]. cbn. lia.
  - change (out_uuids32 (output (upd_fields (fun _ => fields_zero) pst)))
      with (ble_hs_adv_uuids32 pst).
    rewrite H32. pose proof (rep_uuids32 K f Hrep) as R.
    destruct (uuids32 f).
    + apply scratch_fits; lia.
    + rewrite R. cbn. lia.
Qed.

End RoundTrip.

(** Flags, two UUID lists, name, tx power, appearance and manufacturer
    data, built into 31 bytes and parsed back. *)
Lemma set_fields_parse_fields_round_trip_witness :
  fst (ble_hs_adv_set_fields nimble fields_mixed 31 adv_dst_init) = None /\
  exists src,
    dst_bytes
      (snd (ble_hs_adv_set_fields nimble fields_mixed 31 adv_dst_init))
      (dst_len
         (snd (ble_hs_adv_set_fields nimble fields_mixed 31 adv_dst_init)))
    = Some src /\
    exists pst',
      ble_hs_adv_parse_fields nimble src 19
        (dst_len
           (snd (ble_hs_adv_set_fields nimble fields_mixed 31 adv_dst_init)))
        (parse_st_init nimble)
      = Some (None, pst') /\
      fields_equiv nimble fields_mixed (adv_fields pst').
Proof.
  assert (H31 : 0 <= 31 < 256) by lia.
  assert (Hfit : lengths_fit nimble fields_mixed).
  { unfold lengths_fit.
    repeat (apply Forall_cons;
            [vm_compute; split; [discriminate | reflexivity] |]).
    apply Forall_nil. }
  assert (Hrep : representable nimble fields_mixed).
  { constructor; cbv [fields_mixed fields_flags_foo fields_zero]; cbn;
      unfold cells_ok; cbn;
      repeat match goal with
             | |- _ /\ _ => split
             | |- Forall _ _ => constructor
             end;
      try lia; try reflexivity; try discriminate; try exact I. }
  assert (Hsize : Z.of_nat (length (encode nimble fields_mixed)) <= 31).
  { vm_compute. discriminate. }
  assert (Hfuel : (18 < 19)%nat) by lia.
  exact (set_fields_parse_fields_round_trip nimble 31 eq_refl H31
           fields_mixed adv_dst_init (parse_st_init nimble) 19%nat
           Hfit Hrep Hsize eq_refl eq_refl Hfuel).
Defined.

Section ParserEmpty.

Variable K : hs_config.
Variable mem : list Z.

(** X13. A parse of zero bytes returns 0 without reading the source: it
    zeroes the structure, whatever it held, and leaves the two UUID arrays
    as they were. *)
Theorem parse_fields_empty (fuel : nat) (st : parse_st) :
  exists st',
    ble_hs_adv_parse_fields K mem (S fuel) 0 st = Some (None, st') /\
    adv_fields st' = fields_zero /\
    src_reads st' = src_reads st /\
    ble_hs_adv_uuids16 st' = ble_hs_adv_uuids16 st /\
    ble_hs_adv_uuids32 st' = ble_hs_adv_uuids32 st.
Proof.
  exists (upd_fields (fun _ => fields_zero) st).
  split; [reflexivity |]. repeat split.
Qed.

End ParserEmpty.

(** ** The builder when a record does not fit *)

Section BuilderOverflow.

Variable K : hs_config.
Variable max_len : Z.
Hypothesis advertise_on : NIMBLE_OPT_ADVERTISE K = true.
Hypothesis max_len_u8 : 0 <= max_len < 256.



Lemma overflows_array16 (type num : Z) (elems : list Z) :
  0 <= num * 2 < 256 ->
  overflows max_len (array16_record type num elems)
    (ble_hs_adv_set_array16 type num elems max_len).
Proof.
  intros Hn st H1 H2. unfold array16_record in H2.
  cbn [length] in H2. rewrite !Nat2Z.inj_succ in H2.
  rewrite flat_map_le16_length, length_seq in H2.
  rewrite Nat2Z.inj_mul, Z2Nat.id in H2 by lia.
  unfold ble_hs_adv_set_array16.
  rewrite (u8_small (num * 2)) by exact Hn.
  rewrite (set_hdr_overflow max_len) by (change (Z.of_nat 2) with 2 in H2; lia).
  repeat split.
Qed.

Lemma overflows_array32 (type num : Z) (elems : list Z) :
  0 <= num * 4 < 256 ->
  overflows max_len (array32_record type num elems)
    (ble_hs_adv_set_array32 type num elems max_len).
Proof.
  intros Hn st H1 H2. unfold array32_record in H2.
  cbn [length] in H2. rewrite !Nat2Z.inj_succ in H2.
  rewrite flat_map_le32_length, length_seq in H2.
  rewrite Nat2Z.inj_mul, Z2Nat.id in H2 by lia.
  unfold ble_hs_adv_set_array32.
  rewrite (u8_small (num * 4)) by exact Hn.
  rewrite (set_hdr_overflow max_len) by (change (Z.of_nat 4) with 4 in H2; lia).
  repeat split.
Qed.

Variable f : ble_hs_adv_fields.






End BuilderOverflow.


(** ** The parser when a record is rejected *)

Lemma same_output_eq (st st' : parse_st) :
  same_output st st' -> output st' = output st.
Proof.
  intros (A & B & C). unfold output. rewrite A, B, C. reflexivity.
Qed.

Section ParserPartial.

Variable K : hs_config.

Lemma parse_loop_items_then (items : list (list Z * effect)) :
  Forall (decodes_opt K) items ->
  forall (pre post : list Z) (st : parse_st) (fuel : nat) (rem : Z)
         (e : ble_hs_err),
    0 < rem ->
    Z.of_nat (length (concat (map fst items))) + rem < 256 ->
    (length items < fuel)%nat ->
    (forall st1,
       fst (ble_hs_adv_parse_one_field K
              (pre ++ concat (map fst items) ++ post)
              (Z.of_nat (length pre)
               + Z.of_nat (length (concat (map fst items))))
              rem st1)
       = Some e) ->
    exists st',
      parse_loop K (pre ++ concat (map fst items) ++ post) fuel
        (Z.of_nat (length pre))
        (Z.of_nat (length (concat (map fst items))) + rem) st
      = Some (Some e, st') /\
      output st' = run_effects_in post items (output st).
Proof.
  induction 1 as [| [bs e0] tl Hhd _ IH];
    intros pre post st fuel rem e Hrem Hlen Hfuel Hfail.
  - destruct fuel as [| fuel]; [cbn in Hfuel; lia |].
    cbn [map concat length app run_effects_in] in *.
    change (Z.of_nat 0) with 0 in *.
    rewrite Z.add_0_r in Hfail. rewrite Z.add_0_l.
    cbn [parse_loop].
    destruct (Z.gtb_spec rem 0); [| lia].
    specialize (Hfail st).
    pose proof (parse_one_field_outcome K (pre ++ post)
                  (Z.of_nat (length pre)) rem st) as [_ Hout].
    cbv zeta in Hout.
    destruct (ble_hs_adv_parse_one_field K (pre ++ post)
                (Z.of_nat (length pre)) rem st) as [[e' |] st1];
      cbn [fst snd] in *; [| discriminate].
    inversion Hfail; subst e'.
    exists st1. split; [reflexivity |].
    apply same_output_eq, Hout. discriminate.
  - cbn [map concat fst length run_effects_in] in *.
    destruct Hhd as [[Hbs He] | [H2 Hdec]]; cbn [fst snd] in *.
    + subst bs. cbn [app] in *. rewrite He.
      apply IH; [exact Hrem | exact Hlen | lia | exact Hfail].
    + destruct fuel as [| fuel]; [lia |].
      rewrite length_app, Nat2Z.inj_add in *.
      rewrite <- app_assoc in *.
      cbn [parse_loop].
      destruct (Z.gtb_spec (Z.of_nat (length bs)
                            + Z.of_nat (length (concat (map fst tl)))
                            + rem) 0); [| lia].
      destruct (Hdec pre (concat (map fst tl) ++ post)
                  (Z.of_nat (length bs)
                   + Z.of_nat (length (concat (map fst tl))) + rem) st)
        as (st1 & E & T & O); [lia |].
      rewrite E, T.
      replace (Z.of_nat (length bs)
               + Z.of_nat (length (concat (map fst tl))) + rem
               - Z.of_nat (length bs))
        with (Z.of_nat (length (concat (map fst tl))) + rem) by lia.
      rewrite u8_small by lia.
      destruct (IH (pre ++ bs) post st1 fuel rem e) as (st' & E' & O');
        [lia | lia | lia | |].
      * intros st2. rewrite length_app, Nat2Z.inj_add, <- app_assoc.
        rewrite <- Z.add_assoc. exact (Hfail st2).
      * rewrite length_app, Nat2Z.inj_add, <- app_assoc in E'.
        exists st'. split; [exact E' |].
        rewrite O', O. reflexivity.
Qed.

Variable mem : list Z.

(** X15. When a source starts with records that decode and the record
    after them is rejected, the parse returns the status of the rejected
    record and the output is that of the records before it: what they
    assigned is not rolled back. *)
Theorem parse_fields_partial_result (items : list (list Z * effect))
    (post : list Z) (rem : Z) (e : ble_hs_err) (fuel : nat)
    (st : parse_st) :
  Forall (decodes_opt K) items ->
  mem = concat (map fst items) ++ post ->
  0 < rem ->
  Z.of_nat (length (concat (map fst items))) + rem < 256 ->
  (length items < fuel)%nat ->
  (forall st1,
     fst (ble_hs_adv_parse_one_field K mem
            (Z.of_nat (length (concat (map fst items)))) rem st1)
     = Some e) ->
  exists st',
    ble_hs_adv_parse_fields K mem fuel
      (Z.of_nat (length (concat (map fst items))) + rem) st
    = Some (Some e, st') /\
    output st'
    = run_effects_in post items
        (output (upd_fields (fun _ => fields_zero) st)).
Proof.
  intros Hdec Hmem Hrem Hlen Hfuel Hfail. subst mem.
  unfold ble_hs_adv_parse_fields.
  apply (parse_loop_items_then items Hdec [] post
           (upd_fields (fun _ => fields_zero) st) fuel rem e Hrem Hlen
           Hfuel).
  exact Hfail.
Qed.

End ParserPartial.

(** The flags record, then a UUID16 record with a payload of one byte. *)
Lemma parse_fields_partial_result_witness :
  exists st',
    ble_hs_adv_parse_fields nimble [0x02; 0x01; 0x06; 0x02; 0x03; 0x0D] 2 6
      (parse_st_init nimble)
    = Some (Some BLE_HS_EBADDATA, st') /\
    flags (adv_fields st') = 0x06 /\
    flags_is_present (adv_fields st') = true.
Proof.
  assert (Hdec : Forall (decodes_opt nimble)
                   [((payload_len [0x06] + 1)
                       :: BLE_HS_ADV_TYPE_FLAGS :: [0x06],
                     eff_if true (eff_flags [0x06]))]).
  { apply Forall_cons; [| apply Forall_nil].
    right. apply decodes_flags; [reflexivity | vm_compute; discriminate]. }
  assert (Hrem : 0 < 3) by lia.
  assert (Hlen : 3 + 3 < 256) by lia.
  assert (Hfuel : (1 < 2)%nat) by lia.
  destruct (parse_fields_partial_result nimble
              [0x02; 0x01; 0x06; 0x02; 0x03; 0x0D]
              [((payload_len [0x06] + 1) :: BLE_HS_ADV_TYPE_FLAGS :: [0x06],
                eff_if true (eff_flags [0x06]))]
              [0x02; 0x03; 0x0D] 3 BLE_HS_EBADDATA 2%nat
              (parse_st_init nimble) Hdec eq_refl Hrem Hlen Hfuel
              (fun st1 => eq_refl))
    as (st' & E & O).
  exists st'. split; [exact E |].
  change (adv_fields st') with (out_fields (output st')).
  rewrite O. split; reflexivity.
Defined.

(** ** The builder when the tx-power query fails *)

Section BuilderTxPwr.

Variable K : hs_config.
Variable max_len : Z.
Hypothesis advertise_on : NIMBLE_OPT_ADVERTISE K = true.
Hypothesis max_len_u8 : 0 <= max_len < 256.

(** Writers whose records fit all run, and leave the records stored. *)
Lemma run_all_emits (recs : list (list Z)) (ws : list writer) :
  Forall2 (emits max_len) recs ws ->
  forall st,
    0 <= dst_len st ->
    dst_len st + Z.of_nat (length (concat recs)) <= max_len ->
    exists st',
      run_all ws st = Some st' /\
      dst_len st' = dst_len st + Z.of_nat (length (concat recs)) /\
      dst st' = append_log (dst_len st) (concat recs) (dst st).
Proof.
  induction 1 as [| r w recs ws Hw _ IH]; intros st H1 H2.
  - exists st. cbn [run_all concat length append_log].
    repeat split. lia.
  - cbn [concat] in *. rewrite length_app, Nat2Z.inj_add in *.
    cbn [run_all].
    destruct (Hw st H1) as (R & L & D); [lia |].
    destruct (w st) as [[e |] st1]; cbn [fst snd] in R, L, D;
      [discriminate |].
    destruct (IH st1) as (st' & R2 & L2 & D2); [lia | lia |].
    exists st'. split; [exact R2 |]. split; [lia |].
    rewrite D2, D, L, append_log_app. reflexivity.
Qed.

Variable f : ble_hs_adv_fields.

Lemma field_writers_before_tx_pwr_emit :
  lengths_fit K f ->
  Forall2 (emits max_len) (firstn 4 (field_records K f))
    (firstn 4 (field_writers K f max_len)).
Proof.
  unfold lengths_fit, field_records, field_writers. intros H.
  cbn [firstn].
  repeat match goal with
         | H : Forall _ (_ :: _) |- _ => inversion_clear H
         end.
  unfold set_uuids16_field, set_uuids32_field, set_uuids128_field,
    set_name_field.
  cbv zeta.
  repeat (apply Forall2_cons;
          [repeat match goal with
                  | |- emits _ (with_ptr ?p _) _ =>
                      destruct p; cbn [with_ptr]
                  | |- emits _ (emitted ?b _) _ =>
                      destruct b; cbn [emitted]
                  end;
           rewrite ?u8_small by lia;
           first [ apply emits_skip
                 | apply emits_flat; first [assumption | lia]
                 | apply emits_array16; first [assumption | lia]
                 | apply emits_array32; first [assumption | lia] ] |]).
  apply Forall2_nil.
Qed.

(** X16. When the tx-power level is left to the controller and the query
    fails, the builder returns the status of the query, provided the
    records of the fields before tx power fit; the destination then holds
    exactly those records, and the call has stored nothing else. *)
Theorem set_fields_tx_pwr_query_fails (st : adv_dst) (e : ble_hs_err) :
  lengths_fit K f ->
  tx_pwr_lvl_is_present f = true ->
  tx_pwr_lvl f = BLE_HS_ADV_TX_PWR_LVL_AUTO K ->
  ble_hs_hci_util_read_adv_tx_pwr K = inl e ->
  Z.of_nat
    (length (flags_record f ++ concat (firstn 4 (field_records K f))))
  <= max_len ->
  let r := ble_hs_adv_set_fields K f max_len st in
  fst r = Some e /\
  dst (snd r)
  = append_log 0
      (flags_record f ++ concat (firstn 4 (field_records K f))) (dst st) /\
  dst_bytes (snd r) (dst_len (snd r))
  = Some (flags_record f ++ concat (firstn 4 (field_records K f))).
Proof.
  intros Hfit Hp Ha Hq Hsize. cbv zeta.
  rewrite length_app, Nat2Z.inj_add in Hsize.
  destruct (set_flags_field_log K max_len advertise_on max_len_u8 f st)
    as (F1 & L1 & D1); [lia |].
  unfold ble_hs_adv_set_fields. rewrite advertise_on. cbn [negb].
  rewrite set_fields_after_flags_chain. unfold seq_w.
  destruct (set_flags_field K f max_len (set_dst_len 0 st)) as [r1 st1].
  cbn [fst snd] in F1, L1, D1. subst r1.
  destruct (run_all_emits _ _ (field_writers_before_tx_pwr_emit Hfit) st1)
    as (st4 & R & L & D); [lia | lia |].
  change (field_writers K f max_len)
    with (firstn 4 (field_writers K f max_len)
          ++ set_tx_pwr_lvl_field K f max_len
             :: skipn 5 (field_writers K f max_len)).
  rewrite (chain_fail_fast _ _ _ st1 st4 st4 e R).
  - cbn [fst snd]. split; [reflexivity |].
    pose proof (append_log_app (flags_record f)
                  (concat (firstn 4 (field_records K f))) 0 (dst st)) as A.
    rewrite Z.add_0_l in A.
    split; [rewrite D, D1, L1, A; reflexivity |].
    unfold dst_bytes. rewrite L, D, D1, L1, <- A.
    rewrite <- Nat2Z.inj_add, Nat2Z.id, <- length_app.
    apply dst_bytes_from_append_log.
  - unfold set_tx_pwr_lvl_field. rewrite Hp, Ha, Z.eqb_refl, Hq.
    reflexivity.
Qed.

End BuilderTxPwr.

(** Flags and name are written, then the query fails with status 7. *)
Lemma set_fields_tx_pwr_query_fails_witness :
  fst (ble_hs_adv_set_fields (nimble_tx_fails (BLE_HS_EOTHER 7))
         fields_tx_auto 31 adv_dst_init)
  = Some (BLE_HS_EOTHER 7) /\
  dst
    (snd (ble_hs_adv_set_fields (nimble_tx_fails (BLE_HS_EOTHER 7))
            fields_tx_auto 31 adv_dst_init))
  = append_log 0 [0x02; 0x01; 0x06; 0x04; 0x09; 0x46; 0x6F; 0x6F] [] /\
  dst_bytes
    (snd (ble_hs_adv_set_fields (nimble_tx_fails (BLE_HS_EOTHER 7))
            fields_tx_auto 31 adv_dst_init))
    (dst_len
       (snd (ble_hs_adv_set_fields (nimble_tx_fails (BLE_HS_EOTHER 7))
               fields_tx_auto 31 adv_dst_init)))
  = Some [0x02; 0x01; 0x06; 0x04; 0x09; 0x46; 0x6F; 0x6F].
Proof.
  assert (H31 : 0 <= 31 < 256) by lia.
  assert (Hfit : lengths_fit (nimble_tx_fails (BLE_HS_EOTHER 7))
                   fields_tx_auto).
  { unfold lengths_fit.
    repeat (apply Forall_cons;
            [vm_compute; split; [discriminate | reflexivity] |]).
    apply Forall_nil. }
  assert (Hsize :
            Z.of_nat
              (length
                 (flags_record fields_tx_auto
                  ++ concat
                       (firstn 4
                          (field_records (nimble_tx_fails (BLE_HS_EOTHER 7))
                             fields_tx_auto))))
            <= 31).
  { vm_compute. discriminate. }
  exact (set_fields_tx_pwr_query_fails (nimble_tx_fails (BLE_HS_EOTHER 7))
           31 eq_refl H31 fields_tx_auto adv_dst_init (BLE_HS_EOTHER 7)
           Hfit eq_refl eq_refl eq_refl Hsize).
Defined.

(** ** The assertion of the flat writer *)

Lemma memcpy_keeps_assert (off : Z) (data : list Z) (n : Z) (st : adv_dst) :
  dbg_assert_ok (memcpy off data n st) = dbg_assert_ok st.
Proof.
  unfold memcpy. generalize (seq 0 (Z.to_nat n)) as l. intros l.
  revert st. induction l as [| i l IH]; intros st; cbn [fold_left].
  - reflexivity.
  - rewrite IH. reflexivity.
Qed.

Lemma set_elems16_keeps_assert (elems : list Z) (n : nat) :
  forall (i : nat) (st : adv_dst),
    dbg_assert_ok (set_elems16 elems i n st) = dbg_assert_ok st.
Proof.
  induction n as [| n IH]; intros i st; cbn [set_elems16].
  - reflexivity.
  - rewrite IH. reflexivity.
Qed.

Lemma set_elems32_keeps_assert (elems : list Z) (n : nat) :
  forall (i : nat) (st : adv_dst),
    dbg_assert_ok (set_elems32 elems i n st) = dbg_assert_ok st.
Proof.
  induction n as [| n IH]; intros i st; cbn [set_elems32].
  - reflexivity.
  - rewrite IH. reflexivity.
Qed.

Lemma keeps_assert_skip : keeps_assert skip.
Proof. intros st. reflexivity. Qed.

Lemma keeps_assert_seq (m k : writer) :
  keeps_assert m -> keeps_assert k -> keeps_assert (seq_w m k).
Proof.
  intros Hm Hk st. unfold seq_w. specialize (Hm st).
  destruct (m st) as [[e |] st1]; cbn [snd] in *.
  - exact Hm.
  - rewrite Hk. exact Hm.
Qed.

Lemma keeps_assert_chain (ws : list writer) :
  Forall keeps_assert ws -> keeps_assert (chain ws).
Proof.
  induction 1 as [| w ws Hw _ IH].
  - apply keeps_assert_skip.
  - intros st. rewrite chain_cons. apply keeps_assert_seq; assumption.
Qed.

Section BuilderAssert.

Variable K : hs_config.
Variable max_len : Z.

Lemma keeps_assert_hdr (type data_len : Z) :
  keeps_assert (ble_hs_adv_set_hdr type data_len max_len).
Proof.
  intros st. unfold ble_hs_adv_set_hdr.
  destruct (dst_len st + 2 + data_len >? max_len); reflexivity.
Qed.

Lemma keeps_assert_flat (type len : Z) (data : list Z) :
  0 < len -> keeps_assert (ble_hs_adv_set_flat K type len data max_len).
Proof.
  intros Hlen st. unfold ble_hs_adv_set_flat.
  destruct (negb (NIMBLE_OPT_ADVERTISE K)); [reflexivity |].
  pose proof (keeps_assert_hdr type (u8 len)
                (BLE_HS_DBG_ASSERT (0 <? len) st)) as Hh.
  destruct (ble_hs_adv_set_hdr type (u8 len) max_len
              (BLE_HS_DBG_ASSERT (0 <? len) st)) as [[e |] st1];
    cbn [snd] in *.
  - rewrite Hh. unfold BLE_HS_DBG_ASSERT. cbn [dbg_assert_ok].
    destruct (Z.ltb_spec 0 len); [apply andb_true_r | lia].
  - unfold set_dst_len. cbn [dbg_assert_ok].
    rewrite memcpy_keeps_assert, Hh.
    unfold BLE_HS_DBG_ASSERT. cbn [dbg_assert_ok].
    destruct (Z.ltb_spec 0 len); [apply andb_true_r | lia].
Qed.

Lemma keeps_assert_array16 (type num : Z) (elems : list Z) :
  keeps_assert (ble_hs_adv_set_array16 type num elems max_len).
Proof.
  intros st. unfold ble_hs_adv_set_array16.
  pose proof (keeps_assert_hdr type (u8 (num * 2)) st) as Hh.
  destruct (ble_hs_adv_set_hdr type (u8 (num * 2)) max_len st)
    as [[e |] st1]; cbn [snd] in *.
  - exact Hh.
  - rewrite set_elems16_keeps_assert. exact Hh.
Qed.

Lemma keeps_assert_array32 (type num : Z) (elems : list Z) :
  keeps_assert (ble_hs_adv_set_array32 type num elems max_len).
Proof.
  intros st. unfold ble_hs_adv_set_array32.
  pose proof (keeps_assert_hdr type (u8 (num * 4)) st) as Hh.
  destruct (ble_hs_adv_set_hdr type (u8 (num * 4)) max_len st)
    as [[e |] st1]; cbn [snd] in *.
  - exact Hh.
  - rewrite set_elems32_keeps_assert. exact Hh.
Qed.

Variable f : ble_hs_adv_fields.

Lemma keeps_assert_blob (type : Z) (p : ptr) (len : Z) :
  (present p = true -> 0 < len) ->
  keeps_assert (set_blob_field K max_len type p len).
Proof.
  intros H. destruct p as [data |]; cbn [set_blob_field].
  - apply keeps_assert_flat, H. reflexivity.
  - apply keeps_assert_skip.
Qed.

Lemma keeps_assert_tx_pwr_lvl :
  keeps_assert (set_tx_pwr_lvl_field K f max_len).
Proof.
  unfold set_tx_pwr_lvl_field.
  destruct (tx_pwr_lvl_is_present f); [| apply keeps_assert_skip].
  destruct (tx_pwr_lvl f =? BLE_HS_ADV_TX_PWR_LVL_AUTO K);
    [| apply keeps_assert_flat; lia].
  destruct (ble_hs_hci_util_read_adv_tx_pwr K) as [e | lvl].
  - intros st. reflexivity.
  - apply keeps_assert_flat. lia.
Qed.

Lemma field_writers_keep_assert :
  blobs_nonempty K f ->
  Forall keeps_assert (field_writers K f max_len).
Proof.
  unfold blobs_nonempty, field_writers. intros H.
  repeat match goal with
         | H : Forall _ (_ :: _) |- _ => inversion_clear H
         end.
  cbn [fst snd] in *.
  unfold set_uuids16_field, set_uuids32_field, set_uuids128_field,
    set_name_field, set_public_tgt_addr_field, set_appearance_field,
    set_adv_itvl_field, set_le_role_field,
    BLE_HS_ADV_APPEARANCE_LEN, BLE_HS_ADV_LE_ROLE_LEN.
  cbv zeta.
  repeat (apply Forall_cons;
          [first
             [ apply keeps_assert_tx_pwr_lvl
             | apply keeps_assert_blob; assumption
             | repeat match goal with
                      | |- keeps_assert (match ?p with _ => _ end) =>
                          destruct p eqn:?; cbn [present andb] in *
                      end;
               first [ apply keeps_assert_skip
                     | apply keeps_assert_array16
                     | apply keeps_assert_array32
                     | apply keeps_assert_flat;
                       first [ lia
                             | match goal with
                               | H : true = true -> _ |- _ =>
                                   apply H; reflexivity
                               end ] ] ] |]).
  apply Forall_nil.
Qed.

(** X17. When every field that is written without a test of its length
    has a positive length, no call of [ble_hs_adv_set_flat] made by
    [ble_hs_adv_set_fields] fails the assertion [data_len > 0], whatever
    [max_len] and whether the call succeeds or not. *)
Theorem set_fields_assert_holds (st : adv_dst) :
  blobs_nonempty K f ->
  dbg_assert_ok (snd (ble_hs_adv_set_fields K f max_len st))
  = dbg_assert_ok st.
Proof.
  intros H. unfold ble_hs_adv_set_fields.
  destruct (negb (NIMBLE_OPT_ADVERTISE K)); [reflexivity |].
  rewrite set_fields_after_flags_chain.
  rewrite keeps_assert_seq.
  - reflexivity.
  - unfold set_flags_field.
    destruct (flags_is_present f && negb (flags f =? 0));
      [| apply keeps_assert_skip].
    intros s. unfold unchecked. cbn [snd].
    apply keeps_assert_flat. lia.
  - apply keeps_assert_chain, field_writers_keep_assert, H.
Qed.

End BuilderAssert.

(** Manufacturer data of two bytes, the other unguarded fields absent. *)
Lemma set_fields_assert_holds_witness :
  dbg_assert_ok (snd (ble_hs_adv_set_fields nimble fields_mixed 31
                        adv_dst_init))
  = true.
Proof.
  assert (H : blobs_nonempty nimble fields_mixed).
  { unfold blobs_nonempty.
    repeat (apply Forall_cons;
            [cbn; intros E; first [discriminate E | reflexivity] |]).
    apply Forall_nil. }
  exact (set_fields_assert_holds nimble 31 fields_mixed adv_dst_init H).
Defined.

(** ** The contracts of the flat and array writers *)

Section WriterContracts.

Variable K : hs_config.
Variable max_len : Z.
Hypothesis advertise_on : NIMBLE_OPT_ADVERTISE K = true.
Hypothesis max_len_u8 : 0 <= max_len < 256.


(** X19. [ble_hs_adv_set_array16] with at most 127 elements: when the
    record fits after the cursor it returns 0, stores the length byte
    [2 * num_elems + 1], the type byte and the elements, each as two bytes
    with the low byte first, and advances the cursor by
    [2 * num_elems + 2]; otherwise it returns [BLE_HS_EMSGSIZE], stores
    nothing and leaves the cursor. *)
Theorem set_array16_correct (type num : Z) (elems : list Z)
    (st : adv_dst) :
  0 <= num * 2 < 256 ->
  0 <= dst_len st <= max_len ->
  let r := ble_hs_adv_set_array16 type num elems max_len st in
  if dst_len st + 2 + num * 2 <=? max_len
  then fst r = None /\
       dst_len (snd r) = dst_len st + 2 + num * 2 /\
       dst (snd r)
       = append_log (dst_len st) (array16_record type num elems) (dst st)
  else fst r = Some BLE_HS_EMSGSIZE /\
       dst_len (snd r) = dst_len st /\
       dst (snd r) = dst st.
Proof.
  intros Hn Hst. cbv zeta.
  assert (Hsz : Z.of_nat (length (array16_record type num elems))
                = 2 + num * 2).
  { unfold array16_record. cbn [length]. rewrite !Nat2Z.inj_succ.
    rewrite flat_map_le16_length, length_seq.
    rewrite Nat2Z.inj_mul, Z2Nat.id by lia. change (Z.of_nat 2) with 2.
    lia. }
  destruct (Z.leb_spec (dst_len st + 2 + num * 2) max_len)
    as [Hfit | Hover].
  - destruct (emits_array16 max_len max_len_u8 type num elems Hn st)
      as (R & L & D); [lia | lia |].
    split; [exact R |]. split; [lia | exact D].
  - apply (overflows_array16 max_len type num elems Hn st); lia.
Qed.

(** X20. [ble_hs_adv_set_array32] with at most 63 elements: when the
    record fits after the cursor it returns 0, stores the length byte
    [4 * num_elems + 1], the type byte and the elements, each as four
    bytes with the low byte first, and advances the cursor by
    [4 * num_elems + 2]; otherwise it returns [BLE_HS_EMSGSIZE], stores
    nothing and leaves the cursor. *)
Theorem set_array32_correct (type num : Z) (elems : list Z)
    (st : adv_dst) :
  0 <= num * 4 < 256 ->
  0 <= dst_len st <= max_len ->
  let r := ble_hs_adv_set_array32 type num elems max_len st in
  if dst_len st + 2 + num * 4 <=? max_len
  then fst r = None /\
       dst_len (snd r) = dst_len st + 2 + num * 4 /\
       dst (snd r)
       = append_log (dst_len st) (array32_record type num elems) (dst st)
  else fst r = Some BLE_HS_EMSGSIZE /\
       dst_len (snd r) = dst_len st /\
       dst (snd r) = dst st.
Proof.
  intros Hn Hst. cbv zeta.
  assert (Hsz : Z.of_nat (length (array32_record type num elems))
                = 2 + num * 4).
  { unfold array32_record. cbn [length]. rewrite !Nat2Z.inj_succ.
    rewrite flat_map_le32_length, length_seq.
    rewrite Nat2Z.inj_mul, Z2Nat.id by lia. change (Z.of_nat 4) with 4.
    lia. }
  destruct (Z.leb_spec (dst_len st + 2 + num * 4) max_len)
    as [Hfit | Hover].
  - destruct (emits_array32 max_len max_len_u8 type num elems Hn st)
      as (R & L & D); [lia | lia |].
    split; [exact R |]. split; [lia | exact D].
  - apply (overflows_array32 max_len type num elems Hn st); lia.
Qed.

End WriterContracts.


(** Two 16-bit UUIDs that do not fit 5 bytes. *)
Lemma set_array16_correct_witness :
  fst (ble_hs_adv_set_array16 BLE_HS_ADV_TYPE_COMP_UUIDS16 2
         [0x180D; 0x180F] 5 adv_dst_init) = Some BLE_HS_EMSGSIZE /\
  dst_len
    (snd (ble_hs_adv_set_array16 BLE_HS_ADV_TYPE_COMP_UUIDS16 2
            [0x180D; 0x180F] 5 adv_dst_init)) = 0 /\
  dst
    (snd (ble_hs_adv_set_array16 BLE_HS_ADV_TYPE_COMP_UUIDS16 2
            [0x180D; 0x180F] 5 adv_dst_init)) = [].
Proof.
  assert (H5 : 0 <= 5 < 256) by lia.
  assert (Hn : 0 <= 2 * 2 < 256) by lia.
  assert (Hst : 0 <= 0 <= 5) by lia.
  exact (set_array16_correct 5 H5 BLE_HS_ADV_TYPE_COMP_UUIDS16 2
           [0x180D; 0x180F] adv_dst_init Hn Hst).
Defined.

(** One 32-bit UUID written at the start of 31 bytes. *)
Lemma set_array32_correct_witness :
  fst (ble_hs_adv_set_array32 BLE_HS_ADV_TYPE_INCOMP_UUIDS32 1
         [0x12345678] 31 adv_dst_init) = None /\
  dst_len
    (snd (ble_hs_adv_set_array32 BLE_HS_ADV_TYPE_INCOMP_UUIDS32 1
            [0x12345678] 31 adv_dst_init)) = 6 /\
  dst
    (snd (ble_hs_adv_set_array32 BLE_HS_ADV_TYPE_INCOMP_UUIDS32 1
            [0x12345678] 31 adv_dst_init))
  = append_log 0 [0x05; 0x04; 0x78; 0x56; 0x34; 0x12] [].
Proof.
  assert (H31 : 0 <= 31 < 256) by lia.
  assert (Hn : 0 <= 1 * 4 < 256) by lia.
  assert (Hst : 0 <= 0 <= 31) by lia.
  exact (set_array32_correct 31 H31 BLE_HS_ADV_TYPE_INCOMP_UUIDS32 1
           [0x12345678] adv_dst_init Hn Hst).
Defined.
